(** * Voltix invoice pipeline: OCR text to structured record

    A shallow embedding of [site_app/invoices/views.py]
    ([InvoiceProcessView] and its helpers) together with the properties
    the written specification states about it.

    Layout of the development:
    - [Exc]: Python exceptions as an error monad;
    - [PyStr]: Python [str] as a list of code points, with the methods the
      views use ([lower], [find], [in], [replace], [strip], [zfill], slices);
    - [Re]: the fragment of Python's [re] module the extraction patterns
      need, as a backtracking matcher with Python's priority order, and a
      parser for the pattern syntax so that patterns appear verbatim;
    - [PyNum]: [int()], [float()], float division, addition and [round];
    - [PyDate]: [datetime.strptime(s, "%d/%m/%Y").strftime("%Y-%m-%d")];
    - [Views]: the methods of [InvoiceProcessView];
    - the theorems. *)

From Stdlib Require Import ZArith NArith PArith List Bool Lia Ascii String.
From Stdlib Require Import DecimalString Floats.SpecFloat.
Import ListNotations.

Set Implicit Arguments.
Set Warnings "-register-all".
Local Open Scope bool_scope.

(* ================================================================== *)
(** ** Exceptions *)

Module Exc.

(** The exception classes the views distinguish in their [except]
    clauses.  [OtherError] stands for any other subclass of
    [Exception] (raised by the imaging, OCR, storage or database
    collaborators); it carries the text of [str(e)]. *)
Inductive exn :=
| ValueError
| AttributeError
| TypeError
| OtherError (msg : list N).

Inductive exc (A : Type) :=
| Ret (a : A)
| Raise (e : exn).
Arguments Ret {A} a.
Arguments Raise {A} e.

Definition bind {A B} (m : exc A) (f : A -> exc B) : exc B :=
  match m with
  | Ret a => f a
  | Raise e => Raise e
  end.

(** [try: body / except ValueError: handler] *)
Definition try_ValueError {A} (body : exc A) (handler : exc A) : exc A :=
  match body with
  | Raise ValueError => handler
  | other => other
  end.

(** [try: body / except (ValueError, AttributeError): handler] *)
Definition try_ValueError_AttributeError {A} (body : exc A) (handler : exc A)
  : exc A :=
  match body with
  | Raise ValueError => handler
  | Raise AttributeError => handler
  | other => other
  end.

(** [try: body / except Exception as e: handler(e)] *)
Definition try_Exception {A} (body : exc A) (handler : exn -> exc A) : exc A :=
  match body with
  | Raise e => handler e
  | Ret a => Ret a
  end.

Definition returns {A} (m : exc A) : Prop := exists a, m = Ret a.
Definition raises {A} (m : exc A) : Prop := exists e, m = Raise e.

End Exc.
Export Exc.

Declare Scope exc_scope.
Delimit Scope exc_scope with exc.
Notation "x <- m ;; k" := (bind m (fun x => k))
  (at level 61, m at next level, right associativity) : exc_scope.
Notation "' pat <- m ;; k" := (bind m (fun x => let 'pat := x in k))
  (at level 61, pat pattern, m at next level, right associativity)
  : exc_scope.
Local Open Scope exc_scope.

(* ================================================================== *)
(** ** Python strings *)

Module PyStr.

(** A Python [str] is a sequence of Unicode code points. *)
Definition str := list N.

Definition cp_eqb (a b : N) : bool := N.eqb a b.

Fixpoint str_eqb (a b : str) : bool :=
  match a, b with
  | [], [] => true
  | x :: a', y :: b' => cp_eqb x y && str_eqb a' b'
  | _, _ => false
  end.

(** *** Literals

    String literals of this file are UTF-8, as those of the Python
    source; [utf8] decodes one into its code points. *)
Definition byte_of (a : ascii) : N := N_of_ascii a.

Fixpoint bytes_of (s : string) : list N :=
  match s with
  | EmptyString => []
  | String a s' => byte_of a :: bytes_of s'
  end.

Definition cont (b : N) : N := N.land b 63.

Fixpoint decode (fuel : nat) (bs : list N) : str :=
  match fuel with
  | O => []
  | S fuel' =>
      match bs with
      | [] => []
      | b0 :: r0 =>
          if N.ltb b0 128 then b0 :: decode fuel' r0
          else if N.ltb b0 224 then
            match r0 with
            | b1 :: r1 =>
                (N.land b0 31 * 64 + cont b1)%N :: decode fuel' r1
            | _ => [b0]
            end
          else if N.ltb b0 240 then
            match r0 with
            | b1 :: b2 :: r2 =>
                (N.land b0 15 * 4096 + cont b1 * 64 + cont b2)%N
                  :: decode fuel' r2
            | _ => [b0]
            end
          else
            match r0 with
            | b1 :: b2 :: b3 :: r3 =>
                (N.land b0 7 * 262144 + cont b1 * 4096
                 + cont b2 * 64 + cont b3)%N :: decode fuel' r3
            | _ => [b0]
            end
      end
  end.

Definition utf8 (s : string) : str :=
  let bs := bytes_of s in decode (List.length bs) bs.

Definition LF : N := 10.

(** *** Methods *)

(** [s[:n]] and [s[n:]] for [0 <= n]. *)
Definition take (n : nat) (s : str) : str := firstn n s.
Definition drop (n : nat) (s : str) : str := skipn n s.

(** [s[:-n]] and [s[-n:]] for [0 < n]. *)
Definition drop_last (n : nat) (s : str) : str :=
  firstn (List.length s - n) s.
Definition take_last (n : nat) (s : str) : str :=
  skipn (List.length s - n) s.

Fixpoint starts_with (p s : str) : bool :=
  match p, s with
  | [], _ => true
  | x :: p', y :: s' => cp_eqb x y && starts_with p' s'
  | _ :: _, [] => false
  end.

(** [s.find(p)]: the lowest index at which [p] occurs, [None] for -1. *)
Fixpoint find_from (i : nat) (p s : str) : option nat :=
  if starts_with p s then Some i
  else match s with
       | [] => None
       | _ :: s' => find_from (S i) p s'
       end.

Definition find (p s : str) : option nat := find_from 0 p s.

(** [p in s] *)
Definition contains (p s : str) : bool :=
  match find p s with Some _ => true | None => false end.

(** [s.replace(old, new)] for a one-character [old], which is the only
    use the views make of it. *)
Definition replace (old : N) (new : str) (s : str) : str :=
  flat_map (fun c => if cp_eqb c old then new else [c]) s.

(** [s.zfill(width)]; the views apply it to runs of digits only, so the
    sign handling of [zfill] is not reached. *)
Definition zfill (width : nat) (s : str) : str :=
  repeat 48%N (width - List.length s) ++ s.

Fixpoint lstrip_by (sp : N -> bool) (s : str) : str :=
  match s with
  | c :: s' => if sp c then lstrip_by sp s' else s
  | [] => []
  end.

Definition strip_by (sp : N -> bool) (s : str) : str :=
  rev (lstrip_by sp (rev (lstrip_by sp s))).

End PyStr.
Export PyStr.

(* ================================================================== *)
(** ** The interpreter's tables

    What [str.lower], [str.strip], [int], [float] and the classes
    [\d], [\s], [\w] of [re] do on a code point is decided by the Unicode
    database of the running interpreter, and the length limit of
    [int()] by its configuration.  They are a parameter of the
    development: every theorem below that quantifies over [Runtime]
    holds whatever the tables are. *)

Class Runtime := {
  (** [str.lower] (it can change the length of a string) *)
  str_lower : str -> str;
  (** category Nd: [\d], and the digits [int()] and [float()] accept *)
  is_decimal : N -> bool;
  decimal_value : N -> Z;
  (** [str.isspace]: [\s] and the characters [strip()] removes *)
  is_space : N -> bool;
  (** [\w]: alphanumeric or underscore *)
  is_word : N -> bool;
  (** equality of two code points under [re.IGNORECASE] *)
  fold_eq : N -> N -> bool;
  (** [sys.get_int_max_str_digits()]; 0 disables the limit *)
  int_max_str_digits : nat;
  (** the least number of digits [strftime] writes for [%Y]: 4 where
      the year is zero-padded, 1 where the C library leaves years below
      1000 unpadded (glibc) *)
  year_width : nat
}.

(** The tables restricted to Basic Latin and Latin-1 Supplement
    (U+0000..U+00FF), where they are small enough to write down; beyond
    U+00FF this instance treats every code point as an uncased symbol
    (which is what U+20AC, the euro sign, is).  It serves to evaluate
    the model on concrete texts. *)
Module Latin1.

Definition between (lo hi c : N) : bool := N.leb lo c && N.leb c hi.

Definition is_upper (c : N) : bool :=
  between 65 90 c || (between 192 222 c && negb (N.eqb c 215)).

Definition lower_cp (c : N) : N := if is_upper c then (c + 32)%N else c.

Definition decimal (c : N) : bool := between 48 57 c.

Definition space (c : N) : bool :=
  between 9 13 c || between 28 32 c || N.eqb c 133 || N.eqb c 160.

Definition word (c : N) : bool :=
  between 48 57 c || between 65 90 c || between 97 122 c || N.eqb c 95
  || N.eqb c 170 || N.eqb c 181 || N.eqb c 186
  || N.eqb c 178 || N.eqb c 179 || N.eqb c 185
  || between 188 190 c
  || (between 192 255 c && negb (N.eqb c 215) && negb (N.eqb c 247)).

Definition runtime : Runtime := {|
  str_lower := map lower_cp;
  is_decimal := decimal;
  decimal_value := fun c => (Z.of_N c - 48)%Z;
  is_space := space;
  is_word := word;
  fold_eq := fun a b => N.eqb (lower_cp a) (lower_cp b);
  int_max_str_digits := 4300;
  year_width := 1
|}.

End Latin1.

(* ================================================================== *)
(** ** Regular expressions

    The fragment of Python's [re] the views use: literals, [.], the
    classes [\d \s \w], bracket sets with ranges and negation, capturing
    and non-capturing groups, alternation, and the quantifiers
    [* + ? {m} {m,n}] in their greedy and lazy forms, under the flags
    [re.IGNORECASE] and [re.DOTALL].  The matcher explores alternatives
    in the order of Python's backtracking engine, so the match found is
    the match Python finds. *)

Module Re.

Inductive set_item :=
| SChar (c : N)
| SRange (lo hi : N)
| SDigit
| SSpace
| SWord.

Inductive re :=
| REmpty
| RChar (c : N)
| RAny
| RDigit
| RSpace
| RWord
| RSet (negated : bool) (items : list set_item)
| RCat (r1 r2 : re)
| RAlt (r1 r2 : re)
| RRep (greedy : bool) (lo : nat) (hi : option nat) (r : re)
| RGroup (idx : nat) (r : re).

Record flags := { ignorecase : bool; dotall : bool }.

Definition no_flags := {| ignorecase := false; dotall := false |}.
Definition IGNORECASE := {| ignorecase := true; dotall := false |}.
Definition DOTALL := {| ignorecase := false; dotall := true |}.

(** *** Pattern syntax *)

Definition is_ascii_digit (c : N) : bool := N.leb 48 c && N.leb c 57.

Fixpoint parse_nat (acc : nat) (s : str) : nat * str :=
  match s with
  | c :: s' =>
      if is_ascii_digit c
      then parse_nat (10 * acc + N.to_nat (c - 48)) s'
      else (acc, s)
  | [] => (acc, s)
  end.

(** The escapes of the patterns: [\d \s \w], [\n] and [\t], and an
    escaped punctuation character standing for itself. *)
Definition escape_re (c : N) : re :=
  if N.eqb c 100 then RDigit
  else if N.eqb c 115 then RSpace
  else if N.eqb c 119 then RWord
  else if N.eqb c 110 then RChar 10
  else if N.eqb c 116 then RChar 9
  else RChar c.

Definition escape_item (c : N) : set_item :=
  if N.eqb c 100 then SDigit
  else if N.eqb c 115 then SSpace
  else if N.eqb c 119 then SWord
  else if N.eqb c 110 then SChar 10
  else if N.eqb c 116 then SChar 9
  else SChar c.

Definition item_char (i : set_item) : option N :=
  match i with SChar c => Some c | _ => None end.

(** Items of a bracket set, up to the closing bracket. *)
Fixpoint parse_items (fuel : nat) (s : str) : option (list set_item * str) :=
  match fuel with
  | O => None
  | S fuel' =>
      match s with
      | [] => None
      | 93%N :: s' => Some ([], s')
      | c :: s1 =>
          let first :=
            if N.eqb c 92
            then match s1 with
                 | e :: s2 => Some (escape_item e, s2)
                 | [] => None
                 end
            else Some (SChar c, s1) in
          match first with
          | None => None
          | Some (i, s2) =>
              match item_char i, s2 with
              | Some lo, 45%N :: hi :: s3 =>
                  if N.eqb hi 93
                  then match parse_items fuel' s2 with
                       | Some (its, r) => Some (i :: its, r)
                       | None => None
                       end
                  else match parse_items fuel' s3 with
                       | Some (its, r) => Some (SRange lo hi :: its, r)
                       | None => None
                       end
              | _, _ =>
                  match parse_items fuel' s2 with
                  | Some (its, r) => Some (i :: its, r)
                  | None => None
                  end
              end
          end
      end
  end.

(** A quantifier after an atom, if there is one. *)
Definition parse_quant (r : re) (s : str) : re * str :=
  let lazy (lo : nat) (hi : option nat) (rest : str) :=
    match rest with
    | 63%N :: rest' => (RRep false lo hi r, rest')
    | _ => (RRep true lo hi r, rest)
    end in
  match s with
  | 42%N :: s' => lazy 0 None s'
  | 43%N :: s' => lazy 1 None s'
  | 63%N :: s' => lazy 0 (Some 1) s'
  | 123%N :: s' =>
      let '(lo, s1) := parse_nat 0 s' in
      match s1 with
      | 125%N :: s2 => lazy lo (Some lo) s2
      | 44%N :: 125%N :: s2 => lazy lo None s2
      | 44%N :: s2 =>
          let '(hi, s3) := parse_nat 0 s2 in
          match s3 with
          | 125%N :: s4 => lazy lo (Some hi) s4
          | _ => (r, s)
          end
      | _ => (r, s)
      end
  | _ => (r, s)
  end.

(** [parse_alt] reads alternatives up to a closing parenthesis or the
    end; the [nat] threaded through numbers the capturing groups in
    the order of their opening parentheses. *)
Fixpoint parse_alt (fuel : nat) (s : str) (g : nat)
  : option (re * str * nat) :=
  match fuel with
  | O => None
  | S fuel' =>
      match parse_seq fuel' s g with
      | Some (r1, 124%N :: s1, g1) =>
          match parse_alt fuel' s1 g1 with
          | Some (r2, s2, g2) => Some (RAlt r1 r2, s2, g2)
          | None => None
          end
      | other => other
      end
  end
with parse_seq (fuel : nat) (s : str) (g : nat)
  : option (re * str * nat) :=
  match fuel with
  | O => None
  | S fuel' =>
      match s with
      | [] => Some (REmpty, s, g)
      | 41%N :: _ => Some (REmpty, s, g)
      | 124%N :: _ => Some (REmpty, s, g)
      | _ =>
          match parse_atom fuel' s g with
          | Some (a, s1, g1) =>
              let '(q, s2) := parse_quant a s1 in
              match parse_seq fuel' s2 g1 with
              | Some (REmpty, s3, g3) => Some (q, s3, g3)
              | Some (r, s3, g3) => Some (RCat q r, s3, g3)
              | None => None
              end
          | None => None
          end
      end
  end
with parse_atom (fuel : nat) (s : str) (g : nat)
  : option (re * str * nat) :=
  match fuel with
  | O => None
  | S fuel' =>
      match s with
      | [] => None
      | 40%N :: 63%N :: 58%N :: s1 =>
          match parse_alt fuel' s1 g with
          | Some (r, 41%N :: s2, g2) => Some (r, s2, g2)
          | _ => None
          end
      | 40%N :: s1 =>
          match parse_alt fuel' s1 (S g) with
          | Some (r, 41%N :: s2, g2) => Some (RGroup (S g) r, s2, g2)
          | _ => None
          end
      | 91%N :: 94%N :: s1 =>
          match parse_items (List.length s1) s1 with
          | Some (its, s2) => Some (RSet true its, s2, g)
          | None => None
          end
      | 91%N :: s1 =>
          match parse_items (List.length s1) s1 with
          | Some (its, s2) => Some (RSet false its, s2, g)
          | None => None
          end
      | 46%N :: s1 => Some (RAny, s1, g)
      | 92%N :: e :: s1 => Some (escape_re e, s1, g)
      | 92%N :: [] => None
      | c :: s1 => Some (RChar c, s1, g)
      end
  end.

Definition parse (p : string) : option re :=
  let s := utf8 p in
  match parse_alt (3 * List.length s + 3) s 0 with
  | Some (r, [], _) => Some r
  | _ => None
  end.

(** A pattern that fails to parse matches nothing; [patterns_parse]
    below checks that no pattern of the views is in that case. *)
Definition never : re := RSet false [].

Definition pattern (p : string) : re :=
  match parse p with Some r => r | None => never end.

(** *** Matching *)

(** Where the matcher stands in the subject: the index reached and
    the text from there on. *)
Record cursor := { pos : nat; rest : str }.

Definition advance (cur : cursor) : option (N * cursor) :=
  match rest cur with
  | c :: s => Some (c, {| pos := S (pos cur); rest := s |})
  | [] => None
  end.

(** Captured groups, most recent first. *)
Definition captures := list (nat * str).

Record match_obj := {
  m_start : nat;
  m_end : nat;
  m_groups : captures
}.

Fixpoint lookup_group (n : nat) (cs : captures) : option str :=
  match cs with
  | [] => None
  | (i, s) :: cs' => if Nat.eqb i n then Some s else lookup_group n cs'
  end.

Section Matcher.
Context {rt : Runtime}.
Variable fl : flags.

Definition char_eq (p c : N) : bool :=
  if ignorecase fl then fold_eq p c else N.eqb p c.

Definition in_range (lo hi c : N) : bool :=
  (N.leb lo c && N.leb c hi)
  || (ignorecase fl
      && existsb (fun k => fold_eq (lo + N.of_nat k) c)
           (seq 0 (S (N.to_nat hi - N.to_nat lo)))).

Definition item_matches (i : set_item) (c : N) : bool :=
  match i with
  | SChar p => char_eq p c
  | SRange lo hi => in_range lo hi c
  | SDigit => is_decimal c
  | SSpace => is_space c
  | SWord => is_word c
  end.

(** Whether a one-character pattern accepts [c]; [None] for the
    patterns that are not one-character. *)
Definition accepts (r : re) (c : N) : option bool :=
  match r with
  | RChar p => Some (char_eq p c)
  | RAny => Some (dotall fl || negb (N.eqb c LF))
  | RDigit => Some (is_decimal c)
  | RSpace => Some (is_space c)
  | RWord => Some (is_word c)
  | RSet neg items =>
      Some (xorb neg (existsb (fun i => item_matches i c) items))
  | _ => None
  end.

Definition step (r : re) (cur : cursor) : option cursor :=
  match advance cur with
  | Some (c, cur') =>
      match accepts r c with
      | Some true => Some cur'
      | _ => None
      end
  | None => None
  end.

Definition below (n : nat) (hi : option nat) : bool :=
  match hi with
  | Some h => Nat.ltb n h
  | None => true
  end.

(** The iterations of a quantifier whose body is matched by [body]:
    [n] iterations are done; one more is tried first when the
    quantifier is greedy, stopping is tried first when it is lazy.  An
    iteration that consumes nothing once the minimum is reached is not
    repeated.  [fuel] bounds the number of iterations; the minimum plus
    the length of the text left is enough. *)
Definition rep_loop {A}
           (body : cursor -> captures ->
                   (cursor -> captures -> option A) -> option A)
           (greedy : bool) (lo : nat) (hi : option nat)
           (k : cursor -> captures -> option A)
  : nat -> nat -> cursor -> captures -> option A :=
  fix loop (fuel n : nat) (cur : cursor) (cs : captures) {struct fuel}
    : option A :=
    match fuel with
    | O => None
    | S fuel' =>
        let more (_ : unit) :=
          if below n hi then
            body cur cs
              (fun cur' cs' =>
                 if Nat.eqb (pos cur') (pos cur) && Nat.leb lo n
                 then None
                 else loop fuel' (S n) cur' cs')
          else None in
        let stop (_ : unit) :=
          if Nat.leb lo n then k cur cs else None in
        if greedy
        then match more tt with
             | Some a => Some a
             | None => stop tt
             end
        else match stop tt with
             | Some a => Some a
             | None => more tt
             end
    end.

(** [run r cur cs k]: match [r] at [cur], then hand the position
    reached and the groups to the continuation [k]; when [k] fails
    the next alternative of [r] is tried, in Python's order: the
    left branch of [|] first, then the right one, and the iterations
    of a quantifier as [rep_loop] orders them. *)
Fixpoint run {A} (r : re) (cur : cursor) (cs : captures)
         (k : cursor -> captures -> option A) {struct r} : option A :=
  match r with
  | REmpty => k cur cs
  | RCat r1 r2 => run r1 cur cs (fun cur' cs' => run r2 cur' cs' k)
  | RAlt r1 r2 =>
      match run r1 cur cs k with
      | Some a => Some a
      | None => run r2 cur cs k
      end
  | RGroup idx r1 =>
      run r1 cur cs
        (fun cur' cs' =>
           k cur' ((idx, take (pos cur' - pos cur) (rest cur)) :: cs'))
  | RRep greedy lo hi r1 =>
      rep_loop (run r1) greedy lo hi k
               (S (lo + List.length (rest cur))) 0 cur cs
  | _ =>
      match step r cur with
      | Some cur' => k cur' cs
      | None => None
      end
  end.

Definition match_at (r : re) (cur : cursor) : option match_obj :=
  run r cur []
    (fun cur' cs =>
       Some {| m_start := pos cur; m_end := pos cur'; m_groups := cs |}).

(** The leftmost match at or after [cur]. *)
Fixpoint scan (r : re) (fuel : nat) (cur : cursor) : option match_obj :=
  match match_at r cur with
  | Some m => Some m
  | None =>
      match fuel, advance cur with
      | S fuel', Some (_, cur') => scan r fuel' cur'
      | _, _ => None
      end
  end.

Definition start_of (s : str) : cursor := {| pos := 0; rest := s |}.

(** [re.search(p, s, flags)] *)
Definition search (r : re) (s : str) : option match_obj :=
  scan r (List.length s) (start_of s).

(** [re.match(p, s, flags)] *)
Definition match_ (r : re) (s : str) : option match_obj :=
  match_at r (start_of s).

(** [re.finditer(p, s, flags)]: successive non-overlapping matches.
    After an empty match the scan resumes one character further. *)
Fixpoint finditer_from (r : re) (fuel : nat) (cur : cursor)
  : list match_obj :=
  match fuel with
  | O => []
  | S fuel' =>
      match scan r (List.length (rest cur)) cur with
      | None => []
      | Some m =>
          let after := drop (m_end m - pos cur) (rest cur) in
          if Nat.eqb (m_end m) (m_start m)
          then match after with
               | [] => [m]
               | _ :: s' =>
                   m :: finditer_from r fuel'
                          {| pos := S (m_end m); rest := s' |}
               end
          else m :: finditer_from r fuel'
                      {| pos := m_end m; rest := after |}
      end
  end.

Definition finditer (r : re) (s : str) : list match_obj :=
  finditer_from r (S (List.length s)) (start_of s).

(** [m.group(n)] for a group that took part in the match. *)
Definition group (m : match_obj) (n : nat) : option str :=
  lookup_group n (m_groups m).

(** [re.findall(p, s)] for a pattern with one group: the text of
    that group in every match ([''] where it took no part). *)
Definition findall (r : re) (s : str) : list str :=
  map (fun m => match group m 1 with Some g => g | None => [] end)
      (finditer r s).

(** [re.sub(p, repl, s)] for a replacement without back-references. *)
Fixpoint sub_from (ms : list match_obj) (repl : str) (i : nat) (s : str)
  : str :=
  match ms with
  | [] => s
  | m :: ms' =>
      take (m_start m - i) s ++ repl
      ++ sub_from ms' repl (m_end m) (drop (m_end m - i) s)
  end.

Definition sub (r : re) (repl : str) (s : str) : str :=
  sub_from (finditer r s) repl 0 s.

End Matcher.

End Re.

(* ================================================================== *)
(** ** Numbers *)

Module PyNum.

(** A Python [float] is an IEEE 754 binary64 number. *)
Definition prec : Z := 53.
Definition emax : Z := 1024.
Definition float := spec_float.

(** The binary64 number nearest to [p/q] (ties to even), negated when
    [neg]: the quotient is taken with more than 60 bits and a sticky
    bit, then rounded once. *)
Definition nearest (neg : bool) (p q : positive) : float :=
  let s := Z.max 0 (Z.log2 (Zpos q) - Z.log2 (Zpos p) + 64) in
  let n := (Zpos p * 2 ^ s)%Z in
  let quo := (n / Zpos q)%Z in
  let sticky := if (n mod Zpos q =? 0)%Z then 0%Z else 1%Z in
  let m := (2 * quo + sticky)%Z in
  binary_normalize prec emax (if neg then (- m)%Z else m) (- (s + 1)) false.

(** The float a decimal literal [m * 10^-k] denotes, which is also
    what [float()] returns for its text. *)
Definition of_decimal (neg : bool) (m : Z) (k : nat) : float :=
  match m with
  | Zpos p => nearest neg p (Z.to_pos (10 ^ Z.of_nat k))
  | _ => S754_zero neg
  end.

Definition fadd : float -> float -> float := SFadd prec emax.
Definition fdiv : float -> float -> float := SFdiv prec emax.

(** [float(n)] of an [int] literal of the source. *)
Definition of_int (n : Z) : float := binary_normalize prec emax n 0 false.

Definition half_even (n d : Z) : Z :=
  let q := (n / d)%Z in
  let r := (n mod d)%Z in
  match (2 * r ?= d)%Z with
  | Lt => q
  | Gt => (q + 1)%Z
  | Eq => if Z.even q then q else (q + 1)%Z
  end.

(** [round(x, 2)]: the exact value of [x] is rounded to two decimal
    places, ties to even, and the decimal obtained is converted back. *)
Definition round2 (x : float) : float :=
  match x with
  | S754_finite sg m e =>
      let n := match e with
               | Zneg k => half_even (100 * Zpos m) (2 ^ Zpos k)
               | _ => (100 * Zpos m * 2 ^ e)%Z
               end in
      of_decimal sg n 2
  | other => other
  end.

Section Parsing.
Context {rt : Runtime}.

Fixpoint span_decimal (s : str) : str * str :=
  match s with
  | c :: s' =>
      if is_decimal c
      then let '(d, r) := span_decimal s' in (c :: d, r)
      else ([], s)
  | [] => ([], [])
  end.

Definition digits_value (ds : str) : Z :=
  fold_left (fun acc c => (10 * acc + decimal_value c)%Z) ds 0%Z.

(** [int(s)] for the texts the views pass to it, runs of decimal
    digits: the value, or [ValueError] for a run longer than the
    interpreter's limit, and for anything that is not a run of
    digits.  (Signs, underscores and surrounding blanks, which
    [int()] also accepts, cannot occur in a capture of [\d+].) *)
Definition py_int (s : str) : exc Z :=
  let '(ds, r) := span_decimal s in
  match ds, r with
  | _ :: _, [] =>
      if Nat.ltb 0 int_max_str_digits
         && Nat.ltb int_max_str_digits (List.length ds)
      then Raise ValueError
      else Ret (digits_value ds)
  | _, _ => Raise ValueError
  end.

(** [float(s)] for the texts the views pass to it, which are made
    of digits, points and at most a leading sign: an optional sign,
    digits, an optional point, digits, with at least one digit;
    [ValueError] otherwise.  (Exponents, [inf], [nan], underscores
    and surrounding blanks, which [float()] also accepts, cannot
    occur in a capture of the digit-comma-point classes.) *)
Definition py_float (s : str) : exc float :=
  let '(neg, body) :=
    match s with
    | 45%N :: r => (true, r)
    | 43%N :: r => (false, r)
    | _ => (false, s)
    end in
  let '(ip, r1) := span_decimal body in
  let '(fp, r2) :=
    match r1 with
    | 46%N :: r => span_decimal r
    | _ => ([], r1)
    end in
  match r2, ip ++ fp with
  | [], _ :: _ =>
      Ret (of_decimal neg (digits_value (ip ++ fp)) (List.length fp))
  | _, _ => Raise ValueError
  end.

Definition strip (s : str) : str := strip_by is_space s.

End Parsing.

End PyNum.

(* ================================================================== *)
(** ** Dates *)

Module PyDate.

Record date := { year : Z; month : Z; day : Z }.

Definition is_leap (y : Z) : bool :=
  ((y mod 4 =? 0) && (negb (y mod 100 =? 0) || (y mod 400 =? 0)))%Z.

Definition days_in_month (y m : Z) : Z :=
  if (m =? 2)%Z then (if is_leap y then 29 else 28)%Z
  else if ((m =? 4) || (m =? 6) || (m =? 9) || (m =? 11))%Z then 30%Z
  else 31%Z.

Definition str_of_Z (z : Z) : str :=
  bytes_of (NilEmpty.string_of_uint (N.to_uint (Z.to_N z))).

Section Parsing.
Context {rt : Runtime}.

(** [d.strftime("%Y-%m-%d")] *)
Definition strftime_ymd (d : date) : str :=
  zfill year_width (str_of_Z (year d)) ++ [45%N]
  ++ zfill 2 (str_of_Z (month d)) ++ [45%N]
  ++ zfill 2 (str_of_Z (day d)).

(** The expression [_strptime] compiles the format ["%d/%m/%Y"]
    into; it is matched with [re.IGNORECASE]. *)
Definition dmy_format : Re.re :=
  Re.pattern
    "(3[0-1]|[1-2]\d|0[1-9]|[1-9]| [1-9])/(1[0-2]|0[1-9]|[1-9])/(\d\d\d\d)".

(** [datetime.strptime(s, "%d/%m/%Y")]: the text must match the
    format to its end and name a day that exists; every failure is a
    [ValueError]. *)
Definition strptime_dmy (s : str) : exc date :=
  match Re.match_ Re.IGNORECASE dmy_format s with
  | None => Raise ValueError
  | Some m =>
      if negb (Nat.eqb (Re.m_end m) (List.length s)) then Raise ValueError
      else
        match Re.group m 1, Re.group m 2, Re.group m 3 with
        | Some d, Some mo, Some y =>
            let dd := PyNum.digits_value (PyNum.strip d) in
            let mm := PyNum.digits_value mo in
            let yy := PyNum.digits_value y in
            if ((1 <=? yy) && (1 <=? dd) && (dd <=? days_in_month yy mm))%Z
            then Ret {| year := yy; month := mm; day := dd |}
            else Raise ValueError
        | _, _, _ => Raise ValueError
        end
  end.

End Parsing.

End PyDate.

(* ================================================================== *)
(** ** JSON values *)

Module Json.

(** The values the extractors put in their dictionaries.  A [dict]
    keeps its items in insertion order. *)
Inductive value :=
| VNone
| VInt (z : Z)
| VFloat (f : PyNum.float)
| VStr (s : str)
| VDict (items : list (str * value)).

Definition of_option (o : option str) : value :=
  match o with Some s => VStr s | None => VNone end.

Fixpoint assoc (k : str) (items : list (str * value)) : option value :=
  match items with
  | [] => None
  | (k', v) :: items' => if str_eqb k k' then Some v else assoc k items'
  end.

(** [d[k]] / [d.get(k)] *)
Definition get (k : string) (d : value) : option value :=
  match d with
  | VDict items => assoc (utf8 k) items
  | _ => None
  end.

(** [k in d] *)
Definition has_key (k : string) (d : value) : bool :=
  match get k d with Some _ => true | None => false end.

Definition keys (d : value) : list str :=
  match d with
  | VDict items => map fst items
  | _ => []
  end.

(** The dictionary [{"error": msg}] every failure path returns. *)
Definition error_dict (msg : string) : value :=
  VDict [(utf8 "error", VStr (utf8 msg))].

(** The common shape of the extracted records. *)
Definition invoice_record
           (nombre_cliente numero_referencia fecha_emision
            inicio fin dias forma_pago fecha_cargo mandato
            costo_potencia costo_energia descuentos impuestos total_a_pagar
            consumo_punta consumo_valle consumo_total
            precio_efectivo_energia : value) : value :=
  VDict [
    (utf8 "nombre_cliente", nombre_cliente);
    (utf8 "numero_referencia", numero_referencia);
    (utf8 "fecha_emision", fecha_emision);
    (utf8 "periodo_facturacion", VDict [
       (utf8 "inicio", inicio);
       (utf8 "fin", fin);
       (utf8 "dias", dias)]);
    (utf8 "forma_pago", forma_pago);
    (utf8 "fecha_cargo", fecha_cargo);
    (utf8 "mandato", mandato);
    (utf8 "desglose_cargos", VDict [
       (utf8 "costo_potencia", costo_potencia);
       (utf8 "costo_energia", costo_energia);
       (utf8 "descuentos", descuentos);
       (utf8 "impuestos", impuestos);
       (utf8 "total_a_pagar", total_a_pagar)]);
    (utf8 "detalles_consumo", VDict [
       (utf8 "consumo_punta", consumo_punta);
       (utf8 "consumo_valle", consumo_valle);
       (utf8 "consumo_total", consumo_total);
       (utf8 "precio_efectivo_energia", precio_efectivo_energia)])
  ].

(** [d[k1][k2]] *)
Definition get2 (k1 k2 : string) (d : value) : option value :=
  match get k1 d with
  | Some inner => get k2 inner
  | None => None
  end.

End Json.
Export Json.

(* ================================================================== *)
(** ** Helpers shared by the extractors *)

Module Common.
Section Common.
Context {rt : Runtime}.

Definition re_search (fl : Re.flags) (p : string) (s : str)
  : option Re.match_obj :=
  Re.search fl (Re.pattern p) s.

(** [m.group(n)] used as the receiver of a method call
    ([.strip()], [.replace()]): [None] there is an
    [AttributeError]. *)
Definition group_recv (m : Re.match_obj) (n : nat) : exc str :=
  match Re.group m n with
  | Some g => Ret g
  | None => Raise AttributeError
  end.

(** [m.group(n)] passed to [int], [float] or [strptime]: [None]
    there is a [TypeError]. *)
Definition group_arg (m : Re.match_obj) (n : nat) : exc str :=
  match Re.group m n with
  | Some g => Ret g
  | None => Raise TypeError
  end.

(** [m.group(n).strip()] *)
Definition group_strip (m : Re.match_obj) (n : nat) : exc str :=
  g <- group_recv m n ;; Ret (PyNum.strip g).

(** [dia, mes_texto, anio = m.groups()] followed by
    [mes_texto.lower()] *)
Definition groups3 (m : Re.match_obj) : exc (str * str * str) :=
  match Re.group m 1, Re.group m 2, Re.group m 3 with
  | Some a, Some b, Some c => Ret (a, b, c)
  | _, _, _ => Raise AttributeError
  end.

(** The dictionary [meses], which every extractor repeats. *)
Definition meses : list (string * string) := [
  ("enero", "01"); ("febrero", "02"); ("marzo", "03"); ("abril", "04");
  ("mayo", "05"); ("junio", "06"); ("julio", "07"); ("agosto", "08");
  ("septiembre", "09"); ("octubre", "10"); ("noviembre", "11");
  ("diciembre", "12")
]%string.

(** [meses.get(k)] *)
Fixpoint lookup (k : str) (d : list (string * string)) : option str :=
  match d with
  | [] => None
  | (name, num) :: d' =>
      if str_eqb k (utf8 name) then Some (utf8 num) else lookup k d'
  end.

Definition meses_get (k : str) : option str := lookup k meses.

(** [f"{anio}-{mes}-{dia.zfill(2)}"] *)
Definition ymd (anio mes dia : str) : str :=
  anio ++ [45%N] ++ mes ++ [45%N] ++ zfill 2 dia.

(** [datetime.strptime(s, "%d/%m/%Y").strftime("%Y-%m-%d")] *)
Definition reformat_dmy (s : str) : exc str :=
  d <- PyDate.strptime_dmy s ;; Ret (PyDate.strftime_ymd d).

(** [float(s.replace(".", "").replace(",", "."))]: the Spanish
    convention, points for thousands and a decimal comma. *)
Definition normalize_es (s : str) : str :=
  replace 44 [46%N] (replace 46 [] s).

Definition float_es (s : str) : exc PyNum.float :=
  PyNum.py_float (normalize_es s).

(** [float(s.replace(",", "."))]: a decimal comma and no thousands
    separator. *)
Definition normalize_comma (s : str) : str := replace 44 [46%N] s.

Definition float_comma (s : str) : exc PyNum.float :=
  PyNum.py_float (normalize_comma s).

Definition last_opt (l : list str) : option str :=
  match rev l with x :: _ => Some x | [] => None end.

End Common.
End Common.
Export Common.

(* ================================================================== *)
(** ** [extract_endesa_data]

    Each field of the record is computed by its own statement of the
    method; a definition per statement, named as the variable it
    assigns.  [normalized_text] is [re.sub(r"\s+", " ", ocr_text)]. *)

Module Endesa.
Section Endesa.
Context {rt : Runtime}.

Definition normalize_text (ocr_text : str) : str :=
  Re.sub Re.no_flags (Re.pattern "\s+") (utf8 " ") ocr_text.

Definition format_date_to_yyyy_mm_dd (date_str : str) : exc value :=
  try_ValueError
    (d <- reformat_dmy date_str ;; Ret (VStr d))
    (Ret VNone).

Definition format_date_with_month_name (date_match : Re.match_obj)
  : exc value :=
  try_ValueError_AttributeError
    ('(dia, mes_texto, anio) <- groups3 date_match ;;
     match meses_get (str_lower mes_texto) with
     | Some mes => Ret (VStr (ymd anio mes dia))
     | None => Ret VNone
     end)
    (Ret VNone).

Definition nombre_cliente (ocr_text : str) : exc value :=
  match re_search Re.IGNORECASE
          "Titular del contrato:\s*(.*?)\s*\n\nCUPS:" ocr_text with
  | Some m => g <- group_strip m 1 ;; Ret (VStr g)
  | None => Ret VNone
  end.

Definition numero_referencia (normalized_text : str) : exc value :=
  match re_search Re.no_flags "Referencia:\s*([\w\/-]+)"
          normalized_text with
  | Some m => g <- group_strip m 1 ;; Ret (VStr g)
  | None => Ret VNone
  end.

Definition fecha_emision (normalized_text : str) : exc value :=
  match re_search Re.IGNORECASE
          "Fecha emisión factur[a|:]*\s*(\d{2}/\d{2}/\d{4})"
          normalized_text with
  | Some m => g <- group_arg m 1 ;; format_date_to_yyyy_mm_dd g
  | None => Ret VNone
  end.

Definition periodo_inicio (normalized_text : str) : exc value :=
  match re_search Re.no_flags
          "Periodo de facturación: del\s*(\d{2}/\d{2}/\d{4})"
          normalized_text with
  | Some m => g <- group_arg m 1 ;; format_date_to_yyyy_mm_dd g
  | None => Ret VNone
  end.

Definition periodo_fin (normalized_text : str) : exc value :=
  match re_search Re.no_flags "a\s*(\d{2}/\d{2}/\d{4})"
          normalized_text with
  | Some m => g <- group_arg m 1 ;; format_date_to_yyyy_mm_dd g
  | None => Ret VNone
  end.

Definition dias (normalized_text : str) : exc value :=
  match re_search Re.no_flags "\((\d+)\s*días\)" normalized_text with
  | Some m => g <- group_arg m 1 ;; n <- PyNum.py_int g ;; Ret (VInt n)
  | None => Ret VNone
  end.

Definition fecha_cargo (normalized_text : str) : exc value :=
  match re_search Re.no_flags
          "Fecha de cargo:\s*(\d{2})\s*de\s*(\w+)\s*de\s*(\d{4})"
          normalized_text with
  | Some m => format_date_with_month_name m
  | None => Ret VNone
  end.

Definition mandato (normalized_text : str) : exc value :=
  match re_search Re.no_flags "Cod\.?Mandato:\s*(\w+)"
          normalized_text with
  | Some m => g <- group_strip m 1 ;; Ret (VStr g)
  | None => Ret VNone
  end.

(** The five amounts of [desglose_cargos] share one statement shape:
    [float(m.group(1).replace(".", "").replace(",", ".")) if m else None]. *)
Definition amount (p : string) (normalized_text : str) : exc value :=
  match re_search Re.no_flags p normalized_text with
  | Some m => g <- group_recv m 1 ;; f <- float_es g ;; Ret (VFloat f)
  | None => Ret VNone
  end.

Definition costo_potencia : str -> exc value :=
  amount "Potencia.*? (\d{1,3}(?:\.\d{3})*,\d{2}) €".
Definition costo_energia : str -> exc value :=
  amount "Energía\s+(\d{1,3}(?:\.\d{3})*,\d{2})".
Definition descuentos : str -> exc value :=
  amount "Descuentos.*? (-?\d{1,3}(?:\.\d{3})*,\d{2}) €".
Definition impuestos : str -> exc value :=
  amount "Impuestos.*? (\d{1,3}(?:\.\d{3})*,\d{2}) €".
Definition total_a_pagar : str -> exc value :=
  amount "Total.*? (\d{1,3}(?:\.\d{3})*,\d{2}) €".

Definition numbers (s : str) : list str :=
  Re.findall Re.no_flags (Re.pattern "(\d{1,3}(?:\.\d{3})*,\d{2})") s.

(** The number before the word [llano]; the index is found in the
    lowered text and applied to [normalized_text]. *)
Definition consumo_punta (normalized_text : str) : exc value :=
  try_Exception
    (match find (utf8 "llano") (str_lower normalized_text) with
     | Some llano_position =>
         let text_before_llano := take llano_position normalized_text in
         match last_opt (numbers text_before_llano) with
         | Some n => f <- float_es n ;; Ret (VFloat f)
         | None => Ret VNone
         end
     | None => Ret VNone
     end)
    (fun _ => Ret VNone).

(** The third number from the end before the sixth [potencia]. *)
Definition consumo_valle (normalized_text : str) : exc value :=
  try_Exception
    (let potencia_positions :=
       map Re.m_start
           (Re.finditer Re.no_flags (Re.pattern "potencia")
                        (str_lower normalized_text)) in
     if Nat.leb 6 (List.length potencia_positions) then
       let text_before_sixth_potencia :=
         take (nth 5 potencia_positions 0) normalized_text in
       let numeros := numbers text_before_sixth_potencia in
       if Nat.leb 3 (List.length numeros) then
         f <- float_es (nth (List.length numeros - 3) numeros []) ;;
         Ret (VFloat f)
       else Ret VNone
     else Ret VNone)
    (fun _ => Ret VNone).

(** The literal the method assigns to [ocr_text] before it computes
    [consumo_total]. *)
Definition consumo_total_text : str :=
  utf8 "
            Consumo Total

            1,112,537 kWh
            ".

(** [consumo_total], from whatever text [ocr_text] is bound to when
    the statement runs. *)
Definition consumo_total (ocr_text : str) : exc value :=
  match re_search Re.no_flags
          "Consumo Total\s*\n\n\s*(\d{1,3}(?:,\d{3})+)" ocr_text with
  | Some m =>
      g <- group_recv m 1 ;;
      let digits := replace 44 [] g in
      f <- PyNum.py_float (drop_last 3 digits ++ [46%N] ++ take_last 3 digits) ;;
      Ret (VFloat f)
  | None => Ret VNone
  end.

Definition precio_efectivo_energia (normalized_text : str) : exc value :=
  match re_search Re.no_flags "ha salido a\s*([\d,\.]+) €/kWh"
          normalized_text with
  | Some m => g <- group_recv m 1 ;; f <- float_comma g ;; Ret (VFloat f)
  | None => Ret VNone
  end.

Definition forma_pago (normalized_text : str) : exc value :=
  match re_search Re.IGNORECASE "Forma de pago:\s*([^\d\n]*)"
          normalized_text with
  | Some m => g <- group_strip m 1 ;; Ret (VStr g)
  | None => Ret VNone
  end.

(** The body of the method, in statement order.  [rebound] is the
    text [ocr_text] is bound to from the assignment that precedes
    the [consumo_total] statement on. *)
Definition body_with (rebound : str) (ocr_text : str) : exc value :=
  let normalized_text := normalize_text ocr_text in
  v_nombre <- nombre_cliente ocr_text ;;
  v_referencia <- numero_referencia normalized_text ;;
  v_emision <- fecha_emision normalized_text ;;
  v_inicio <- periodo_inicio normalized_text ;;
  v_fin <- periodo_fin normalized_text ;;
  v_dias <- dias normalized_text ;;
  v_cargo <- fecha_cargo normalized_text ;;
  v_mandato <- mandato normalized_text ;;
  v_potencia <- costo_potencia normalized_text ;;
  v_energia <- costo_energia normalized_text ;;
  v_descuentos <- descuentos normalized_text ;;
  v_impuestos <- impuestos normalized_text ;;
  v_total <- total_a_pagar normalized_text ;;
  v_punta <- consumo_punta normalized_text ;;
  v_valle <- consumo_valle normalized_text ;;
  let ocr_text := rebound in
  v_consumo <- consumo_total ocr_text ;;
  v_precio <- precio_efectivo_energia normalized_text ;;
  v_pago <- forma_pago normalized_text ;;
  Ret (invoice_record v_nombre v_referencia v_emision v_inicio v_fin
         v_dias v_pago v_cargo v_mandato v_potencia v_energia
         v_descuentos v_impuestos v_total v_punta v_valle v_consumo
         v_precio).

Definition error_message : string :=
  "Error al convertir OCR a JSON para Endesa.".

Definition extract_endesa_data (ocr_text : str) : exc value :=
  try_Exception
    (body_with consumo_total_text ocr_text)
    (fun _ => Ret (error_dict error_message)).

End Endesa.
End Endesa.

(* ================================================================== *)
(** ** [extract_iberdrola_data] *)

Module Iberdrola.
Section Iberdrola.
Context {rt : Runtime}.

Definition nombre_cliente (ocr_text : str) : exc value :=
  match re_search Re.no_flags "(?:\n)([A-Z\s]+)\n.*Potencia punta"
          ocr_text with
  | Some m => g <- group_strip m 1 ;; Ret (VStr g)
  | None => Ret VNone
  end.

Definition numero_referencia (ocr_text : str) : exc value :=
  match re_search Re.no_flags "N\* DE CONTRATO:\s*([\d]+)" ocr_text with
  | Some m => g <- group_strip m 1 ;; Ret (VStr g)
  | None => Ret VNone
  end.

Definition fecha_emision (ocr_text : str) : exc value :=
  match re_search Re.DOTALL
          "FECHA DE EMISIÓN:.*?\n\n.*?\n\n(\d{1,2})\s+de\s+(\w+)\s+de\s+(\d{4})"
          ocr_text with
  | Some m =>
      '(dia, mes_texto, anio) <- groups3 m ;;
      match meses_get (str_lower mes_texto) with
      | Some mes_numero => Ret (VStr (ymd anio mes_numero dia))
      | None => Ret VNone
      end
  | None => Ret VNone
  end.

(** [periodo_inicio] and [periodo_fin]: both dates are converted
    under one [try], so one bad date clears both. *)
Definition periodo (ocr_text : str) : exc (value * value) :=
  match re_search Re.DOTALL
          "PERIODO DE FACTURACIÓN.*?\n\n(\d{1,2}/\d{1,2}/\d{4})\s+(\d{1,2}/\d{1,2}/\d{4})"
          ocr_text with
  | Some m =>
      try_ValueError
        (g1 <- group_arg m 1 ;;
         inicio <- reformat_dmy g1 ;;
         g2 <- group_arg m 2 ;;
         fin <- reformat_dmy g2 ;;
         Ret (VStr inicio, VStr fin))
        (Ret (VNone, VNone))
  | None => Ret (VNone, VNone)
  end.

Definition dias (ocr_text : str) : exc value :=
  match re_search Re.DOTALL "FECHA DE EMISIÓN:.*?\n\n.*?\n\n(\d+)"
          ocr_text with
  | Some m => g <- group_arg m 1 ;; n <- PyNum.py_int g ;; Ret (VInt n)
  | None => Ret VNone
  end.

Definition forma_pago (ocr_text : str) : exc value :=
  match re_search Re.no_flags "Forma de pago\s*([^\n]+)" ocr_text with
  | Some m => g <- group_strip m 1 ;; Ret (VStr g)
  | None => Ret VNone
  end.

Definition fecha_cargo (ocr_text : str) : exc value :=
  match re_search Re.no_flags
          "FECHA PREVISTA DE COBRO:\s*(\d{2}/\d{2}/\d{4})" ocr_text with
  | Some m =>
      try_ValueError
        (g <- group_arg m 1 ;; d <- reformat_dmy g ;; Ret (VStr d))
        (Ret VNone)
  | None => Ret VNone
  end.

Definition mandato (ocr_text : str) : exc value :=
  match re_search Re.no_flags "Codigo de mandato\s*([\d]+)" ocr_text with
  | Some m => g <- group_strip m 1 ;; Ret (VStr g)
  | None => Ret VNone
  end.

Definition zero : PyNum.float := S754_zero false.
Definition hundred : PyNum.float := PyNum.of_int 100.

(** A partial power charge: the amount captured before the anchor,
    its decimal point moved two places to the left; [0.0] when the
    pattern does not match or the capture is not a number. *)
Definition partial_charge (p : string) (ocr_text : str)
  : exc PyNum.float :=
  match re_search Re.no_flags p ocr_text with
  | Some m =>
      try_ValueError
        (raw <- group_recv m 1 ;;
         f <- float_comma raw ;;
         Ret (PyNum.fdiv f hundred))
        (Ret zero)
  | None => Ret zero
  end.

Definition costo_punta : str -> exc PyNum.float :=
  partial_charge "([\d,\.]+)\s*€\s*\n\n\s*Valle".
Definition costo_valle : str -> exc PyNum.float :=
  partial_charge "([\d,\.]+)\s*€\s*\n\n\s*Total importe potencia".

(** [round(costo_punta + costo_valle, 2)] *)
Definition costo_potencia (ocr_text : str) : exc value :=
  punta <- costo_punta ocr_text ;;
  valle <- costo_valle ocr_text ;;
  Ret (VFloat (PyNum.round2 (PyNum.fadd punta valle))).

(** An amount captured before or after an anchor, [0.0] when the
    pattern does not match or the capture is not a number. *)
Definition amount (p : string) (ocr_text : str) : exc PyNum.float :=
  match re_search Re.no_flags p ocr_text with
  | Some m =>
      try_ValueError
        (raw <- group_recv m 1 ;; float_comma raw)
        (Ret zero)
  | None => Ret zero
  end.

Definition costo_energia (ocr_text : str) : exc value :=
  f <- amount "([\d,\.]+)\s*€\s*\n\n\s*Energia consumida" ocr_text ;;
  Ret (VFloat f).

Definition descuentos (ocr_text : str) : exc (option PyNum.float) :=
  match re_search Re.no_flags "Descuentos.*?(-?\d{1,3},\d{2}) €"
          ocr_text with
  | Some m => g <- group_recv m 1 ;; f <- float_comma g ;; Ret (Some f)
  | None => Ret None
  end.

(** [descuentos if descuentos else 0]: [None] and a zero float are
    both replaced by the integer 0. *)
Definition descuentos_or_zero (d : option PyNum.float) : value :=
  match d with
  | Some (S754_zero _) => VInt 0
  | Some f => VFloat f
  | None => VInt 0
  end.

Definition impuestos (ocr_text : str) : exc value :=
  v1 <- amount "([\d,\.]+)\s*€\s*\n\n\s*TOTAL ENERGÍA" ocr_text ;;
  v2 <- amount "([\d,\.]+)\s*€\s*\n\n\s*TOTAL IMPORTE FACTURA" ocr_text ;;
  Ret (VFloat (PyNum.fadd v1 v2)).

Definition total_a_pagar (ocr_text : str) : exc value :=
  f <- amount "TOTAL IMPORTE FACTURA\s*\n\n\s*([\d,\.]+)\s*€" ocr_text ;;
  Ret (VFloat f).

(** Here the commas are removed, not replaced, before [float]. *)
Definition consumo_punta (ocr_text : str) : exc value :=
  try_Exception
    (match re_search Re.IGNORECASE
             "desagregados han sido punta:\s*([\d,\.]+)\s*kWh"
             ocr_text with
     | Some m =>
         g <- group_recv m 1 ;;
         f <- PyNum.py_float (replace 46 [46%N] (replace 44 [] g)) ;;
         Ret (VFloat (PyNum.round2 f))
     | None => Ret (VFloat zero)
     end)
    (fun _ => Ret (VFloat zero)).

Definition consumo_valle (ocr_text : str) : exc value :=
  try_Exception
    (match re_search Re.IGNORECASE
             "([\d,\.]+)\s*kWh,\s*\n=4\s*\nLas potencias máximas demandadas"
             ocr_text with
     | Some m => g <- group_recv m 1 ;; f <- float_comma g ;; Ret (VFloat f)
     | None => Ret (VFloat zero)
     end)
    (fun _ => Ret (VFloat zero)).

Definition consumo_total (ocr_text : str) : exc value :=
  match re_search Re.no_flags "(\d{1,3},\d{2})\s*kWh" ocr_text with
  | Some m => g <- group_recv m 1 ;; f <- float_comma g ;; Ret (VFloat f)
  | None => Ret (VInt 0)
  end.

Definition precio_efectivo_energia (ocr_text : str) : exc value :=
  match re_search Re.no_flags "([\d,\.]+)\s*€/kWh" ocr_text with
  | Some m =>
      raw <- group_recv m 1 ;;
      try_ValueError
        (f <- float_comma raw ;; Ret (VFloat f))
        (Ret (VInt 0))
  | None => Ret (VInt 0)
  end.

Definition body (ocr_text : str) : exc value :=
  v_nombre <- nombre_cliente ocr_text ;;
  v_referencia <- numero_referencia ocr_text ;;
  v_emision <- fecha_emision ocr_text ;;
  '(v_inicio, v_fin) <- periodo ocr_text ;;
  v_dias <- dias ocr_text ;;
  v_pago <- forma_pago ocr_text ;;
  v_cargo <- fecha_cargo ocr_text ;;
  v_mandato <- mandato ocr_text ;;
  v_potencia <- costo_potencia ocr_text ;;
  v_energia <- costo_energia ocr_text ;;
  v_descuentos <- descuentos ocr_text ;;
  v_impuestos <- impuestos ocr_text ;;
  v_total <- total_a_pagar ocr_text ;;
  v_punta <- consumo_punta ocr_text ;;
  v_valle <- consumo_valle ocr_text ;;
  v_consumo <- consumo_total ocr_text ;;
  v_precio <- precio_efectivo_energia ocr_text ;;
  Ret (invoice_record v_nombre v_referencia v_emision v_inicio v_fin
         v_dias v_pago v_cargo v_mandato v_potencia v_energia
         (descuentos_or_zero v_descuentos) v_impuestos v_total v_punta
         v_valle v_consumo v_precio).

Definition error_message : string :=
  "Error al convertir OCR a JSON para Iberdrola.".

Definition extract_iberdrola_data (ocr_text : str) : exc value :=
  try_Exception (body ocr_text)
    (fun _ => Ret (error_dict error_message)).

End Iberdrola.
End Iberdrola.

(* ================================================================== *)
(** ** [extract_lidera_data] *)

Module Lidera.
Section Lidera.
Context {rt : Runtime}.

Definition nombre_cliente (ocr_text : str) : exc value :=
  match re_search Re.no_flags "Titular del contrato:\s*(.*?)\n"
          ocr_text with
  | Some m => g <- group_strip m 1 ;; Ret (VStr g)
  | None => Ret VNone
  end.

Definition numero_referencia (ocr_text : str) : exc value :=
  try_Exception
    (match re_search Re.no_flags
             "Referencia del contrato de sumi\n\ntro \(LIDERA COMERCIALIZADORA ENERGIA\):\s*(.+)"
             ocr_text with
     | Some m => g <- group_strip m 1 ;; Ret (VStr g)
     | None => Ret VNone
     end)
    (fun _ => Ret VNone).

(** The date of a text such as [5 de marzo de 2023]. *)
Definition month_name_date (raw_fecha_emision : str) : exc value :=
  match Re.match_ Re.no_flags
          (Re.pattern "(\d{1,2})\s+de\s+(\w+)\s+de\s+(\d{4})")
          raw_fecha_emision with
  | Some m =>
      '(dia, mes_texto, anio) <- groups3 m ;;
      match meses_get (str_lower mes_texto) with
      | Some mes => Ret (VStr (ymd anio mes dia))
      | None => Ret VNone
      end
  | None => Ret VNone
  end.

Definition fecha_emision (ocr_text : str) : exc value :=
  try_Exception
    (match re_search Re.no_flags "Fecha emi\n\nn factura:\s*(.+)"
             ocr_text with
     | Some m =>
         raw_fecha_emision <- group_strip m 1 ;;
         month_name_date raw_fecha_emision
     | None => Ret VNone
     end)
    (fun _ => Ret VNone).

Definition convertir_fecha (fecha_raw : str) : exc value :=
  try_ValueError
    (d <- reformat_dmy fecha_raw ;; Ret (VStr d))
    (Ret VNone).

Definition periodo (ocr_text : str) : exc (value * value) :=
  try_Exception
    (match re_search Re.no_flags
             "Periodo de consumo:\n\nDe\s*(\d{1,2}/\d{1,2}/\d{4})\s*al\s*(\d{1,2}/\d{1,2}/\d{4})"
             ocr_text with
     | Some m =>
         raw_inicio <- group_strip m 1 ;;
         raw_fin <- group_strip m 2 ;;
         inicio <- convertir_fecha raw_inicio ;;
         fin <- convertir_fecha raw_fin ;;
         Ret (inicio, fin)
     | None => Ret (VNone, VNone)
     end)
    (fun _ => Ret (VNone, VNone)).

Definition dias (ocr_text : str) : exc value :=
  try_Exception
    (match re_search Re.no_flags "(\d+)\s+Días" ocr_text with
     | Some m => g <- group_strip m 1 ;; n <- PyNum.py_int g ;; Ret (VInt n)
     | None => Ret VNone
     end)
    (fun _ => Ret VNone).

Definition forma_pago (ocr_text : str) : exc value :=
  try_Exception
    (match re_search Re.no_flags "Forma de pago:\s*(.+)" ocr_text with
     | Some m => g <- group_strip m 1 ;; Ret (VStr g)
     | None => Ret VNone
     end)
    (fun _ => Ret VNone).

Definition fecha_cargo (ocr_text : str) : exc value :=
  try_Exception
    (match re_search Re.no_flags "Fecha de cargo:\n\n(\d{2}/\d{2}/\d{4})"
             ocr_text with
     | Some m => g <- group_arg m 1 ;; d <- reformat_dmy g ;; Ret (VStr d)
     | None => Ret VNone
     end)
    (fun _ => Ret VNone).

Definition zero : PyNum.float := S754_zero false.

(** The values [extract_costo_potencia] collects: the capture of
    every match of the per-day charge pattern in the text that
    follows the heading, those that are not numbers left out. *)
Fixpoint valores (ms : list Re.match_obj) : exc (list PyNum.float) :=
  match ms with
  | [] => Ret []
  | m :: ms' =>
      valor_raw <- group_recv m 1 ;;
      match float_comma valor_raw with
      | Ret valor => vs <- valores ms' ;; Ret (valor :: vs)
      | Raise ValueError => valores ms'
      | Raise e => Raise e
      end
  end.

(** [round(sum(valores), 2)]: [sum] starts from the integer 0 and
    adds from left to right, so the sum of no value is the integer
    0, which [round] leaves an integer. *)
Definition round_sum (vs : list PyNum.float) : value :=
  match vs with
  | [] => VInt 0
  | _ => VFloat (PyNum.round2 (fold_left PyNum.fadd vs zero))
  end.

Definition per_day_charges (ocr_text_after_potencia : str)
  : list Re.match_obj :=
  Re.finditer Re.IGNORECASE
    (Re.pattern "Días.*?[€E]/KW día\n\n([\d,\.]+)")
    ocr_text_after_potencia.

Definition extract_costo_potencia (ocr_text : str) : exc value :=
  try_Exception
    (match re_search Re.IGNORECASE "DETALLE DE LA FACTURA" ocr_text with
     | None => Ret (VFloat zero)
     | Some potencia_section_match =>
         let ocr_text_after_potencia :=
           drop (Re.m_end potencia_section_match) ocr_text in
         vs <- valores (per_day_charges ocr_text_after_potencia) ;;
         Ret (round_sum vs)
     end)
    (fun _ => Ret (VFloat zero)).

Definition impuestos (ocr_text : str) : exc value :=
  match re_search Re.IGNORECASE "Impuesto Electricidad\n\n([\d.,]+)"
          ocr_text with
  | Some m => g <- group_recv m 1 ;; f <- float_comma g ;; Ret (VFloat f)
  | None => Ret (VFloat zero)
  end.

(** [raw.replace(".", "").replace(",", ".") if "," in raw
     else raw.replace(",", "")] *)
Definition normalize_total (raw : str) : str :=
  if contains [44%N] raw then normalize_es raw else replace 44 [] raw.

Definition total_a_pagar (ocr_text : str) : exc value :=
  match re_search Re.IGNORECASE "TOTAL IMPORTE FACTURA\n\n([\d.,]+)"
          ocr_text with
  | Some m =>
      total_a_pagar_raw <- group_recv m 1 ;;
      f <- PyNum.py_float (normalize_total total_a_pagar_raw) ;;
      Ret (VFloat f)
  | None => Ret (VFloat zero)
  end.

Definition body (ocr_text : str) : exc value :=
  v_nombre <- nombre_cliente ocr_text ;;
  v_referencia <- numero_referencia ocr_text ;;
  v_emision <- fecha_emision ocr_text ;;
  '(v_inicio, v_fin) <- periodo ocr_text ;;
  v_dias <- dias ocr_text ;;
  v_pago <- forma_pago ocr_text ;;
  v_cargo <- fecha_cargo ocr_text ;;
  v_impuestos <- impuestos ocr_text ;;
  v_total <- total_a_pagar ocr_text ;;
  v_potencia <- extract_costo_potencia ocr_text ;;
  Ret (invoice_record v_nombre v_referencia v_emision v_inicio v_fin
         v_dias v_pago v_cargo (VStr (utf8 "SIN CODIGO DE MANDATO"))
         v_potencia VNone (VInt 0) v_impuestos v_total (VInt 0)
         (VInt 0) (VInt 0) (VInt 0)).

Definition error_message : string :=
  "Error al convertir OCR a JSON para Lidera Energia.".

Definition extract_lidera_data (ocr_text : str) : exc value :=
  try_Exception (body ocr_text)
    (fun _ => Ret (error_dict error_message)).

End Lidera.
End Lidera.

(* ================================================================== *)
(** ** [extract_naturgy_data] and [extract_edistribucion_data]

    Both methods declare the same local variables as the others, match
    nothing, and return a dictionary of literals. *)

Module Stubs.

Definition placeholder (nombre : string) : value :=
  invoice_record
    (VStr (utf8 nombre)) (VStr (utf8 "XXXXXXXXX"))
    (VStr (utf8 "1990-01-01"))
    (VStr (utf8 "1990-01-01")) (VStr (utf8 "1990-01-01"))
    (VStr (utf8 "00"))
    (VStr (utf8 "teste forma de pago")) (VStr (utf8 "1990-01-01"))
    (VStr (utf8 "XXXXXXXXX"))
    (VInt 0) (VInt 0) (VInt 0) (VInt 0) (VInt 0)
    (VInt 0) (VInt 0) (VInt 0) (VInt 0).

Definition naturgy_record : value := placeholder "NATURGY TESTE".
Definition edistribucion_record : value := placeholder "E-DISTRIBUCIÓN TESTE".

Definition extract_naturgy_data (ocr_text : str) : exc value :=
  try_Exception (Ret naturgy_record)
    (fun _ => Ret (error_dict "Error al convertir OCR a JSON para Naturgy.")).

Definition extract_edistribucion_data (ocr_text : str) : exc value :=
  try_Exception (Ret edistribucion_record)
    (fun _ =>
       Ret (error_dict "Error al convertir OCR a JSON para E-Distribución.")).

End Stubs.

(* ================================================================== *)
(** ** [convert_ocr_to_json] *)

Module Convert.

Inductive vendor := Endesa | Iberdrola | Lidera | Naturgy | EDistribucion.

Definition marker (v : vendor) : str :=
  match v with
  | Endesa => utf8 "endesa"
  | Iberdrola => utf8 "iberdrola"
  | Lidera => utf8 "lidera comercializadora energia"
  | Naturgy => utf8 "naturgy iberia"
  | EDistribucion => utf8 "e-distribución"
  end.

Definition unrecognized : value :=
  error_dict "No se reconoció ninguna comercializadora en el OCR.".

Definition conversion_error : value :=
  error_dict "Error al convertir OCR a JSON.".

Section Convert.
Context {rt : Runtime}.

(** The [if]/[elif] chain of the method; [call v] stands for the
    call of the extraction method of vendor [v]. *)
Definition convert_with (call : vendor -> str -> exc value)
           (ocr_text : str) : exc value :=
  try_Exception
    (if contains (marker Endesa) (str_lower ocr_text)
     then call Endesa ocr_text
     else if contains (marker Iberdrola) (str_lower ocr_text)
     then call Iberdrola ocr_text
     else if contains (marker Lidera) (str_lower ocr_text)
     then call Lidera ocr_text
     else if contains (marker Naturgy) (str_lower ocr_text)
     then call Naturgy ocr_text
     else if contains (marker EDistribucion) (str_lower ocr_text)
     then call EDistribucion ocr_text
     else Ret unrecognized)
    (fun _ => Ret conversion_error).

Definition extractor (v : vendor) : str -> exc value :=
  match v with
  | Endesa => Endesa.extract_endesa_data
  | Iberdrola => Iberdrola.extract_iberdrola_data
  | Lidera => Lidera.extract_lidera_data
  | Naturgy => Stubs.extract_naturgy_data
  | EDistribucion => Stubs.extract_edistribucion_data
  end.

Definition convert_ocr_to_json (ocr_text : str) : exc value :=
  convert_with extractor ocr_text.

End Convert.
End Convert.

(* ================================================================== *)
(** ** [InvoiceProcessView.post] and the stages it sequences *)

Module Pipeline.

(** The libraries and services the view calls, each of which may
    raise: PyMuPDF ([fitz]), OpenCV, Tesseract, Pillow, the Cloudinary
    upload, the ORM and the file system. *)
Class Collaborators := {
  pdf : Type;       (** the uploaded file, saved under its name *)
  page : Type;      (** a page of an opened document *)
  image : Type;     (** PNG bytes of a rendered page *)
  gray : Type;      (** the array OpenCV produces *)
  upload : Type;    (** an [InMemoryUploadedFile] *)
  url : Type;
  (** writing the upload to the temporary folder *)
  store_temp : pdf -> exc unit;
  (** [fitz.open(path)] and the indexing of its pages *)
  fitz_open : pdf -> exc (list page);
  (** [page.get_pixmap(matrix=Matrix(2.0, 2.0)).tobytes("png")] *)
  render : page -> exc image;
  fitz_close : pdf -> exc unit;
  (** decode, grayscale, CLAHE, denoise, sharpen *)
  cv2_enhance : image -> exc gray;
  (** [Image.fromarray] and [image_to_string(lang="spa", --psm 11)] *)
  tesseract : gray -> exc str;
  (** [Image.open], [save(format='PNG')], [InMemoryUploadedFile] *)
  to_png_upload : image -> exc upload;
  process_and_upload_image : upload -> exc url;
  (** [Invoice.objects.create(...)] with the two period dates, the
      record and the image URL *)
  invoice_create : option value -> option value -> value -> option url
                   -> exc unit;
  (** [os.path.exists] and [os.remove] of the temporary file *)
  remove_temp : pdf -> exc unit
}.

Inductive response {C : Collaborators} :=
(** 201, [status: success], with [ocr_text] and [parsed_data] *)
| Created (ocr_text : str) (parsed_data : value)
(** 500, [status: error], with [message] and [details = str(e)] *)
| ServerError (message : string) (details : exn)
(** 400, the serializer rejected the upload *)
| BadRequest.

Section Pipeline.
Context {rt : Runtime} {C : Collaborators}.

Fixpoint render_all (pages : list page) : exc (list image) :=
  match pages with
  | [] => Ret []
  | p :: pages' =>
      image_data <- render p ;;
      images <- render_all pages' ;;
      Ret (image_data :: images)
  end.

(** Any exception of the conversion is logged and an empty list is
    returned in place of the pages. *)
Definition pdf_to_images (pdf_path : pdf) : exc (list image) :=
  try_Exception
    (pdf_document <- fitz_open pdf_path ;;
     images <- render_all pdf_document ;;
     _ <- fitz_close pdf_path ;;
     Ret images)
    (fun _ => Ret []).

Definition process_image (image_data : image) : exc (option gray) :=
  try_Exception
    (sharpened_image <- cv2_enhance image_data ;;
     Ret (Some sharpened_image))
    (fun _ => Ret None).

(** [Image.fromarray(None)] raises, which the method catches as any
    other failure of the recognition. *)
Definition perform_ocr (img : option gray) : exc str :=
  try_Exception
    (match img with
     | Some g => tesseract g
     | None => Raise AttributeError
     end)
    (fun _ => Ret []).

(** The recognized text of one page. *)
Definition page_text (img_data : image) : exc str :=
  grayscale_image <- process_image img_data ;;
  perform_ocr grayscale_image.

(** The loop over [images[:2]], which appends each page's text and
    a newline to [ocr_text_combined]. *)
Fixpoint ocr_loop (pages : list image) (ocr_text_combined : str)
  : exc str :=
  match pages with
  | [] => Ret ocr_text_combined
  | img_data :: pages' =>
      ocr_text <- page_text img_data ;;
      ocr_loop pages' (ocr_text_combined ++ ocr_text ++ [LF])
  end.

Definition combined_text (images : list image) : exc str :=
  ocr_loop (firstn 2 images) [].

(** The upload of the first page; [inr] is the response returned
    from inside the inner [try]. *)
Definition upload_first_page (images : list image)
  : exc (option url + response) :=
  match images with
  | first_page_image :: _ =>
      processed_photo <- to_png_upload first_page_image ;;
      match process_and_upload_image processed_photo with
      | Ret photo_url => Ret (inl (Some photo_url))
      | Raise cloudinary_error =>
          Ret (inr (ServerError "Error al subir la imagen."
                                cloudinary_error))
      end
  | [] => Ret (inl None)
  end.

Definition save_invoice (parsed_data : value) (photo_url : option url)
  : exc (option response) :=
  if negb (has_key "error" parsed_data) then
    match invoice_create
            (get2 "periodo_facturacion" "inicio" parsed_data)
            (get2 "periodo_facturacion" "fin" parsed_data)
            parsed_data photo_url with
    | Ret _ => Ret None
    | Raise db_error =>
        Ret (Some (ServerError
                     "Error al guardar los datos en la base de datos."
                     db_error))
    end
  else Ret None.

(** [post]; [None] is a request the serializer rejects. *)
Definition post (request : option pdf) : response :=
  match request with
  | None => BadRequest
  | Some uploaded_file =>
      let run : exc response :=
        _ <- store_temp uploaded_file ;;
        images <- pdf_to_images uploaded_file ;;
        uploaded <- upload_first_page images ;;
        match uploaded with
        | inr early => Ret early
        | inl photo_url =>
            ocr_text_combined <- combined_text images ;;
            parsed_data <- Convert.convert_ocr_to_json ocr_text_combined ;;
            saved <- save_invoice parsed_data photo_url ;;
            match saved with
            | Some early => Ret early
            | None =>
                _ <- remove_temp uploaded_file ;;
                Ret (Created ocr_text_combined parsed_data)
            end
        end in
      match run with
      | Ret r => r
      | Raise e => ServerError "Error durante el procesamiento." e
      end
  end.

End Pipeline.
End Pipeline.

(* ================================================================== *)
(** ** [InvoiceUploadSerializer.validate_file] *)

Module Serializer.

(** What the validator reads of an uploaded file. *)
Record uploaded := {
  size : Z;
  content_type : str;
  name : str
}.

(** The validator returns the file or raises [ValidationError] with a
    message. *)
Inductive validation :=
| Valid (value : uploaded)
| Invalid (message : str).

(** [5 * 1024 * 1024] *)
Definition max_size : Z := 5 * 1024 * 1024.

(** [s.endswith(p)] *)
Definition ends_with (p s : str) : bool :=
  starts_with (rev p) (rev s).

Section Serializer.
Context {rt : Runtime}.

(** [mimetypes.guess_extension], a table of the platform. *)
Variable guess_extension : str -> option str.

Definition validate_file (value : uploaded) : validation :=
  if (max_size <? size value)%Z then
    Invalid (utf8 "File size exceeds 5 MB.")
  else if negb (str_eqb (content_type value) (utf8 "application/pdf")) then
    Invalid (utf8 "Invalid file type: " ++ content_type value
             ++ utf8 ". Only PDF files are allowed.")
  else
    let ext := guess_extension (content_type value) in
    if match ext with
       | None => true
       | Some [] => true
       | Some e => negb (str_eqb e (utf8 ".pdf"))
       end
    then
      Invalid (utf8 "File extension does not match content type. Only '.pdf' files are allowed.")
    else if negb (ends_with (utf8 ".pdf") (str_lower (name value))) then
      Invalid (utf8 "File name must end with '.pdf'.")
    else Valid value.

End Serializer.
End Serializer.

(* ================================================================== *)
(** ** [InvoiceDetailView.get] and [InvoiceImageView.get] *)

Module InvoiceViews.

(** A row of the [Invoice] table, as far as the two views read it. *)
Record invoice (user : Type) := {
  pk : Z;
  owner : user;
  image_url : option str;
  data : value
}.
Arguments pk {user} _.
Arguments owner {user} _.
Arguments image_url {user} _.
Arguments data {user} _.

Inductive response :=
(** 200 *)
| Ok (body : value)
(** 404 *)
| NotFound (body : value)
(** 500, with [str(e)] *)
| ServerError (message : string) (details : exn).

Section Views.

Variable user : Type.
Variable user_eqb : user -> user -> bool.

(** [Invoice.objects.filter(pk=invoice_id, user=request.user)] over
    the rows of the table. *)
Definition owned_by (rows : list (invoice user)) (invoice_id : Z)
           (request_user : user) : list (invoice user) :=
  filter (fun i => Z.eqb (pk i) invoice_id && user_eqb (owner i) request_user)
         rows.

(** [f"...{invoice_id}..."] *)
Definition id_text (invoice_id : Z) : str := PyDate.str_of_Z invoice_id.

Definition image_not_found (invoice_id : Z) : value :=
  VDict [(utf8 "status", VStr (utf8 "error"));
         (utf8 "message",
          VStr (utf8 "No se encontró una factura con ID "
                ++ id_text invoice_id ++ utf8 "."))].

Definition image_found (i : invoice user) : value :=
  VDict [(utf8 "status", VStr (utf8 "success"));
         (utf8 "image_url", of_option (image_url i))].

(** [InvoiceImageView.get]; [table] is the answer of the database to
    the reading of the table, which may raise. *)
Definition image_get (table : exc (list (invoice user)))
           (request_user : user) (invoice_id : Z) : response :=
  match table with
  | Raise e =>
      ServerError "Ocurrió un error al obtener la imagen de la factura." e
  | Ret rows =>
      match owned_by rows invoice_id request_user with
      | [] => NotFound (image_not_found invoice_id)
      | i :: _ => Ok (image_found i)
      end
  end.

Definition detail_not_found (invoice_id : Z) : value :=
  VDict [(utf8 "error",
          VStr (utf8 "Factura con ID " ++ id_text invoice_id
                ++ utf8 " no encontrada."))].

Definition detail_not_annotated : value :=
  VDict [(utf8 "detail",
          VStr (utf8 "Factura no encontrada después de la anotación."))].

(** [annotate_comparison_status(queryset, "invoice")], of
    [voltix.utils], and [InvoiceSerializer(...).data]: each annotated
    row comes with its comparison status and its serialized form. *)
Variable annotate_comparison_status :
  list (invoice user) -> exc (list (str * list (str * value))).

(** [response_data["comparison_status"] = status] on the serialized
    row: the value of the key is replaced where the key stands, and the
    key is added at the end when the row has none. *)
Fixpoint set_key (k : str) (v : value) (fields : list (str * value))
  : list (str * value) :=
  match fields with
  | [] => [(k, v)]
  | (k', v') :: fields' =>
      if str_eqb k' k then (k', v) :: fields'
      else (k', v') :: set_key k v fields'
  end.

Definition with_status (status : str) (fields : list (str * value))
  : value :=
  VDict (set_key (utf8 "comparison_status") (VStr status) fields).

(** [InvoiceDetailView.get] *)
Definition detail_get (table : exc (list (invoice user)))
           (request_user : user) (invoice_id : Z) : response :=
  let failed e :=
    ServerError "Ocurrió un error al obtener los detalles de la factura." e in
  match table with
  | Raise e => failed e
  | Ret rows =>
      match owned_by rows invoice_id request_user with
      | [] => NotFound (detail_not_found invoice_id)
      | invoice_queryset =>
          match annotate_comparison_status invoice_queryset with
          | Raise e => failed e
          | Ret [] => NotFound detail_not_annotated
          | Ret ((status, fields) :: _) => Ok (with_status status fields)
          end
      end
  end.

End Views.
End InvoiceViews.

(* ================================================================== *)
(** * Properties *)

(** ** Substring containment *)

Module StrFacts.

Lemma cp_eqb_eq (a b : N) : cp_eqb a b = true <-> a = b.
Proof. apply N.eqb_eq. Qed.

Lemma starts_with_iff (p s : str) :
  starts_with p s = true <-> exists b, s = p ++ b.
Proof.
  revert s; induction p as [|x p IH]; intros s; simpl.
  - split; [intros _; now exists s | reflexivity].
  - destruct s as [|y s].
    + split; [discriminate | intros [b Hb]; discriminate].
    + rewrite andb_true_iff, cp_eqb_eq, IH. split.
      * intros [-> [b ->]]. now exists b.
      * intros [b Hb]. injection Hb as -> ->. split; [reflexivity | now exists b].
Qed.

Lemma find_from_some (p s : str) (i j : nat) :
  find_from i p s = Some j -> exists a b, s = a ++ p ++ b.
Proof.
  revert i; induction s as [|c s IH]; intros i H.
  - simpl in H. destruct (starts_with p []) eqn:E; [|discriminate].
    apply starts_with_iff in E as [b Hb]. now exists [], b.
  - simpl in H. destruct (starts_with p (c :: s)) eqn:E.
    + apply starts_with_iff in E as [b Hb]. now exists [], b.
    + apply IH in H as (a & b & ->). now exists (c :: a), b.
Qed.

Lemma find_from_none (p s : str) (i : nat) :
  find_from i p s = None -> forall a b, s <> a ++ p ++ b.
Proof.
  revert i; induction s as [|c s IH]; intros i H a b Hs.
  - simpl in H. destruct (starts_with p []) eqn:E; [discriminate|].
    destruct a; [|discriminate]. simpl in Hs.
    assert (starts_with p [] = true) by (apply starts_with_iff; now exists b).
    congruence.
  - simpl in H. destruct (starts_with p (c :: s)) eqn:E; [discriminate|].
    destruct a as [|x a].
    + assert (starts_with p (c :: s) = true)
        by (apply starts_with_iff; now exists b).
      congruence.
    + injection Hs as _ Hs. exact (IH _ H a b Hs).
Qed.

(** [p in s] holds exactly when [p] occurs in [s] as a contiguous
    run of code points. *)
Lemma contains_iff (p s : str) :
  contains p s = true <-> exists a b, s = a ++ p ++ b.
Proof.
  unfold contains, find. destruct (find_from 0 p s) eqn:E.
  - split; [intros _; eapply find_from_some; eauto | reflexivity].
  - split; [discriminate|].
    intros (a & b & H). exfalso. eapply find_from_none; eauto.
Qed.

End StrFacts.

(** ** The extraction methods always return *)

Module Totality.
Section Totality.
Context {rt : Runtime}.

Lemma try_Exception_returns {A} (body : exc A) (h : exn -> A) :
  try_Exception body (fun e => Ret (h e))
  = Ret (match body with Ret a => a | Raise e => h e end).
Proof. destruct body; reflexivity. Qed.

Lemma extractor_returns (v : Convert.vendor) (text : str) :
  exists r, Convert.extractor v text = Ret r.
Proof.
  destruct v; simpl;
    unfold Endesa.extract_endesa_data, Iberdrola.extract_iberdrola_data,
      Lidera.extract_lidera_data, Stubs.extract_naturgy_data,
      Stubs.extract_edistribucion_data;
    rewrite try_Exception_returns; eauto.
Qed.

Lemma try_Exception_id {A} (m : exc A) (h : exn -> exc A) (a : A) :
  m = Ret a -> try_Exception m h = Ret a.
Proof. intros ->. reflexivity. Qed.

End Totality.
End Totality.

(** ** Vendor classification *)

Module Classification.
Import Convert.

(** The order in which the markers are tested. *)
Definition priority : list vendor :=
  [Endesa; Iberdrola; Lidera; Naturgy; EDistribucion].

Section Classification.
Context {rt : Runtime}.

(** The marker of [v] occurs in the text, case-insensitively. *)
Definition has_marker (text : str) (v : vendor) : bool :=
  contains (marker v) (str_lower text).

(** The classifier as the specification words it: the first vendor
    of the priority order whose marker occurs, [None] when no
    marker does. *)
Definition classify (text : str) : option vendor :=
  List.find (has_marker text) priority.

Lemma convert_with_classify (call : vendor -> str -> exc value)
      (text : str) :
  convert_with call text =
  match classify text with
  | Some v => try_Exception (call v text) (fun _ => Ret conversion_error)
  | None => Ret unrecognized
  end.
Proof.
  unfold convert_with, classify, priority, has_marker. simpl.
  repeat match goal with
         | |- context [contains ?m ?t] => destruct (contains m t)
         end; reflexivity.
Qed.

Lemma classify_unique (text : str) (v : vendor) :
  has_marker text v = true ->
  (forall v', has_marker text v' = true -> v' = v) ->
  classify text = Some v.
Proof.
  intros Hv Huniq. unfold classify, priority. simpl.
  destruct (has_marker text Endesa) eqn:E1;
    [now rewrite (Huniq _ E1)|].
  destruct (has_marker text Iberdrola) eqn:E2;
    [now rewrite (Huniq _ E2)|].
  destruct (has_marker text Lidera) eqn:E3;
    [now rewrite (Huniq _ E3)|].
  destruct (has_marker text Naturgy) eqn:E4;
    [now rewrite (Huniq _ E4)|].
  destruct (has_marker text EDistribucion) eqn:E5;
    [now rewrite (Huniq _ E5)|].
  destruct v; congruence.
Qed.

Lemma classify_none (text : str) :
  (forall v, has_marker text v = false) -> classify text = None.
Proof.
  intros H. unfold classify, priority. simpl. now rewrite !H.
Qed.

End Classification.

(** C1.  For every text, conversion tests the markers by
    case-insensitive substring containment in the order Endesa,
    Iberdrola, Lidera, Naturgy, E-Distribución and calls the
    extraction method of the first vendor whose marker occurs, and of
    no other; a text with the marker of exactly one vendor is handed
    to that vendor's method, whose result is the result of the
    conversion. *)
Theorem classification_first_match :
  forall (rt : Runtime) (text : str),
    (forall v, has_marker text v = true <->
               exists a b, str_lower text = a ++ marker v ++ b)
    /\ (forall call,
           convert_with call text =
           match classify text with
           | Some v =>
               try_Exception (call v text) (fun _ => Ret conversion_error)
           | None => Ret unrecognized
           end)
    /\ (forall v,
           has_marker text v = true ->
           (forall v', has_marker text v' = true -> v' = v) ->
           classify text = Some v
           /\ convert_ocr_to_json text = extractor v text).
Proof.
  intros rt text. split; [|split].
  - intros v. apply StrFacts.contains_iff.
  - intros call. apply convert_with_classify.
  - intros v Hv Huniq.
    pose proof (@classify_unique _ text v Hv Huniq) as Hc.
    split; [exact Hc|].
    unfold convert_ocr_to_json. rewrite convert_with_classify, Hc.
    destruct (Totality.extractor_returns v text) as [r Hr].
    now rewrite Hr.
Qed.

(** A text that names Iberdrola only. *)
Definition iberdrola_only : str := utf8 "Factura de IBERDROLA CLIENTES".

Lemma classification_first_match_witness :
  @classify Latin1.runtime iberdrola_only = Some Iberdrola
  /\ @convert_ocr_to_json Latin1.runtime iberdrola_only
     = @extractor Latin1.runtime Iberdrola iberdrola_only.
Proof.
  apply (classification_first_match Latin1.runtime iberdrola_only).
  - vm_compute. reflexivity.
  - intros v'. destruct v'; vm_compute; congruence.
Defined.

(** C2.  For every text in which none of the five markers occurs,
    conversion returns the provider-not-recognized dictionary, and it
    does so whatever the extraction methods are: none of them is
    called.  That dictionary is an error value, distinct from the
    conversion-error one and from any record. *)
Theorem unrecognized_without_extraction :
  forall (rt : Runtime) (text : str),
    (forall v, has_marker text v = false) ->
    (forall call, convert_with call text = Ret unrecognized)
    /\ convert_ocr_to_json text = Ret unrecognized
    /\ has_key "error" unrecognized = true
    /\ unrecognized <> conversion_error
    /\ has_key "nombre_cliente" unrecognized = false.
Proof.
  intros rt text H.
  assert (Hc : forall call, convert_with call text = Ret unrecognized).
  { intros call. rewrite convert_with_classify, classify_none; auto. }
  split; [exact Hc|]. split; [apply Hc|].
  split; [reflexivity|]. split; [|reflexivity].
  intros E. apply (f_equal (get "error")) in E.
  vm_compute in E. discriminate.
Qed.

Lemma unrecognized_without_extraction_witness :
  @convert_ocr_to_json Latin1.runtime (utf8 "Factura de la luz")
  = Ret unrecognized.
Proof.
  apply (unrecognized_without_extraction Latin1.runtime
           (utf8 "Factura de la luz")).
  intros v. destruct v; vm_compute; reflexivity.
Defined.

End Classification.

(** ** Runtimes that agree with the Latin-1 tables

    The concrete texts of the properties below are evaluated once, with
    the tables of [Latin1]; the result holds for every runtime whose
    tables agree with them on U+0000..U+00FF, which is the case of
    CPython's. *)

Module Compat.

Definition small (c : N) : Prop := (c < 256)%N.

Record latin1_compatible (rt : Runtime) : Prop := {
  compat_decimal : forall c, small c -> is_decimal c = Latin1.decimal c;
  compat_value : forall c, small c -> Latin1.decimal c = true ->
                           decimal_value c = (Z.of_N c - 48)%Z;
  compat_space : forall c, small c -> is_space c = Latin1.space c;
  compat_word : forall c, small c -> is_word c = Latin1.word c;
  compat_fold : forall p c, small p -> small c ->
                            fold_eq p c
                            = N.eqb (Latin1.lower_cp p) (Latin1.lower_cp c);
  compat_lower : forall s, Forall small s ->
                           str_lower s = map Latin1.lower_cp s;
  compat_year : year_width <= 4
}.

Lemma latin1_is_compatible : latin1_compatible Latin1.runtime.
Proof. split; intros; try reflexivity. simpl. lia. Qed.

End Compat.

(** ** The unimplemented vendors *)

Module Placeholder.
Import Convert Classification.

(** The paths of the keys of a dictionary, nested ones included. *)
Fixpoint key_paths (v : value) : list (list str) :=
  match v with
  | VDict items =>
      flat_map (fun kv => [fst kv] :: map (cons (fst kv)) (key_paths (snd kv)))
               items
  | _ => []
  end.

(** The key paths of every extracted record. *)
Definition record_paths : list (list str) :=
  key_paths (invoice_record VNone VNone VNone VNone VNone VNone VNone
               VNone VNone VNone VNone VNone VNone VNone VNone VNone
               VNone VNone).

(** A record is flagged when it carries a key that the extracted
    records do not have. *)
Definition flagged (r : value) : Prop :=
  exists path, In path (key_paths r) /\ ~ In path record_paths.

Lemma placeholder_not_flagged (nombre : string) :
  ~ flagged (Stubs.placeholder nombre).
Proof. intros (path & Hin & Hout). apply Hout. exact Hin. Qed.

(** C9, as stated, fails: the record returned for a Naturgy text has
    exactly the keys of an extracted record and so carries no flag. *)
Lemma naturgy_record_unflagged :
  @convert_ocr_to_json Latin1.runtime (utf8 "NATURGY IBERIA, S.A.")
  = Ret Stubs.naturgy_record
  /\ ~ flagged Stubs.naturgy_record.
Proof.
  split; [vm_compute; reflexivity | apply placeholder_not_flagged].
Qed.

(** C9, amended.  A text classified as Naturgy, or as
    E-Distribución, is converted to that vendor's fixed record,
    whatever the text and the runtime are (no pattern is matched);
    the record has the keys of an extracted record and no other, and
    differs from one by its values only: the test name, and the
    string ["00"] where an extracted record has an integer or null. *)
Theorem placeholder_record_verbatim :
  forall (rt : Runtime) (text : str),
    (classify text = Some Naturgy ->
     convert_ocr_to_json text = Ret Stubs.naturgy_record)
    /\ (classify text = Some EDistribucion ->
        convert_ocr_to_json text = Ret Stubs.edistribucion_record)
    /\ Stubs.extract_naturgy_data text = Ret Stubs.naturgy_record
    /\ Stubs.extract_edistribucion_data text = Ret Stubs.edistribucion_record
    /\ key_paths Stubs.naturgy_record = record_paths
    /\ key_paths Stubs.edistribucion_record = record_paths
    /\ get "nombre_cliente" Stubs.naturgy_record
       = Some (VStr (utf8 "NATURGY TESTE"))
    /\ get "nombre_cliente" Stubs.edistribucion_record
       = Some (VStr (utf8 "E-DISTRIBUCIÓN TESTE"))
    /\ get2 "periodo_facturacion" "dias" Stubs.naturgy_record
       = Some (VStr (utf8 "00"))
    /\ get2 "periodo_facturacion" "dias" Stubs.edistribucion_record
       = Some (VStr (utf8 "00")).
Proof.
  intros rt text.
  split; [|split].
  - intros H. unfold convert_ocr_to_json.
    now rewrite convert_with_classify, H.
  - intros H. unfold convert_ocr_to_json.
    now rewrite convert_with_classify, H.
  - repeat split; reflexivity.
Qed.

Lemma placeholder_record_verbatim_witness :
  @convert_ocr_to_json Latin1.runtime (utf8 "NATURGY IBERIA, S.A.")
  = Ret Stubs.naturgy_record.
Proof.
  apply (proj1 (placeholder_record_verbatim Latin1.runtime
                  (utf8 "NATURGY IBERIA, S.A."))).
  vm_compute. reflexivity.
Defined.

End Placeholder.

(** ** The pipeline: rasterization and page order *)

Module PipelineFacts.
Import Pipeline Convert Classification Compat.

(** A scripted set of collaborators: a document is the list of its
    pages, a page either renders to the text that recognition reads
    from it or fails, and every other service succeeds. *)
Definition scripted (opened : exc (list (exc str))) : Collaborators := {|
  pdf := unit;
  page := exc str;
  image := str;
  gray := str;
  upload := str;
  url := str;
  store_temp := fun _ => Ret tt;
  fitz_open := fun _ => opened;
  render := fun p => p;
  fitz_close := fun _ => Ret tt;
  cv2_enhance := fun i => Ret i;
  tesseract := fun g => Ret g;
  to_png_upload := fun i => Ret i;
  process_and_upload_image := fun u => Ret u;
  invoice_create := fun _ _ _ _ => Ret tt;
  remove_temp := fun _ => Ret tt
|}.

Section Facts.
Context {rt : Runtime} {C : Collaborators}.

Lemma process_image_returns (i : image) :
  exists g, process_image i = Ret g.
Proof.
  unfold process_image. destruct (cv2_enhance i); simpl; eauto.
Qed.

Lemma perform_ocr_returns (g : option gray) :
  exists t, perform_ocr g = Ret t.
Proof.
  unfold perform_ocr. destruct g as [g|]; simpl; eauto.
  destruct (tesseract g); simpl; eauto.
Qed.

Lemma page_text_returns (i : image) : exists t, page_text i = Ret t.
Proof.
  unfold page_text. destruct (process_image_returns i) as [g ->].
  simpl. apply perform_ocr_returns.
Qed.

Lemma render_all_raises (pages : list page) (p : page) :
  In p pages -> raises (render p) -> raises (render_all pages).
Proof.
  induction pages as [|q pages IH]; intros Hin Hr; [contradiction|].
  simpl. destruct (render q) as [i|e] eqn:Eq; simpl.
  - destruct Hin as [->|Hin].
    + destruct Hr as [e He]. congruence.
    + destruct (IH Hin Hr) as [e ->]. simpl. now exists e.
  - now exists e.
Qed.

(** Whether the document of [f] fails to rasterize: it cannot be
    opened, or one of its pages cannot be rendered. *)
Definition rasterization_fails (f : pdf) : Prop :=
  raises (fitz_open f)
  \/ exists pages p,
       fitz_open f = Ret pages /\ In p pages /\ raises (render p).

Lemma pdf_to_images_empty (f : pdf) :
  rasterization_fails f -> pdf_to_images f = Ret [].
Proof.
  unfold pdf_to_images. intros [[e ->]|(pages & p & -> & Hin & Hr)].
  - reflexivity.
  - simpl. destruct (render_all_raises pages p Hin Hr) as [e ->].
    reflexivity.
Qed.

Lemma combined_text_two (i1 i2 : image) (more : list image) :
  exists t1 t2,
    page_text i1 = Ret t1 /\ page_text i2 = Ret t2
    /\ combined_text (i1 :: i2 :: more)
       = Ret (t1 ++ [LF] ++ t2 ++ [LF]).
Proof.
  destruct (page_text_returns i1) as [t1 H1].
  destruct (page_text_returns i2) as [t2 H2].
  exists t1, t2. split; [exact H1|]. split; [exact H2|].
  unfold combined_text. simpl. rewrite H1. simpl. rewrite H2. simpl.
  now rewrite <- app_assoc.
Qed.

(** What a 201 response carries: the combined text of the pages
    and its conversion. *)
Lemma post_created (f : pdf) (t : str) (d : value) :
  post (Some f) = Created t d ->
  exists images,
    pdf_to_images f = Ret images
    /\ combined_text images = Ret t
    /\ convert_ocr_to_json t = Ret d.
Proof.
  unfold post.
  destruct (store_temp f) as [[]|]; simpl; [|discriminate].
  destruct (pdf_to_images f) as [images|]; simpl; [|discriminate].
  destruct (upload_first_page images) as [[photo|early]|] eqn:Eu; simpl;
    [| |discriminate].
  - destruct (combined_text images) as [t'|] eqn:Ec; simpl;
      [|discriminate].
    destruct (convert_ocr_to_json t') as [d'|] eqn:Ed; simpl;
      [|discriminate].
    destruct (save_invoice d' photo) as [[early|]|] eqn:Es; simpl;
      [| |discriminate].
    + intros ->. exfalso. revert Es. unfold save_invoice.
      destruct (negb (has_key "error" d')); [|discriminate].
      destruct invoice_create; discriminate.
    + destruct (remove_temp f) as [[]|]; simpl; [|discriminate].
      intros H. injection H as <- <-.
      exists images. repeat split; assumption.
  - intros ->. exfalso. revert Eu. unfold upload_first_page.
    destruct images as [|i images]; [discriminate|].
    destruct (to_png_upload i); simpl; [|discriminate].
    destruct process_and_upload_image; discriminate.
Qed.

Lemma convert_empty :
  latin1_compatible rt -> convert_ocr_to_json [] = Ret unrecognized.
Proof.
  intros Hc. unfold convert_ocr_to_json.
  rewrite convert_with_classify, classify_none; [reflexivity|].
  intros v. unfold has_marker.
  rewrite (compat_lower Hc (s:=[])) by constructor.
  destruct v; reflexivity.
Qed.

Lemma post_after_failed_rasterization (f : pdf) :
  latin1_compatible rt ->
  rasterization_fails f ->
  store_temp f = Ret tt ->
  remove_temp f = Ret tt ->
  post (Some f) = Created [] unrecognized.
Proof.
  intros Hc Hf Hs Hr. unfold post. rewrite Hs. simpl.
  rewrite (pdf_to_images_empty Hf). simpl.
  unfold combined_text. simpl.
  rewrite (convert_empty Hc). simpl.
  now rewrite Hr.
Qed.

End Facts.

Definition not_a_pdf : exn := OtherError (utf8 "cannot open broken document").

(** C4, as stated, fails: for a file that cannot be opened the view
    answers 201 with an empty text and the provider-not-recognized
    dictionary; the cause is in no response. *)
Lemma unreadable_pdf_is_not_a_stage_failure :
  @post Latin1.runtime (scripted (Raise not_a_pdf)) (Some tt)
  = @Created (scripted (Raise not_a_pdf)) [] unrecognized
  /\ forall message cause,
       @post Latin1.runtime (scripted (Raise not_a_pdf)) (Some tt)
       <> ServerError message cause.
Proof.
  split; [vm_compute; reflexivity|].
  intros message cause. vm_compute. discriminate.
Qed.

(** C4, amended.  For every input that cannot be opened as a PDF or
    one of whose pages cannot be rendered, [pdf_to_images] returns
    the empty list: no partial page list reaches the later stages.
    The cause is logged and dropped, no stage failure is reported: the
    run goes on with an empty combined text and, the temporary file
    being written and removed without error, answers 201 with the
    provider-not-recognized dictionary. *)
Theorem failed_rasterization_yields_no_pages :
  forall (rt : Runtime) (C : Collaborators) (f : pdf),
    rasterization_fails f ->
    pdf_to_images f = Ret []
    /\ (latin1_compatible rt ->
        store_temp f = Ret tt ->
        remove_temp f = Ret tt ->
        post (Some f) = Created [] unrecognized).
Proof.
  intros rt C f Hf. split.
  - apply pdf_to_images_empty, Hf.
  - intros Hc Hs Hr. now apply post_after_failed_rasterization.
Qed.

(** A document whose second page fails to render. *)
Definition second_page_broken : Collaborators :=
  scripted (Ret [Ret (utf8 "Endesa"); Raise not_a_pdf]).

Lemma failed_rasterization_yields_no_pages_witness :
  @pdf_to_images second_page_broken tt = Ret []
  /\ @post Latin1.runtime second_page_broken (Some tt)
     = Created [] unrecognized.
Proof.
  assert (Hf : @rasterization_fails second_page_broken tt).
  { right. exists [Ret (utf8 "Endesa"); Raise not_a_pdf], (Raise not_a_pdf).
    split; [reflexivity|]. split; [right; left; reflexivity|].
    now exists not_a_pdf. }
  destruct (@failed_rasterization_yields_no_pages
              Latin1.runtime second_page_broken tt Hf) as [H1 H2].
  split; [exact H1|].
  apply H2; [apply latin1_is_compatible | reflexivity | reflexivity].
Defined.

(** A document of two pages, read as [a] and [b]. *)
Definition two_pages : Collaborators :=
  scripted (Ret [Ret (utf8 "a"); Ret (utf8 "b")]).

(** C5, as stated, fails: the combined text of two pages ends with a
    newline after the text of the second page. *)
Lemma combined_text_has_trailing_newline :
  @page_text two_pages (utf8 "a") = Ret (utf8 "a")
  /\ @page_text two_pages (utf8 "b") = Ret (utf8 "b")
  /\ @combined_text two_pages [utf8 "a"; utf8 "b"]
     = Ret (utf8 "a" ++ [LF] ++ utf8 "b" ++ [LF])
  /\ @combined_text two_pages [utf8 "a"; utf8 "b"]
     <> Ret (utf8 "a" ++ [LF] ++ utf8 "b").
Proof.
  repeat split; try reflexivity. vm_compute. discriminate.
Qed.

(** C5, amended.  For every document with at least two pages, the
    combined text is the recognized text of page 1, a newline, the
    recognized text of page 2 and a newline, in that order, whatever
    pages follow; and the text of a 201 response is the combined text
    of the rendered pages, which is what conversion received. *)
Theorem combined_text_page_order :
  forall (rt : Runtime) (C : Collaborators),
    (forall (i1 i2 : image) (more : list image),
        exists t1 t2,
          page_text i1 = Ret t1 /\ page_text i2 = Ret t2
          /\ combined_text (i1 :: i2 :: more)
             = Ret (t1 ++ [LF] ++ t2 ++ [LF]))
    /\ (forall (f : pdf) (t : str) (d : value),
           post (Some f) = Created t d ->
           exists images,
             pdf_to_images f = Ret images
             /\ combined_text images = Ret t
             /\ convert_ocr_to_json t = Ret d).
Proof.
  intros rt C. split.
  - apply combined_text_two.
  - apply post_created.
Qed.

Lemma combined_text_page_order_witness :
  exists images,
    @pdf_to_images two_pages tt = Ret images
    /\ @combined_text two_pages images = Ret (utf8 "a
b
")
    /\ @convert_ocr_to_json Latin1.runtime (utf8 "a
b
") = Ret unrecognized.
Proof.
  apply (proj2 (combined_text_page_order Latin1.runtime two_pages) tt).
  vm_compute. reflexivity.
Defined.

End PipelineFacts.

(** ** Facts about the matcher *)

Unset Implicit Arguments.

Module ReFacts.
Import Re.

Lemma existsb_ext_in {X} (f g : X -> bool) (l : list X) :
  (forall x, In x l -> f x = g x) -> existsb f l = existsb g l.
Proof.
  induction l as [|x l IH]; intros H; simpl; [reflexivity|].
  rewrite (H x (or_introl eq_refl)), IH; [reflexivity|].
  intros y Hy. apply H. now right.
Qed.

Lemma Forall_drop {X} (P : X -> Prop) (n : nat) (l : list X) :
  Forall P l -> Forall P (skipn n l).
Proof.
  revert l. induction n as [|n IH]; intros l H; simpl; [exact H|].
  destruct l as [|x l]; [constructor|]. inversion H; subst. auto.
Qed.

Lemma rep_loop_step {A} body greedy lo hi
      (k : cursor -> captures -> option A) fuel n cur cs :
  rep_loop body greedy lo hi k (S fuel) n cur cs =
  let more :=
    if below n hi
    then body cur cs
           (fun cur' cs' =>
              if Nat.eqb (pos cur') (pos cur) && Nat.leb lo n
              then None
              else rep_loop body greedy lo hi k fuel (S n) cur' cs')
    else None in
  let stop := if Nat.leb lo n then k cur cs else None in
  if greedy
  then match more with Some a => Some a | None => stop end
  else match stop with Some a => Some a | None => more end.
Proof. reflexivity. Qed.

End ReFacts.

(** ** Groups that every match binds *)

Module ReGroups.
Import Re.

(** Group [n] lies on every path through [r]. *)
Fixpoint binds (n : nat) (r : re) : bool :=
  match r with
  | RGroup i r1 => Nat.eqb i n || binds n r1
  | RCat r1 r2 => binds n r1 || binds n r2
  | RAlt r1 r2 => binds n r1 && binds n r2
  | RRep _ lo _ r1 => Nat.leb 1 lo && binds n r1
  | _ => false
  end.

Definition bound (n : nat) (cs : captures) : Prop :=
  lookup_group n cs <> None.

Lemma bound_cons (n : nat) (x : nat * str) (cs : captures) :
  bound n cs -> bound n (x :: cs).
Proof.
  unfold bound. destruct x as [i s]. simpl.
  destruct (Nat.eqb i n); [discriminate | auto].
Qed.

Lemma bound_here (n : nat) (s : str) (cs : captures) :
  bound n ((n, s) :: cs).
Proof. unfold bound. simpl. rewrite Nat.eqb_refl. discriminate. Qed.

Section Groups.
Context {rt : Runtime}.
Variable fl : flags.
Variable A : Type.

(** What a matcher does to a property [P] of the groups: a result can
    only come from the continuation, called on groups satisfying [Q]. *)
Definition leads (P Q : captures -> Prop)
           (body : cursor -> captures ->
                   (cursor -> captures -> option A) -> option A) : Prop :=
  forall cur cs k a,
    P cs -> body cur cs k = Some a ->
    exists cur' cs', Q cs' /\ k cur' cs' = Some a.

Lemma rep_loop_leads (P : captures -> Prop) body greedy lo hi k :
  leads P P body ->
  forall fuel n cur cs a,
    P cs ->
    rep_loop body greedy lo hi k fuel n cur cs = Some a ->
    exists cur' cs', P cs' /\ k cur' cs' = Some a.
Proof.
  intros Hb. induction fuel as [|fuel IH]; intros n cur cs a HP H;
    [discriminate|].
  rewrite ReFacts.rep_loop_step in H. cbv zeta in H.
  assert (Hmore :
            (if below n hi
             then body cur cs
                    (fun cur' cs' =>
                       if Nat.eqb (pos cur') (pos cur) && Nat.leb lo n
                       then None
                       else rep_loop body greedy lo hi k fuel (S n) cur' cs')
             else None) = Some a ->
            exists cur' cs', P cs' /\ k cur' cs' = Some a).
  { destruct (below n hi); [|discriminate]. intros Hm.
    destruct (Hb _ _ _ _ HP Hm) as (cur1 & cs1 & HP1 & Hk).
    destruct (Nat.eqb (pos cur1) (pos cur) && Nat.leb lo n);
      [discriminate|].
    eapply IH; eauto. }
  assert (Hstop :
            (if Nat.leb lo n then k cur cs else None) = Some a ->
            exists cur' cs', P cs' /\ k cur' cs' = Some a).
  { destruct (Nat.leb lo n); [|discriminate]. eauto. }
  destruct greedy.
  - match type of H with
    | match ?m with _ => _ end = _ => destruct m eqn:Em
    end; [injection H as ->; auto | auto].
  - match type of H with
    | match ?m with _ => _ end = _ => destruct m eqn:Em
    end; [injection H as ->; auto | auto].
Qed.

(** Matching only adds groups. *)
Lemma run_keeps (P : captures -> Prop) :
  (forall x cs, P cs -> P (x :: cs)) ->
  forall r, leads P P (run fl (A:=A) r).
Proof.
  intros Hup. induction r; intros cur cs k a HP H; cbn [run] in H;
    try (destruct (step fl _ cur); [eauto | discriminate]).
  - eauto.
  - destruct (IHr1 _ _ _ _ HP H) as (cur1 & cs1 & HP1 & H1). eauto.
  - destruct (run fl r1 cur cs k) eqn:E1.
    + injection H as ->. eauto.
    + eauto.
  - eapply rep_loop_leads; eauto.
  - destruct (IHr _ _ _ _ HP H) as (cur1 & cs1 & HP1 & H1).
    eexists _, _. split; [|exact H1]. auto.
Qed.

Lemma run_binds (n : nat) :
  forall r, binds n r = true ->
            leads (fun _ => True) (bound n) (run fl (A:=A) r).
Proof.
  induction r; intros Hb cur cs k a _ H; simpl in Hb; try discriminate;
    cbn [run] in H.
  - (* RCat *)
    apply orb_true_iff in Hb as [Hb|Hb].
    + destruct (IHr1 Hb _ _ _ _ I H) as (cur1 & cs1 & HP1 & H1).
      eapply (run_keeps (bound n)); eauto using bound_cons.
    + destruct (run_keeps (fun _ => True) (fun _ _ _ => I) r1 _ _ _ _ I H)
        as (cur1 & cs1 & _ & H1).
      eapply IHr2; eauto.
  - (* RAlt *)
    apply andb_true_iff in Hb as [Hb1 Hb2].
    destruct (run fl r1 cur cs k) eqn:E1.
    + injection H as ->. eapply IHr1; eauto.
    + eapply IHr2; eauto.
  - (* RRep *)
    apply andb_true_iff in Hb as [Hlo Hb].
    destruct lo as [|lo]; [discriminate|].
    rewrite ReFacts.rep_loop_step in H. cbv zeta in H.
    change (Nat.leb (S lo) 0) with false in H.
    assert (Hm :
              (if below 0 hi
               then run fl r cur cs
                      (fun cur' cs' =>
                         if Nat.eqb (pos cur') (pos cur) && false
                         then None
                         else rep_loop (run fl r) greedy (S lo) hi k
                                (S lo + List.length (rest cur)) 1 cur' cs')
               else None) = Some a).
    { destruct greedy.
      - match type of H with
        | match ?m with _ => _ end = _ => destruct m eqn:Em
        end; [rewrite <- H; reflexivity | discriminate].
      - exact H. }
    destruct (below 0 hi); [|discriminate].
    destruct (IHr Hb _ _ _ _ I Hm) as (cur1 & cs1 & HP1 & H1).
    rewrite andb_false_r in H1.
    eapply (rep_loop_leads (bound n)); eauto.
    apply run_keeps. intros; now apply bound_cons.
  - (* RGroup *)
    apply orb_true_iff in Hb as [Hb|Hb].
    + apply Nat.eqb_eq in Hb as ->.
      destruct (run_keeps (fun _ => True) (fun _ _ _ => I) r _ _ _ _ I H)
        as (cur1 & cs1 & _ & H1).
      eexists _, _. split; [|exact H1]. apply bound_here.
    + destruct (IHr Hb _ _ _ _ I H) as (cur1 & cs1 & HP1 & H1).
      eexists _, _. split; [|exact H1]. now apply bound_cons.
Qed.

End Groups.

Section Search.
Context {rt : Runtime}.
Variable fl : flags.

Lemma match_at_binds (n : nat) (r : re) (cur : cursor) (m : match_obj) :
  binds n r = true -> match_at fl r cur = Some m -> group m n <> None.
Proof.
  intros Hb H. unfold match_at in H.
  destruct (run_binds fl _ n r Hb _ _ _ _ I H) as (cur1 & cs1 & HP & H1).
  injection H1 as <-. exact HP.
Qed.

Lemma scan_binds (n : nat) (r : re) (fuel : nat) (cur : cursor)
      (m : match_obj) :
  binds n r = true -> scan fl r fuel cur = Some m -> group m n <> None.
Proof.
  intros Hb. revert cur. induction fuel as [|fuel IH]; intros cur H;
    simpl in H; destruct (match_at fl r cur) eqn:E.
  - injection H as <-. eapply match_at_binds; eauto.
  - discriminate.
  - injection H as <-. eapply match_at_binds; eauto.
  - destruct (advance cur) as [[c cur']|]; [eauto | discriminate].
Qed.

Lemma search_binds (n : nat) (r : re) (s : str) (m : match_obj) :
  binds n r = true -> search fl r s = Some m -> group m n <> None.
Proof. intros Hb H. eapply scan_binds; eauto. Qed.



End Search.
End ReGroups.

(** ** Matching depends on the tables only through the characters met *)

Module ReAgree.
Import Re ReFacts.

Section Agree.
Variables rt1 rt2 : Runtime.
Variable fl : flags.

(** The characters of the text, on which the two runtimes agree. *)
Variable good : N -> Prop.
Hypothesis good_decimal :
  forall c, good c -> @is_decimal rt1 c = @is_decimal rt2 c.
Hypothesis good_space :
  forall c, good c -> @is_space rt1 c = @is_space rt2 c.
Hypothesis good_word :
  forall c, good c -> @is_word rt1 c = @is_word rt2 c.

(** The characters and ranges of the pattern, which the two runtimes
    compare alike with every character of the text. *)
Definition char_ok (p : N) : Prop :=
  forall c, good c -> @char_eq rt1 fl p c = @char_eq rt2 fl p c.

Definition range_ok (lo hi : N) : Prop :=
  forall c, good c -> @in_range rt1 fl lo hi c = @in_range rt2 fl lo hi c.

Definition item_ok (i : set_item) : Prop :=
  match i with
  | SChar p => char_ok p
  | SRange lo hi => range_ok lo hi
  | _ => True
  end.

Fixpoint re_ok (r : re) : Prop :=
  match r with
  | RChar p => char_ok p
  | RSet _ items => Forall item_ok items
  | RCat r1 r2 => re_ok r1 /\ re_ok r2
  | RAlt r1 r2 => re_ok r1 /\ re_ok r2
  | RRep _ _ _ r1 => re_ok r1
  | RGroup _ r1 => re_ok r1
  | _ => True
  end.

Definition good_cursor (cur : cursor) : Prop := Forall good (rest cur).

Lemma item_agree (i : set_item) (c : N) :
  item_ok i -> good c ->
  @item_matches rt1 fl i c = @item_matches rt2 fl i c.
Proof. destruct i; simpl; auto. Qed.

Lemma accepts_agree (r : re) (c : N) :
  re_ok r -> good c -> @accepts rt1 fl r c = @accepts rt2 fl r c.
Proof.
  destruct r; simpl; intros Hr Hc; try reflexivity.
  - now rewrite Hr.
  - now rewrite good_decimal.
  - now rewrite good_space.
  - now rewrite good_word.
  - f_equal. f_equal. apply existsb_ext_in. intros i Hi.
    apply item_agree; [|exact Hc].
    rewrite Forall_forall in Hr. auto.
Qed.

Lemma advance_good (cur cur' : cursor) (c : N) :
  advance cur = Some (c, cur') -> good_cursor cur ->
  good c /\ good_cursor cur'.
Proof.
  unfold advance, good_cursor. destruct (rest cur) as [|x s] eqn:E;
    [discriminate|].
  intros H Hg. injection H as <- <-. simpl. inversion Hg; subst. auto.
Qed.

Lemma step_agree (r : re) (cur : cursor) :
  re_ok r -> good_cursor cur -> @step rt1 fl r cur = @step rt2 fl r cur.
Proof.
  intros Hr Hg. unfold step.
  destruct (advance cur) as [[c cur']|] eqn:E; [|reflexivity].
  destruct (advance_good _ _ _ E Hg) as [Hc _].
  now rewrite (accepts_agree r c Hr Hc).
Qed.

Lemma step_good (rt : Runtime) (r : re) (cur cur' : cursor) :
  @step rt fl r cur = Some cur' -> good_cursor cur -> good_cursor cur'.
Proof.
  unfold step. destruct (advance cur) as [[c cur1]|] eqn:E; [|discriminate].
  intros H Hg. destruct (advance_good _ _ _ E Hg) as [_ Hg1].
  destruct (accepts fl r c) as [[|]|]; try discriminate.
  now injection H as <-.
Qed.

Section Run.
Variable A : Type.

Definition agree_k (k1 k2 : cursor -> captures -> option A) : Prop :=
  forall cur cs, good_cursor cur -> k1 cur cs = k2 cur cs.

Definition agree_body
           (b1 b2 : cursor -> captures ->
                    (cursor -> captures -> option A) -> option A) : Prop :=
  forall cur cs k1 k2,
    good_cursor cur -> agree_k k1 k2 -> b1 cur cs k1 = b2 cur cs k2.

Lemma rep_loop_agree b1 b2 greedy lo hi k1 k2 :
  agree_body b1 b2 -> agree_k k1 k2 ->
  forall fuel n cur cs,
    good_cursor cur ->
    rep_loop b1 greedy lo hi k1 fuel n cur cs
    = rep_loop b2 greedy lo hi k2 fuel n cur cs.
Proof.
  intros Hb Hk. induction fuel as [|fuel IH]; intros n cur cs Hg;
    [reflexivity|].
  rewrite !rep_loop_step. cbv zeta.
  rewrite (Hk cur cs Hg).
  assert (Hm :
            b1 cur cs
               (fun cur' cs' =>
                  if Nat.eqb (pos cur') (pos cur) && Nat.leb lo n
                  then None
                  else rep_loop b1 greedy lo hi k1 fuel (S n) cur' cs')
            = b2 cur cs
                 (fun cur' cs' =>
                    if Nat.eqb (pos cur') (pos cur) && Nat.leb lo n
                    then None
                    else rep_loop b2 greedy lo hi k2 fuel (S n) cur' cs')).
  { apply Hb; [exact Hg|]. intros cur' cs' Hg'.
    destruct (Nat.eqb (pos cur') (pos cur) && Nat.leb lo n);
      [reflexivity | now apply IH]. }
  now rewrite Hm.
Qed.

Lemma run_agree (r : re) :
  re_ok r -> agree_body (@run rt1 fl A r) (@run rt2 fl A r).
Proof.
  induction r; intros Hr cur cs k1 k2 Hg Hk; cbn [run];
    try (rewrite (step_agree _ cur Hr Hg);
         destruct (@step rt2 fl _ cur) as [cur'|] eqn:E;
         [apply Hk; eapply step_good; eauto | reflexivity]).
  - now apply Hk.
  - destruct Hr as [Hr1 Hr2]. apply IHr1; auto.
    intros cur' cs' Hg'. now apply IHr2.
  - destruct Hr as [Hr1 Hr2].
    rewrite (IHr1 Hr1 cur cs k1 k2 Hg Hk).
    rewrite (IHr2 Hr2 cur cs k1 k2 Hg Hk). reflexivity.
  - apply rep_loop_agree; auto.
  - apply IHr; auto. intros cur' cs' Hg'. now apply Hk.
Qed.

End Run.

Lemma match_at_agree (r : re) (cur : cursor) :
  re_ok r -> good_cursor cur ->
  @match_at rt1 fl r cur = @match_at rt2 fl r cur.
Proof.
  intros Hr Hg. unfold match_at. apply run_agree; auto.
  intros cur' cs' _. reflexivity.
Qed.

Lemma scan_agree (r : re) (fuel : nat) (cur : cursor) :
  re_ok r -> good_cursor cur ->
  @scan rt1 fl r fuel cur = @scan rt2 fl r fuel cur.
Proof.
  intros Hr. revert cur. induction fuel as [|fuel IH]; intros cur Hg;
    simpl; rewrite (match_at_agree r cur Hr Hg); [reflexivity|].
  destruct (@match_at rt2 fl r cur); [reflexivity|].
  destruct (advance cur) as [[c cur']|] eqn:E; [|reflexivity].
  apply IH. now destruct (advance_good _ _ _ E Hg).
Qed.

Lemma search_agree (r : re) (s : str) :
  re_ok r -> Forall good s -> @search rt1 fl r s = @search rt2 fl r s.
Proof. intros Hr Hs. now apply scan_agree. Qed.

Lemma match_agree (r : re) (s : str) :
  re_ok r -> Forall good s -> @match_ rt1 fl r s = @match_ rt2 fl r s.
Proof. intros Hr Hs. now apply match_at_agree. Qed.

Lemma finditer_from_agree (r : re) (fuel : nat) (cur : cursor) :
  re_ok r -> good_cursor cur ->
  @finditer_from rt1 fl r fuel cur = @finditer_from rt2 fl r fuel cur.
Proof.
  intros Hr. revert cur. induction fuel as [|fuel IH]; intros cur Hg;
    simpl; [reflexivity|].
  rewrite (scan_agree r _ cur Hr Hg).
  destruct (@scan rt2 fl r (List.length (rest cur)) cur) as [m|];
    [|reflexivity].
  assert (Hd : Forall good (drop (m_end m - pos cur) (rest cur)))
    by (apply Forall_drop; exact Hg).
  destruct (Nat.eqb (m_end m) (m_start m)).
  - destruct (drop (m_end m - pos cur) (rest cur)) as [|x s'] eqn:Ed;
      [reflexivity|].
    f_equal. apply IH. unfold good_cursor. simpl. now inversion Hd.
  - f_equal. now apply IH.
Qed.

Lemma finditer_agree (r : re) (s : str) :
  re_ok r -> Forall good s -> @finditer rt1 fl r s = @finditer rt2 fl r s.
Proof. intros Hr Hs. now apply finditer_from_agree. Qed.

Lemma findall_agree (r : re) (s : str) :
  re_ok r -> Forall good s -> @findall rt1 fl r s = @findall rt2 fl r s.
Proof.
  intros Hr Hs. unfold findall. now rewrite (finditer_agree r s Hr Hs).
Qed.

Lemma sub_agree (r : re) (repl s : str) :
  re_ok r -> Forall good s -> @sub rt1 fl r repl s = @sub rt2 fl r repl s.
Proof.
  intros Hr Hs. unfold sub. now rewrite (finditer_agree r s Hr Hs).
Qed.

End Agree.
End ReAgree.

(** ** More on the stages of the pipeline *)

Module StageFacts.
Import Pipeline Convert Classification.

Section Stages.
Context {rt : Runtime} {C : Collaborators}.

Lemma render_all_pages (pages : list page) (images : list image) :
  render_all pages = Ret images ->
  Forall2 (fun p i => render p = Ret i) pages images.
Proof.
  revert images. induction pages as [|p pages IH]; intros images H;
    simpl in H.
  - injection H as <-. constructor.
  - destruct (render p) as [i|] eqn:Ep; simpl in H; [|discriminate].
    destruct (render_all pages) as [is'|]; simpl in H; [|discriminate].
    injection H as <-. constructor; auto.
Qed.

Lemma ocr_loop_texts (pages : list image) (acc : str) :
  exists texts,
    Forall2 (fun i t => page_text i = Ret t) pages texts
    /\ ocr_loop pages acc
       = Ret (acc ++ flat_map (fun t => t ++ [LF]) texts).
Proof.
  revert acc. induction pages as [|i pages IH]; intros acc; simpl.
  - exists []. split; [constructor | now rewrite app_nil_r].
  - destruct (PipelineFacts.page_text_returns i) as [t Ht]. rewrite Ht.
    simpl. destruct (IH (acc ++ t ++ [LF])) as (texts & HF & ->).
    exists (t :: texts). split; [now constructor|].
    simpl. now rewrite <- !app_assoc.
Qed.

(** A page on which preprocessing or recognition raises. *)
Definition unreadable (i : image) : Prop :=
  raises (cv2_enhance i)
  \/ exists g, cv2_enhance i = Ret g /\ raises (tesseract g).

Lemma unreadable_page_text (i : image) :
  unreadable i -> page_text i = Ret [].
Proof.
  unfold page_text, process_image, perform_ocr.
  intros [[e ->]|(g & -> & e & Hg)]; simpl; [reflexivity|].
  now rewrite Hg.
Qed.

End Stages.

(** X1.  [pdf_to_images] always returns, and what it returns is either
    nothing or the whole document: one image per page, each the
    rendering of its page, in page order. *)
Theorem pdf_to_images_all_or_nothing :
  forall (C : Collaborators) (f : pdf),
  exists images,
    pdf_to_images f = Ret images
    /\ (images = []
        \/ exists pages,
             fitz_open f = Ret pages
             /\ Forall2 (fun p i => render p = Ret i) pages images).
Proof.
  intros C f. unfold pdf_to_images.
  destruct (fitz_open f) as [pages|e] eqn:Eo; simpl.
  - destruct (render_all pages) as [images|e] eqn:Er; simpl.
    + destruct (fitz_close f); simpl.
      * exists images. split; [reflexivity|]. right. exists pages.
        split; [reflexivity|]. now apply render_all_pages.
      * exists []. auto.
    + exists []. auto.
  - exists []. auto.
Qed.

(** X2.  For a document of any number of pages, the combined text is
    made of the recognized texts of its first two pages at most, each
    followed by a newline, in page order: the empty text for no page,
    one text and a newline for one page. *)
Theorem combined_text_of_any_document :
  forall (C : Collaborators) (images : list image),
  exists texts,
    Forall2 (fun i t => page_text i = Ret t) (firstn 2 images) texts
    /\ combined_text images = Ret (flat_map (fun t => t ++ [LF]) texts)
    /\ List.length texts = Nat.min 2 (List.length images).
Proof.
  intros C images. unfold combined_text.
  destruct (ocr_loop_texts (firstn 2 images) []) as (texts & HF & H).
  exists texts. split; [exact HF|]. split; [exact H|].
  rewrite <- (Forall2_length HF). apply length_firstn.
Qed.

(** X3.  A page whose preprocessing or recognition raises does not
    stop the run: it contributes an empty text, and the text of the
    other page is kept. *)
Theorem unreadable_page_is_skipped :
  forall (C : Collaborators) (i1 i2 : image) (more : list image) (t : str),
    unreadable i1 ->
    page_text i2 = Ret t ->
    combined_text (i1 :: i2 :: more) = Ret ([LF] ++ t ++ [LF])
    /\ combined_text (i2 :: i1 :: more) = Ret (t ++ [LF] ++ [LF]).
Proof.
  intros C i1 i2 more t H1 H2. pose proof (unreadable_page_text i1 H1) as H0.
  unfold combined_text. split; simpl.
  - rewrite H0. simpl. rewrite H2. reflexivity.
  - rewrite H2. simpl. rewrite H0. simpl. now rewrite <- app_assoc.
Qed.

(** A world in which recognition fails on the page read as [x], and
    the database is down. *)
Definition fragile : Collaborators := {|
  pdf := unit;
  page := str;
  image := str;
  gray := str;
  upload := str;
  url := str;
  store_temp := fun _ => Ret tt;
  fitz_open := fun _ => Ret [utf8 "x"; utf8 "Factura"];
  render := fun p => Ret p;
  fitz_close := fun _ => Ret tt;
  cv2_enhance := fun i => Ret i;
  tesseract := fun g =>
                 if str_eqb g (utf8 "x")
                 then Raise (OtherError (utf8 "tesseract failed"))
                 else Ret g;
  to_png_upload := fun i => Ret i;
  process_and_upload_image := fun u => Ret u;
  invoice_create := fun _ _ _ _ =>
                      Raise (OtherError (utf8 "database is down"));
  remove_temp := fun _ => Ret tt
|}.

Lemma unreadable_page_is_skipped_witness :
  @combined_text fragile [utf8 "x"; utf8 "Factura"]
  = Ret ([LF] ++ utf8 "Factura" ++ [LF])
  /\ @combined_text fragile [utf8 "Factura"; utf8 "x"]
     = Ret (utf8 "Factura" ++ [LF] ++ [LF]).
Proof.
  apply (unreadable_page_is_skipped fragile (utf8 "x") (utf8 "Factura") []).
  - right. exists (utf8 "x"). split; [reflexivity|].
    eexists. vm_compute. reflexivity.
  - vm_compute. reflexivity.
Defined.

(** X4.  A document in whose text no provider is recognized is never
    written to the database: whatever [Invoice.objects.create] would
    do, the view answers 201 with the text and the
    provider-not-recognized dictionary. *)
Theorem unrecognized_document_is_not_saved :
  forall (rt : Runtime) (C : Collaborators) (f : pdf)
         (images : list image) (photo : option url) (t : str),
    store_temp f = Ret tt ->
    pdf_to_images f = Ret images ->
    upload_first_page images = Ret (inl photo) ->
    combined_text images = Ret t ->
    (forall v, has_marker t v = false) ->
    remove_temp f = Ret tt ->
    post (Some f) = Created t unrecognized.
Proof.
  intros rt C f images photo t Hs Hi Hu Ht Hm Hr.
  unfold post. rewrite Hs. simpl. rewrite Hi. simpl. rewrite Hu. simpl.
  rewrite Ht. simpl.
  unfold convert_ocr_to_json.
  rewrite convert_with_classify, (classify_none t Hm).
  simpl. now rewrite Hr.
Qed.

Lemma unrecognized_document_is_not_saved_witness :
  @post Latin1.runtime fragile (Some tt)
  = Created ([LF] ++ utf8 "Factura" ++ [LF]) unrecognized.
Proof.
  apply (unrecognized_document_is_not_saved Latin1.runtime fragile tt
           [utf8 "x"; utf8 "Factura"] (Some (utf8 "x"))).
  - reflexivity.
  - reflexivity.
  - reflexivity.
  - vm_compute. reflexivity.
  - intros v. destruct v; vm_compute; reflexivity.
  - reflexivity.
Defined.

(** X5.  The failures [post] reports, each with its own message and
    the exception as details: the conversion of the first page to PNG
    (caught by the outer handler), its upload (caught by the inner
    one), and the writing of a recognized invoice to the database. *)
Theorem post_failure_reports :
  forall (rt : Runtime) (C : Collaborators) (f : pdf)
         (i : image) (more : list image) (e : exn),
    store_temp f = Ret tt ->
    pdf_to_images f = Ret (i :: more) ->
    (to_png_upload i = Raise e ->
     post (Some f) = ServerError "Error durante el procesamiento." e)
    /\ (forall u,
           to_png_upload i = Ret u ->
           process_and_upload_image u = Raise e ->
           post (Some f) = ServerError "Error al subir la imagen." e)
    /\ (forall u photo t d,
           to_png_upload i = Ret u ->
           process_and_upload_image u = Ret photo ->
           combined_text (i :: more) = Ret t ->
           convert_ocr_to_json t = Ret d ->
           has_key "error" d = false ->
           invoice_create (get2 "periodo_facturacion" "inicio" d)
                          (get2 "periodo_facturacion" "fin" d)
                          d (Some photo) = Raise e ->
           post (Some f)
           = ServerError "Error al guardar los datos en la base de datos." e).
Proof.
  intros rt C f i more e Hs Hi. unfold post, upload_first_page.
  rewrite Hs. simpl. rewrite Hi. simpl. split; [|split].
  - intros Hu. rewrite Hu. reflexivity.
  - intros u Hu Hp. rewrite Hu. simpl. rewrite Hp. reflexivity.
  - intros u photo t d Hu Hp Ht Hd Hk Hc. rewrite Hu. simpl.
    rewrite Hp. simpl. rewrite Ht. simpl. rewrite Hd. simpl.
    unfold save_invoice. rewrite Hk. simpl. rewrite Hc. reflexivity.
Qed.

(** The database of [fragile] fails on a recognized invoice. *)
Definition fragile_endesa : Collaborators := {|
  pdf := unit;
  page := str;
  image := str;
  gray := str;
  upload := str;
  url := str;
  store_temp := fun _ => Ret tt;
  fitz_open := fun _ => Ret [utf8 "Endesa"];
  render := fun p => Ret p;
  fitz_close := fun _ => Ret tt;
  cv2_enhance := fun i => Ret i;
  tesseract := fun g => Ret g;
  to_png_upload := fun i => Ret i;
  process_and_upload_image := fun u => Ret u;
  invoice_create := fun _ _ _ _ =>
                      Raise (OtherError (utf8 "database is down"));
  remove_temp := fun _ => Ret tt
|}.

Lemma post_failure_reports_witness :
  @post Latin1.runtime fragile_endesa (Some tt)
  = ServerError "Error al guardar los datos en la base de datos."
                (OtherError (utf8 "database is down")).
Proof.
  destruct (post_failure_reports Latin1.runtime fragile_endesa tt
              (utf8 "Endesa") [] (OtherError (utf8 "database is down"))
              eq_refl eq_refl) as (_ & _ & H).
  eapply (H (utf8 "Endesa") (utf8 "Endesa")).
  - reflexivity.
  - reflexivity.
  - vm_compute. reflexivity.
  - vm_compute. reflexivity.
  - vm_compute. reflexivity.
  - reflexivity.
Defined.

End StageFacts.

(** ** The upload validator *)

Module SerializerFacts.
Import Serializer.

Lemma str_eqb_eq (a b : str) : str_eqb a b = true <-> a = b.
Proof.
  revert b. induction a as [|x a IH]; intros [|y b]; simpl;
    try (split; [discriminate | discriminate]); [tauto|].
  rewrite andb_true_iff, StrFacts.cp_eqb_eq, IH.
  split; [intros [-> ->]; reflexivity | intros H; injection H; auto].
Qed.

Lemma ends_with_iff (p s : str) :
  ends_with p s = true <-> exists stem, s = stem ++ p.
Proof.
  unfold ends_with. rewrite StrFacts.starts_with_iff. split.
  - intros [b Hb]. exists (rev b).
    rewrite <- (rev_involutive s), Hb, rev_app_distr, rev_involutive.
    reflexivity.
  - intros [stem ->]. exists (rev stem). now rewrite rev_app_distr.
Qed.

(** X6.  [validate_file] returns a file, unchanged, exactly when the
    file is at most 5 MiB, its content type is [application/pdf], the
    platform's table maps that type to [.pdf], and its name, lowered,
    ends with [.pdf]; and the size is checked before anything else, so
    a larger file is refused with the size message whatever its type
    and name are. *)
Theorem validate_file_accepts_exactly :
  forall (rt : Runtime) (guess_extension : str -> option str)
         (value : uploaded),
    (forall accepted,
        validate_file guess_extension value = Valid accepted <->
        accepted = value
        /\ (size value <= 5242880)%Z
        /\ content_type value = utf8 "application/pdf"
        /\ guess_extension (utf8 "application/pdf") = Some (utf8 ".pdf")
        /\ exists stem, str_lower (name value) = stem ++ utf8 ".pdf")
    /\ ((5242880 < size value)%Z ->
        validate_file guess_extension value
        = Invalid (utf8 "File size exceeds 5 MB.")).
Proof.
  intros rt guess value. unfold validate_file, max_size.
  change (5 * 1024 * 1024)%Z with 5242880%Z.
  split.
  - intros accepted.
    destruct (5242880 <? size value)%Z eqn:Es.
    { apply Z.ltb_lt in Es. split; [discriminate|]. intros (_ & H & _). lia. }
    apply Z.ltb_ge in Es.
    destruct (str_eqb (content_type value) (utf8 "application/pdf")) eqn:Ec;
      simpl.
    2:{ split; [discriminate|]. intros (_ & _ & H & _).
        apply str_eqb_eq in H. congruence. }
    apply str_eqb_eq in Ec. rewrite Ec.
    destruct (guess (utf8 "application/pdf")) as [[|c e]|] eqn:Eg.
    + split; [discriminate|]. intros (_ & _ & _ & H & _). discriminate.
    + destruct (str_eqb (c :: e) (utf8 ".pdf")) eqn:Ee; simpl.
      * apply str_eqb_eq in Ee.
        destruct (ends_with (utf8 ".pdf") (str_lower (name value))) eqn:En;
          simpl.
        -- apply ends_with_iff in En. split.
           ++ intros H. injection H as <-. rewrite Ee. auto.
           ++ intros (-> & _). reflexivity.
        -- split; [discriminate|]. intros (_ & _ & _ & _ & H).
           apply ends_with_iff in H. congruence.
      * split; [discriminate|]. intros (_ & _ & _ & H & _).
        assert (Hx : str_eqb (c :: e) (utf8 ".pdf") = true)
          by (apply str_eqb_eq; congruence).
        congruence.
    + split; [discriminate|]. intros (_ & _ & _ & H & _). discriminate.
  - intros H. apply Z.ltb_lt in H. now rewrite H.
Qed.

(** A file of exactly 5 MiB named in capitals. *)
Definition largest_pdf : uploaded := {|
  size := 5242880;
  content_type := utf8 "application/pdf";
  name := utf8 "FACTURA.PDF"
|}.

Definition pdf_table (t : str) : option str :=
  if str_eqb t (utf8 "application/pdf") then Some (utf8 ".pdf") else None.

Lemma validate_file_accepts_exactly_witness :
  @validate_file Latin1.runtime pdf_table largest_pdf = Valid largest_pdf
  /\ @validate_file Latin1.runtime pdf_table
       {| size := 5242881; content_type := utf8 "image/png";
          name := utf8 "x" |}
     = Invalid (utf8 "File size exceeds 5 MB.").
Proof.
  split.
  - apply (proj1 (validate_file_accepts_exactly Latin1.runtime pdf_table
                    largest_pdf)).
    split; [reflexivity|]. split; [vm_compute; discriminate|].
    split; [reflexivity|]. split; [reflexivity|].
    exists (utf8 "factura"). vm_compute. reflexivity.
  - apply (proj2 (validate_file_accepts_exactly Latin1.runtime pdf_table _)).
    vm_compute. reflexivity.
Defined.

End SerializerFacts.

(** ** The views that read an invoice *)

Module InvoiceViewFacts.
Import InvoiceViews.

Section Facts.
Variable user : Type.
Variable user_eqb : user -> user -> bool.

Lemma owned_by_in (rows : list (invoice user)) (id : Z) (u : user)
      (i : invoice user) :
  In i (owned_by user_eqb rows id u) ->
  In i rows /\ pk i = id /\ user_eqb (owner i) u = true.
Proof.
  unfold owned_by. rewrite filter_In, andb_true_iff, Z.eqb_eq. tauto.
Qed.

Lemma owned_by_none (rows : list (invoice user)) (id : Z) (u : user) :
  (forall i, In i rows -> pk i = id -> user_eqb (owner i) u = false) ->
  owned_by user_eqb rows id u = [].
Proof.
  intros H. unfold owned_by. induction rows as [|i rows IH]; simpl;
    [reflexivity|].
  destruct (Z.eqb (pk i) id) eqn:E; simpl.
  - apply Z.eqb_eq in E. rewrite (H i (or_introl eq_refl) E).
    apply IH. intros j Hj. apply H. now right.
  - apply IH. intros j Hj. apply H. now right.
Qed.

End Facts.

(** X7.  [InvoiceImageView.get] discloses an image URL only of an
    invoice that has the requested id and belongs to the requesting
    user; and for an id whose invoices all belong to others the answer
    is the 404 of an id that does not exist. *)
Theorem image_url_only_for_owner :
  forall (user : Type) (user_eqb : user -> user -> bool)
         (table : exc (list (invoice user))) (u : user) (id : Z),
    (forall body,
        image_get user_eqb table u id = Ok body ->
        exists rows i,
          table = Ret rows /\ In i rows /\ pk i = id
          /\ user_eqb (owner i) u = true
          /\ body = image_found i)
    /\ (forall rows,
           table = Ret rows ->
           (forall i, In i rows -> pk i = id ->
                      user_eqb (owner i) u = false) ->
           image_get user_eqb table u id = NotFound (image_not_found id)
           /\ image_get user_eqb (Ret []) u id
              = NotFound (image_not_found id)).
Proof.
  intros user user_eqb table u id. split.
  - intros body H. unfold image_get in H.
    destruct table as [rows|e]; [|discriminate].
    destruct (owned_by user_eqb rows id u) as [|i rest] eqn:E;
      [discriminate|].
    injection H as <-.
    assert (Hin : In i (owned_by user_eqb rows id u))
      by (rewrite E; now left).
    apply owned_by_in in Hin as (Hr & Hp & Ho).
    exists rows, i. auto.
  - intros rows -> H. unfold image_get.
    rewrite (owned_by_none user user_eqb rows id u H). auto.
Qed.

(** Two users, and a table in which invoice 7 belongs to the second. *)
Definition table_of_bob : list (invoice bool) :=
  [ {| pk := 7; owner := false;
       image_url := Some (utf8 "https://res.example/7.png");
       data := VNone |} ].

Lemma image_url_only_for_owner_witness :
  image_get Bool.eqb (Ret table_of_bob) true 7
  = NotFound (image_not_found 7)
  /\ image_get Bool.eqb (Ret []) true 7 = NotFound (image_not_found 7).
Proof.
  apply (proj2 (image_url_only_for_owner bool Bool.eqb (Ret table_of_bob)
                  true 7) table_of_bob eq_refl).
  intros i [<-|[]] _. reflexivity.
Defined.

(** X8.  [InvoiceDetailView.get] answers 404 for an id whose invoices
    all belong to others, whatever the annotation helper would do, and
    answers 200 only when the requesting user owns an invoice of that
    id, which is then what the helper was given. *)
Theorem detail_only_for_owner :
  forall (user : Type) (user_eqb : user -> user -> bool)
         (annotate : list (invoice user)
                     -> exc (list (str * list (str * value))))
         (table : exc (list (invoice user))) (u : user) (id : Z),
    (forall rows,
        table = Ret rows ->
        (forall i, In i rows -> pk i = id ->
                   user_eqb (owner i) u = false) ->
        detail_get user_eqb annotate table u id
        = NotFound (detail_not_found id))
    /\ (forall body,
           detail_get user_eqb annotate table u id = Ok body ->
           exists rows i rest status fields more,
             table = Ret rows
             /\ owned_by user_eqb rows id u = i :: rest
             /\ In i rows /\ pk i = id /\ user_eqb (owner i) u = true
             /\ annotate (i :: rest) = Ret ((status, fields) :: more)
             /\ body = with_status status fields).
Proof.
  intros user user_eqb annotate table u id. split.
  - intros rows -> H. unfold detail_get.
    now rewrite (owned_by_none user user_eqb rows id u H).
  - intros body H. unfold detail_get in H.
    destruct table as [rows|e]; [|discriminate].
    destruct (owned_by user_eqb rows id u) as [|i rest] eqn:E;
      [discriminate|].
    destruct (annotate (i :: rest)) as [[|[status fields] more]|e] eqn:Ea;
      try discriminate.
    injection H as <-.
    assert (Hin : In i (owned_by user_eqb rows id u))
      by (rewrite E; now left).
    apply owned_by_in in Hin as (Hr & Hp & Ho).
    exists rows, i, rest, status, fields, more. auto 10.
Qed.

Lemma detail_only_for_owner_witness :
  detail_get Bool.eqb
    (fun q => Ret (map (fun i => (utf8 "Sin discrepancia", [])) q))
    (Ret table_of_bob) true 7
  = NotFound (detail_not_found 7).
Proof.
  apply (proj1 (detail_only_for_owner bool Bool.eqb _ (Ret table_of_bob)
                  true 7) table_of_bob eq_refl).
  intros i [<-|[]] _. reflexivity.
Defined.

End InvoiceViewFacts.

(** ** What a group can capture

    The language of a pattern, and the soundness of the matcher for it:
    the text a match consumes, and the text each of its groups
    captures, belong to the language of the pattern, respectively of
    the group. *)

Module ReLang.
Import Re ReFacts.

(** [n] words of [P], one after the other. *)
Inductive reps (P : str -> Prop) : nat -> str -> Prop :=
| reps_nil : reps P 0 []
| reps_cons (n : nat) (v w : str) :
    P v -> reps P n w -> reps P (S n) (v ++ w).

Section Lang.
Context {rt : Runtime}.
Variable fl : flags.

Inductive lang : re -> str -> Prop :=
| lang_empty : lang REmpty []
| lang_char (r : re) (c : N) : accepts fl r c = Some true -> lang r [c]
| lang_cat (r1 r2 : re) (w1 w2 : str) :
    lang r1 w1 -> lang r2 w2 -> lang (RCat r1 r2) (w1 ++ w2)
| lang_alt_l (r1 r2 : re) (w : str) : lang r1 w -> lang (RAlt r1 r2) w
| lang_alt_r (r1 r2 : re) (w : str) : lang r2 w -> lang (RAlt r1 r2) w
| lang_rep (greedy : bool) (lo : nat) (hi : option nat) (r : re)
           (n : nat) (w : str) :
    reps (lang r) n w -> lo <= n -> (forall h, hi = Some h -> n <= h) ->
    lang (RRep greedy lo hi r) w
| lang_group (i : nat) (r : re) (w : str) :
    lang r w -> lang (RGroup i r) w.

(** The matcher went from [cur] to [cur'] over the text [w]. *)
Definition consumed (cur : cursor) (w : str) (cur' : cursor) : Prop :=
  rest cur = w ++ rest cur' /\ pos cur' = pos cur + List.length w.

Lemma consumed_nil (cur : cursor) : consumed cur [] cur.
Proof. split; [reflexivity | simpl; lia]. Qed.

Lemma consumed_app (c1 c2 c3 : cursor) (w1 w2 : str) :
  consumed c1 w1 c2 -> consumed c2 w2 c3 -> consumed c1 (w1 ++ w2) c3.
Proof.
  intros [H1 P1] [H2 P2]. split.
  - now rewrite H1, H2, app_assoc.
  - rewrite length_app. lia.
Qed.

Lemma consumed_take (cur cur' : cursor) (w : str) :
  consumed cur w cur' -> take (pos cur' - pos cur) (rest cur) = w.
Proof.
  intros [H P]. unfold take. rewrite H, P.
  replace (pos cur + List.length w - pos cur) with (List.length w + 0)
    by lia.
  rewrite firstn_app_2. simpl. apply app_nil_r.
Qed.

(** The group under study and its pattern. *)
Variable target : nat.
Variable target_re : re.

(** Every group numbered [target] in [r] has the pattern [target_re]. *)
Fixpoint group_is (r : re) : Prop :=
  match r with
  | RGroup j r1 => (j = target -> r1 = target_re) /\ group_is r1
  | RCat r1 r2 => group_is r1 /\ group_is r2
  | RAlt r1 r2 => group_is r1 /\ group_is r2
  | RRep _ _ _ r1 => group_is r1
  | _ => True
  end.

Definition captured_ok (cs : captures) : Prop :=
  forall g, lookup_group target cs = Some g -> lang target_re g.

Section Run.
Variable A : Type.

Definition sound (L : str -> Prop)
           (body : cursor -> captures ->
                   (cursor -> captures -> option A) -> option A) : Prop :=
  forall cur cs k a,
    captured_ok cs -> body cur cs k = Some a ->
    exists w cur' cs',
      consumed cur w cur' /\ L w /\ captured_ok cs'
      /\ k cur' cs' = Some a.

Lemma rep_loop_sound (L : str -> Prop) body greedy lo hi k :
  sound L body ->
  forall fuel n cur cs a,
    captured_ok cs ->
    (forall h, hi = Some h -> n <= h) ->
    rep_loop body greedy lo hi k fuel n cur cs = Some a ->
    exists m w cur' cs',
      consumed cur w cur' /\ reps L m w
      /\ lo <= n + m /\ (forall h, hi = Some h -> n + m <= h)
      /\ captured_ok cs' /\ k cur' cs' = Some a.
Proof.
  intros Hb. induction fuel as [|fuel IH]; intros n cur cs a HQ Hhi H;
    [discriminate|].
  rewrite rep_loop_step in H. cbv zeta in H.
  assert (Hstop :
            (if Nat.leb lo n then k cur cs else None) = Some a ->
            exists m w cur' cs',
              consumed cur w cur' /\ reps L m w
              /\ lo <= n + m /\ (forall h, hi = Some h -> n + m <= h)
              /\ captured_ok cs' /\ k cur' cs' = Some a).
  { destruct (Nat.leb lo n) eqn:El; [|discriminate]. intros Hk.
    apply Nat.leb_le in El.
    exists 0, [], cur, cs. rewrite Nat.add_0_r.
    split; [apply consumed_nil|]. split; [constructor|].
    split; [exact El|]. split; [exact Hhi | auto]. }
  assert (Hmore :
            (if below n hi
             then body cur cs
                    (fun cur' cs' =>
                       if Nat.eqb (pos cur') (pos cur) && Nat.leb lo n
                       then None
                       else rep_loop body greedy lo hi k fuel (S n) cur' cs')
             else None) = Some a ->
            exists m w cur' cs',
              consumed cur w cur' /\ reps L m w
              /\ lo <= n + m /\ (forall h, hi = Some h -> n + m <= h)
              /\ captured_ok cs' /\ k cur' cs' = Some a).
  { destruct (below n hi) eqn:Eb; [|discriminate]. intros Hm.
    destruct (Hb _ _ _ _ HQ Hm) as (w1 & cur1 & cs1 & Hc1 & HL1 & HQ1 & Hk1).
    destruct (Nat.eqb (pos cur1) (pos cur) && Nat.leb lo n);
      [discriminate|].
    assert (Hhi' : forall h, hi = Some h -> S n <= h).
    { intros h ->. simpl in Eb. apply Nat.ltb_lt in Eb. lia. }
    destruct (IH _ _ _ _ HQ1 Hhi' Hk1)
      as (m & w & cur' & cs' & Hc & Hr & Hlo & Hh & HQ' & Hk).
    exists (S m), (w1 ++ w), cur', cs'.
    split; [eapply consumed_app; eauto|].
    split; [now constructor|].
    split; [lia|]. split; [|auto].
    intros h Eh. specialize (Hh h Eh). lia. }
  destruct greedy.
  - match type of H with
    | match ?m with _ => _ end = _ => destruct m eqn:Em
    end; [injection H as ->; auto | auto].
  - match type of H with
    | match ?m with _ => _ end = _ => destruct m eqn:Em
    end; [injection H as ->; auto | auto].
Qed.

Lemma step_consumed (r : re) (cur cur' : cursor) :
  step fl r cur = Some cur' ->
  exists c, consumed cur [c] cur' /\ accepts fl r c = Some true.
Proof.
  unfold step, advance. destruct (rest cur) as [|c s] eqn:E;
    [discriminate|].
  destruct (accepts fl r c) as [[|]|] eqn:Ea; try discriminate.
  intros H. injection H as <-. exists c. split; [|exact Ea].
  split; simpl; [exact E | lia].
Qed.

Lemma run_sound (r : re) :
  group_is r -> sound (lang r) (run fl (A:=A) r).
Proof.
  induction r; intros Hg cur cs k a HQ H; cbn [run] in H;
    try (destruct (step fl _ cur) as [cur'|] eqn:Es; [|discriminate];
         destruct (step_consumed _ _ _ Es) as (ch & Hc & Ha);
         exists [ch], cur', cs;
         split; [exact Hc|]; split; [now apply lang_char | auto]).
  - exists [], cur, cs. split; [apply consumed_nil|].
    split; [constructor | auto].
  - destruct Hg as [Hg1 Hg2].
    destruct (IHr1 Hg1 _ _ _ _ HQ H) as (w1 & c1 & cs1 & Hc1 & HL1 & HQ1 & H1).
    destruct (IHr2 Hg2 _ _ _ _ HQ1 H1) as (w2 & c2 & cs2 & Hc2 & HL2 & HQ2 & H2).
    exists (w1 ++ w2), c2, cs2.
    split; [eapply consumed_app; eauto|].
    split; [now constructor | auto].
  - destruct Hg as [Hg1 Hg2].
    destruct (run fl r1 cur cs k) eqn:E1.
    + injection H as ->.
      destruct (IHr1 Hg1 _ _ _ _ HQ E1) as (w & c1 & cs1 & Hc & HL & HQ1 & H1).
      exists w, c1, cs1. auto using lang_alt_l.
    + destruct (IHr2 Hg2 _ _ _ _ HQ H) as (w & c1 & cs1 & Hc & HL & HQ1 & H1).
      exists w, c1, cs1. auto using lang_alt_r.
  - simpl in Hg.
    destruct (rep_loop_sound (lang r) (run fl r) greedy lo hi k
                (IHr Hg) _ 0 _ _ _ HQ
                ltac:(intros; lia) H)
      as (m & w & cur' & cs' & Hc & Hr & Hlo & Hh & HQ' & Hk).
    exists w, cur', cs'. split; [exact Hc|]. split; [|auto].
    econstructor; eauto.
  - destruct Hg as [Hi Hg].
    destruct (IHr Hg _ _ _ _ HQ H) as (w & c1 & cs1 & Hc & HL & HQ1 & H1).
    rewrite (consumed_take _ _ _ Hc) in H1.
    exists w, c1, ((idx, w) :: cs1).
    split; [exact Hc|]. split; [now constructor|]. split; [|exact H1].
    intros g. simpl. destruct (Nat.eqb idx target) eqn:Ei.
    + apply Nat.eqb_eq in Ei. intros E. injection E as <-.
      now rewrite <- (Hi Ei).
    + apply HQ1.
Qed.

End Run.

Lemma match_at_captures (r : re) (cur : cursor) (m : match_obj) (g : str) :
  group_is r -> match_at fl r cur = Some m ->
  group m target = Some g -> lang target_re g.
Proof.
  intros Hg H. unfold match_at in H.
  assert (H0 : captured_ok []) by (intros g0 E; discriminate).
  destruct (run_sound _ r Hg _ _ _ _ H0 H)
    as (w & cur' & cs' & _ & _ & HQ & Hk).
  injection Hk as <-. apply HQ.
Qed.

Lemma scan_captures (r : re) (fuel : nat) (cur : cursor)
      (m : match_obj) (g : str) :
  group_is r -> scan fl r fuel cur = Some m ->
  group m target = Some g -> lang target_re g.
Proof.
  intros Hg. revert cur. induction fuel as [|fuel IH]; intros cur H;
    simpl in H; destruct (match_at fl r cur) eqn:E.
  - injection H as <-. eapply match_at_captures; eauto.
  - discriminate.
  - injection H as <-. eapply match_at_captures; eauto.
  - destruct (advance cur) as [[c cur']|]; [eauto | discriminate].
Qed.

Lemma search_captures (r : re) (s : str) (m : match_obj) (g : str) :
  group_is r -> search fl r s = Some m ->
  group m target = Some g -> lang target_re g.
Proof. intros Hg H. eapply scan_captures; eauto. Qed.

Lemma finditer_from_captures (r : re) (fuel : nat) (cur : cursor) :
  group_is r ->
  Forall (fun m => forall g, group m target = Some g -> lang target_re g)
         (finditer_from fl r fuel cur).
Proof.
  intros Hg. revert cur. induction fuel as [|fuel IH]; intros cur; simpl;
    [constructor|].
  destruct (scan fl r (List.length (rest cur)) cur) as [m|] eqn:E;
    [|constructor].
  assert (Hm : forall g, group m target = Some g -> lang target_re g)
    by (intros g; eapply scan_captures; eauto).
  destruct (Nat.eqb (m_end m) (m_start m)).
  - destruct (drop (m_end m - pos cur) (rest cur)); constructor; auto.
  - constructor; auto.
Qed.

End Lang.
End ReLang.

(** ** Numbers in captures *)

Module NumShape.
Import Re ReLang PyNum.

(** The four characters [+ , - .] are not decimal digits. *)
Definition plain_punctuation (rt : Runtime) : Prop :=
  is_decimal 43 = false /\ is_decimal 44 = false
  /\ is_decimal 45 = false /\ is_decimal 46 = false.

Lemma compatible_plain (rt : Runtime) :
  Compat.latin1_compatible rt -> plain_punctuation rt.
Proof.
  intros H. unfold plain_punctuation.
  rewrite !(Compat.compat_decimal H) by (unfold Compat.small; lia).
  repeat split.
Qed.

Section Shape.
Context {rt : Runtime}.

Definition digits (s : str) : Prop := Forall (fun c => is_decimal c = true) s.

Lemma digits_app (a b : str) : digits a -> digits b -> digits (a ++ b).
Proof. apply Forall_app_2 || (intros; apply Forall_app; auto). Qed.

Lemma span_decimal_digits (d : str) :
  digits d -> span_decimal d = (d, []).
Proof.
  induction 1 as [|c d Hc Hd IH]; simpl; [reflexivity|].
  now rewrite Hc, IH.
Qed.

Lemma span_decimal_stop (d : str) (c : N) (r : str) :
  digits d -> is_decimal c = false ->
  span_decimal (d ++ c :: r) = (d, c :: r).
Proof.
  intros Hd Hc. induction Hd as [|x d Hx Hd IH]; simpl.
  - now rewrite Hc.
  - now rewrite Hx, IH.
Qed.

(** [float()] after the sign. *)
Definition float_body (neg : bool) (body : str) : exc float :=
  let '(ip, r1) := span_decimal body in
  let '(fp, r2) :=
    match r1 with
    | 46%N :: r => span_decimal r
    | _ => ([], r1)
    end in
  match r2, ip ++ fp with
  | [], _ :: _ =>
      Ret (of_decimal neg (digits_value (ip ++ fp)) (List.length fp))
  | _, _ => Raise ValueError
  end.

Lemma py_float_minus (r : str) : py_float (45%N :: r) = float_body true r.
Proof. reflexivity. Qed.

Lemma py_float_unsigned (x : N) (r : str) :
  x <> 45%N -> x <> 43%N -> py_float (x :: r) = float_body false (x :: r).
Proof.
  intros H45 H43. unfold py_float, float_body.
  destruct x as [|p]; [reflexivity|].
  do 6 (destruct p as [p|p|]; try reflexivity); congruence.
Qed.

Lemma py_float_of_digit_start (x : N) (r : str) :
  plain_punctuation rt -> is_decimal x = true ->
  py_float (x :: r) = float_body false (x :: r).
Proof.
  intros (H43 & _ & H45 & _) Hx. apply py_float_unsigned; congruence.
Qed.

Lemma float_body_decimal (neg : bool) (ip fp : str) :
  plain_punctuation rt -> digits ip -> digits fp -> ip ++ fp <> [] ->
  returns (float_body neg (ip ++ 46%N :: fp)).
Proof.
  intros (_ & _ & _ & H46) Hi Hf Hne. unfold float_body.
  rewrite (span_decimal_stop ip 46 fp Hi H46).
  rewrite (span_decimal_digits fp Hf).
  destruct (ip ++ fp); [congruence|]. eexists. reflexivity.
Qed.

(** [float()] raises nothing but [ValueError]. *)
Lemma py_float_error (s : str) (e : exn) :
  py_float s = Raise e -> e = ValueError.
Proof.
  unfold py_float.
  destruct (match s with
            | 45%N :: r => (true, r)
            | 43%N :: r => (false, r)
            | _ => (false, s)
            end) as [neg body].
  destruct (span_decimal body) as [ip r1].
  destruct (match r1 with
            | 46%N :: r => span_decimal r
            | _ => ([], r1)
            end) as [fp r2].
  destruct r2, (ip ++ fp); intros H; congruence.
Qed.

Lemma py_int_error (s : str) (e : exn) :
  py_int s = Raise e -> e = ValueError.
Proof.
  unfold py_int. destruct (span_decimal s) as [ds r].
  destruct ds, r; try (intros H; congruence).
  destruct (_ && _); intros H; congruence.
Qed.

(** [int()] of a run of digits fails only on the length limit. *)
Lemma py_int_digits (s : str) :
  digits s -> s <> [] ->
  py_int s =
  if Nat.ltb 0 int_max_str_digits
     && Nat.ltb int_max_str_digits (List.length s)
  then Raise ValueError
  else Ret (digits_value s).
Proof.
  intros Hd Hne. unfold py_int. rewrite (span_decimal_digits s Hd).
  destruct s; [congruence | reflexivity].
Qed.

(** *** Replacement *)

Lemma replace_app (old : N) (new a b : str) :
  replace old new (a ++ b) = replace old new a ++ replace old new b.
Proof. apply flat_map_app. Qed.

Lemma replace_absent (old : N) (new s : str) :
  Forall (fun c => c <> old) s -> replace old new s = s.
Proof.
  induction 1 as [|c s Hc Hs IH]; simpl; [reflexivity|].
  unfold cp_eqb. destruct (N.eqb_spec c old); [contradiction|].
  simpl. now f_equal.
Qed.

Lemma digits_without (old : N) (s : str) :
  is_decimal old = false -> digits s -> Forall (fun c => c <> old) s.
Proof.
  intros Ho. apply Forall_impl. intros c Hc ->. congruence.
Qed.

Lemma replace_digits (old : N) (new s : str) :
  is_decimal old = false -> digits s -> replace old new s = s.
Proof. intros Ho Hd. eauto using replace_absent, digits_without. Qed.

(** *** The languages of the numeric groups *)

Variable fl : flags.

Lemma lang_cat_inv (r1 r2 : re) (w : str) :
  lang fl (RCat r1 r2) w ->
  exists w1 w2, w = w1 ++ w2 /\ lang fl r1 w1 /\ lang fl r2 w2.
Proof.
  intros H. inversion H; subst; [simpl in *; discriminate | eauto].
Qed.

Lemma lang_rep_inv (greedy : bool) (lo : nat) (hi : option nat) (r : re)
      (w : str) :
  lang fl (RRep greedy lo hi r) w ->
  exists n, reps (lang fl r) n w /\ lo <= n
            /\ (forall h, hi = Some h -> n <= h).
Proof.
  intros H. inversion H; subst; [simpl in *; discriminate | eauto].
Qed.

Lemma lang_digit (w : str) :
  lang fl RDigit w -> exists c, w = [c] /\ is_decimal c = true.
Proof.
  intros H. inversion H; subst. simpl in *. exists c. split; congruence.
Qed.

Lemma reps_digit (n : nat) (w : str) :
  reps (lang fl RDigit) n w -> digits w /\ List.length w = n.
Proof.
  induction 1 as [|n v w Hv Hw [IHd IHl]]; [split; [constructor|reflexivity]|].
  destruct (lang_digit v Hv) as (c & -> & Hc). simpl.
  split; [now constructor | now f_equal].
Qed.

Lemma lang_digits (greedy : bool) (lo : nat) (hi : option nat) (w : str) :
  lang fl (RRep greedy lo hi RDigit) w ->
  digits w /\ lo <= List.length w.
Proof.
  intros H. apply lang_rep_inv in H as (n & Hr & Hlo & _).
  destruct (reps_digit _ _ Hr) as [Hd Hl]. split; [exact Hd | lia].
Qed.

End Shape.

Section Plain.
Context {rt : Runtime}.

(** Without [re.IGNORECASE] a literal matches itself only. *)
Lemma lang_literal (p : N) (w : str) :
  lang no_flags (RChar p) w -> w = [p].
Proof.
  intros H. inversion H; subst. simpl in *.
  unfold char_eq in *. simpl in *.
  destruct (N.eqb_spec p c); congruence.
Qed.

(** [\d{1,3}(?:\.\d{3})*,\d{2}] *)
Definition amount_re : re :=
  RCat (RRep true 1 (Some 3) RDigit)
       (RCat (RRep true 0 None
                (RCat (RChar 46) (RRep true 3 (Some 3) RDigit)))
             (RCat (RChar 44) (RRep true 2 (Some 2) RDigit))).

(** [\d{1,3},\d{2}] *)
Definition short_amount_re : re :=
  RCat (RRep true 1 (Some 3) RDigit)
       (RCat (RChar 44) (RRep true 2 (Some 2) RDigit)).

(** An optional minus sign before [r]. *)
Definition signed (r : re) : re := RCat (RRep true 0 (Some 1) (RChar 45)) r.

Lemma thousands_digits (n : nat) (w : str) :
  plain_punctuation rt ->
  reps (lang no_flags (RCat (RChar 46) (RRep true 3 (Some 3) RDigit))) n w ->
  digits (replace 46 [] w).
Proof.
  intros Hp. induction 1 as [|n v w Hv Hw IH]; [constructor|].
  apply lang_cat_inv in Hv as (a & d & -> & Ha & Hd).
  apply lang_literal in Ha as ->.
  apply lang_digits in Hd as [Hd _].
  rewrite !replace_app. simpl.
  rewrite (replace_digits 46 [] d) by (auto; apply Hp).
  now apply digits_app.
Qed.

(** The Spanish normalization of an amount is a decimal numeral. *)
Lemma amount_normalized (w : str) :
  plain_punctuation rt ->
  lang no_flags amount_re w ->
  exists ip fp,
    normalize_es w = ip ++ 46%N :: fp
    /\ digits ip /\ digits fp /\ ip <> [].
Proof.
  intros Hp H. pose proof Hp as (H43 & H44 & H45 & H46).
  unfold amount_re in H.
  apply lang_cat_inv in H as (w1 & x1 & -> & Hw1 & H).
  apply lang_cat_inv in H as (w0 & x2 & -> & Hw0 & H).
  apply lang_cat_inv in H as (c & w3 & -> & Hc & Hw3).
  apply lang_digits in Hw1 as [Hd1 Hl1].
  apply lang_rep_inv in Hw0 as (n & Hr & _ & _).
  pose proof (thousands_digits _ _ Hp Hr) as Ht.
  apply lang_literal in Hc as ->.
  apply lang_digits in Hw3 as [Hd2 _].
  exists (w1 ++ replace 46 [] w0), w3.
  unfold normalize_es.
  rewrite !replace_app.
  rewrite (replace_digits 46 [] w1), (replace_digits 46 [] w3) by auto.
  rewrite (replace_digits 44 [46%N] w1), (replace_digits 44 [46%N] w3),
    (replace_digits 44 [46%N] (replace 46 [] w0)) by auto.
  simpl.
  split; [now rewrite <- app_assoc|].
  split; [now apply digits_app|]. split; [exact Hd2|].
  destruct w1; [simpl in Hl1; lia | discriminate].
Qed.

Lemma float_es_amount (w : str) :
  plain_punctuation rt -> lang no_flags amount_re w ->
  returns (float_es w).
Proof.
  intros Hp H.
  destruct (amount_normalized w Hp H) as (ip & fp & E & Hi & Hf & Hne).
  unfold float_es. rewrite E.
  destruct ip as [|x ip]; [congruence|].
  pose proof (Forall_inv Hi) as Hx. simpl in Hx. simpl.
  rewrite (py_float_of_digit_start x _ Hp Hx).
  apply (float_body_decimal false (x :: ip) fp Hp Hi Hf). discriminate.
Qed.

(** The optional minus sign. *)
Lemma lang_optional_minus (w : str) :
  lang no_flags (RRep true 0 (Some 1) (RChar 45)) w ->
  w = [] \/ w = [45%N].
Proof.
  intros H. apply lang_rep_inv in H as (n & Hr & _ & Hh).
  specialize (Hh 1 eq_refl).
  destruct Hr as [|n v w Hv Hw]; [now left|].
  apply lang_literal in Hv as ->.
  destruct Hw as [|n v w Hv Hw]; [now right | lia].
Qed.

Lemma float_es_signed_amount (w : str) :
  plain_punctuation rt -> lang no_flags (signed amount_re) w ->
  returns (float_es w).
Proof.
  intros Hp H. unfold signed in H.
  apply lang_cat_inv in H as (sg & w2 & -> & Hs & H4).
  destruct (lang_optional_minus _ Hs) as [->| ->].
  - now apply float_es_amount.
  - destruct (amount_normalized w2 Hp H4) as (ip & fp & E & Hi & Hf & Hne).
    unfold float_es, normalize_es in *. simpl.
    rewrite E. rewrite py_float_minus.
    apply float_body_decimal; auto.
    destruct ip; [congruence | discriminate].
Qed.

Lemma short_amount_normalized (w : str) :
  plain_punctuation rt ->
  lang no_flags short_amount_re w ->
  exists ip fp,
    normalize_comma w = ip ++ 46%N :: fp
    /\ digits ip /\ digits fp /\ ip <> [].
Proof.
  intros Hp H. pose proof Hp as (H43 & H44 & H45 & H46).
  unfold short_amount_re in H.
  apply lang_cat_inv in H as (w1 & x1 & -> & Hw1 & H).
  apply lang_cat_inv in H as (c & w3 & -> & Hc & Hw3).
  apply lang_digits in Hw1 as [Hd1 Hl1].
  apply lang_literal in Hc as ->.
  apply lang_digits in Hw3 as [Hd2 _].
  exists w1, w3. unfold normalize_comma.
  rewrite !replace_app. simpl.
  rewrite (replace_digits 44 [46%N] w1), (replace_digits 44 [46%N] w3)
    by auto.
  repeat split; auto.
  destruct w1; [simpl in Hl1; lia | discriminate].
Qed.

Lemma float_comma_short_amount (w : str) :
  plain_punctuation rt -> lang no_flags short_amount_re w ->
  returns (float_comma w).
Proof.
  intros Hp H.
  destruct (short_amount_normalized w Hp H) as (ip & fp & E & Hi & Hf & Hne).
  unfold float_comma. rewrite E.
  destruct ip as [|x ip]; [congruence|].
  pose proof (Forall_inv Hi) as Hx. simpl in Hx. simpl.
  rewrite (py_float_of_digit_start x _ Hp Hx).
  apply (float_body_decimal false (x :: ip) fp Hp Hi Hf). discriminate.
Qed.

Lemma float_comma_signed_short_amount (w : str) :
  plain_punctuation rt -> lang no_flags (signed short_amount_re) w ->
  returns (float_comma w).
Proof.
  intros Hp H. unfold signed in H.
  apply lang_cat_inv in H as (sg & w2 & -> & Hs & H4).
  destruct (lang_optional_minus _ Hs) as [->| ->].
  - now apply float_comma_short_amount.
  - destruct (short_amount_normalized w2 Hp H4)
      as (ip & fp & E & Hi & Hf & Hne).
    unfold float_comma, normalize_comma in *. simpl.
    rewrite E. rewrite py_float_minus.
    apply float_body_decimal; auto.
    destruct ip; [congruence | discriminate].
Qed.

End Plain.
End NumShape.

(** ** When an extraction method gives up *)

Module FieldFacts.
Import Re ReGroups ReLang NumShape.

(** An exception was raised. *)
Definition failed {A} (m : exc A) : bool :=
  match m with Raise _ => true | Ret _ => false end.

Lemma failed_raises {A} (m : exc A) : failed m = true <-> raises m.
Proof.
  destruct m; simpl; split; try discriminate.
  - intros [e' H]. discriminate.
  - intros _. now exists e.
  - reflexivity.
Qed.

Lemma record_is_not_error
      (a b c d e f g h i j k l m n o p q r : value) (msg : string) :
  invoice_record a b c d e f g h i j k l m n o p q r <> error_dict msg.
Proof.
  intros H. apply (f_equal keys) in H. vm_compute in H. discriminate.
Qed.

Section Fields.
Context {rt : Runtime}.

Lemma search_group (fl : flags) (p : string) (text : str) (m : match_obj)
      (n : nat) :
  binds n (pattern p) = true ->
  re_search fl p text = Some m ->
  exists g, group m n = Some g.
Proof.
  intros Hb H. pose proof (search_binds fl n _ _ _ Hb H) as Hg.
  destruct (group m n) as [g|]; [now exists g | congruence].
Qed.

Lemma reformat_dmy_error (s : str) (e : exn) :
  reformat_dmy s = Raise e -> e = ValueError.
Proof.
  unfold reformat_dmy, PyDate.strptime_dmy.
  destruct (match_ IGNORECASE PyDate.dmy_format s) as [m|]; simpl;
    [|congruence].
  destruct (negb _); simpl; [congruence|].
  destruct (group m 1), (group m 2), (group m 3); simpl; try congruence.
  destruct (_ && _); simpl; congruence.
Qed.

(** A string field: [m.group(1).strip() if m else None]. *)
Lemma text_field_returns (fl : flags) (p : string) (text : str) :
  binds 1 (pattern p) = true ->
  returns (match re_search fl p text with
           | Some m => bind (group_strip m 1) (fun g => Ret (VStr g))
           | None => Ret VNone
           end).
Proof.
  intros Hb. destruct (re_search fl p text) as [m|] eqn:E;
    [|eexists; reflexivity].
  destruct (search_group fl p text m 1 Hb E) as [g Hg].
  unfold group_strip, group_recv. rewrite Hg. simpl. eexists. reflexivity.
Qed.

(** A date field converted under [except ValueError]. *)
Lemma date_field_returns (fl : flags) (p : string) (text : str) :
  binds 1 (pattern p) = true ->
  returns (match re_search fl p text with
           | Some m =>
               try_ValueError
                 (bind (group_arg m 1)
                    (fun g => bind (reformat_dmy g)
                                (fun d => Ret (VStr d))))
                 (Ret VNone)
           | None => Ret VNone
           end).
Proof.
  intros Hb. destruct (re_search fl p text) as [m|] eqn:E;
    [|eexists; reflexivity].
  destruct (search_group fl p text m 1 Hb E) as [g Hg].
  unfold group_arg. rewrite Hg. simpl.
  destruct (reformat_dmy g) as [d|e] eqn:Ed; simpl;
    [eexists; reflexivity|].
  rewrite (reformat_dmy_error g e Ed). eexists. reflexivity.
Qed.

End Fields.

(** The first group of a successful search. *)
Ltac first_group E g Hg :=
  match type of E with
  | re_search ?fl ?p ?t = Some ?m =>
      destruct (search_group fl p t m 1 eq_refl E) as [g Hg]
  end.

End FieldFacts.

(** *** Lidera *)

Module LideraFacts.
Import Re ReGroups ReLang NumShape FieldFacts Lidera.

Section Lidera.
Context {rt : Runtime}.

Lemma nombre_cliente_returns (text : str) : returns (nombre_cliente text).
Proof. apply text_field_returns. reflexivity. Qed.

Lemma try_Exception_value {A} (m : exc A) (d : A) :
  returns (try_Exception m (fun _ => Ret d)).
Proof. destruct m; eexists; reflexivity. Qed.

(** A heading followed by a capture that [float()] refuses once
    normalized. *)
Definition malformed (p : string) (normalize : str -> str) (text : str)
  : Prop :=
  exists m g,
    re_search IGNORECASE p text = Some m
    /\ group m 1 = Some g
    /\ PyNum.py_float (normalize g) = Raise ValueError.

Lemma impuestos_failed (text : str) :
  failed (impuestos text) = true
  <-> malformed "Impuesto Electricidad\n\n([\d.,]+)" normalize_comma text.
Proof.
  unfold impuestos, malformed.
  destruct (re_search IGNORECASE _ text) as [m|] eqn:E.
  - first_group E g Hg.
    unfold group_recv, float_comma. rewrite Hg. simpl.
    destruct (PyNum.py_float (normalize_comma g)) as [f|e] eqn:Ef; simpl.
    + split; [discriminate|]. intros (m' & g' & Hm & Hg' & Hf).
      injection Hm as <-. rewrite Hg in Hg'. injection Hg' as <-.
      congruence.
    + split; [|reflexivity]. intros _. exists m, g.
      rewrite (py_float_error _ _ Ef) in Ef. auto.
  - simpl. split; [discriminate|]. intros (m' & g' & Hm & _). discriminate.
Qed.

Lemma total_failed (text : str) :
  failed (total_a_pagar text) = true
  <-> malformed "TOTAL IMPORTE FACTURA\n\n([\d.,]+)" normalize_total text.
Proof.
  unfold total_a_pagar, malformed.
  destruct (re_search IGNORECASE _ text) as [m|] eqn:E.
  - first_group E g Hg.
    unfold group_recv. rewrite Hg. simpl.
    destruct (PyNum.py_float (normalize_total g)) as [f|e] eqn:Ef; simpl.
    + split; [discriminate|]. intros (m' & g' & Hm & Hg' & Hf).
      injection Hm as <-. rewrite Hg in Hg'. injection Hg' as <-.
      congruence.
    + split; [|reflexivity]. intros _. exists m, g.
      rewrite (py_float_error _ _ Ef) in Ef. auto.
  - simpl. split; [discriminate|]. intros (m' & g' & Hm & _). discriminate.
Qed.

Lemma body_failed (text : str) :
  failed (body text)
  = failed (impuestos text) || failed (total_a_pagar text).
Proof.
  unfold body.
  destruct (nombre_cliente_returns text) as [v1 ->]. simpl.
  destruct (try_Exception_value
              (match re_search no_flags
                       "Referencia del contrato de sumi\n\ntro \(LIDERA COMERCIALIZADORA ENERGIA\):\s*(.+)"
                       text with
               | Some m => bind (group_strip m 1) (fun g => Ret (VStr g))
               | None => Ret VNone
               end) VNone) as [v2 H2].
  unfold numero_referencia. rewrite H2. simpl.
  unfold fecha_emision at 1.
  match goal with
  | |- context [try_Exception ?m (fun _ => Ret VNone)] =>
      destruct (try_Exception_value m VNone) as [v3 ->]
  end. simpl.
  unfold periodo at 1.
  match goal with
  | |- context [try_Exception ?m (fun _ => Ret (VNone, VNone))] =>
      destruct (try_Exception_value m (VNone, VNone)) as [[v4 v5] ->]
  end. simpl.
  unfold dias at 1.
  match goal with
  | |- context [try_Exception ?m (fun _ => Ret VNone)] =>
      destruct (try_Exception_value m VNone) as [v6 ->]
  end. simpl.
  unfold forma_pago at 1.
  match goal with
  | |- context [try_Exception ?m (fun _ => Ret VNone)] =>
      destruct (try_Exception_value m VNone) as [v7 ->]
  end. simpl.
  unfold fecha_cargo at 1.
  match goal with
  | |- context [try_Exception ?m (fun _ => Ret VNone)] =>
      destruct (try_Exception_value m VNone) as [v8 ->]
  end. simpl.
  destruct (impuestos text) as [v9|e9]; simpl; [|reflexivity].
  destruct (total_a_pagar text) as [v10|e10]; simpl; [|reflexivity].
  unfold extract_costo_potencia.
  match goal with
  | |- context [try_Exception ?m (fun _ => Ret (VFloat zero))] =>
      destruct (try_Exception_value m (VFloat zero)) as [v11 ->]
  end. reflexivity.
Qed.

Lemma body_record (text : str) (r : value) :
  body text = Ret r ->
  exists a b c d e f g h i j k l m n o p q s,
    r = invoice_record a b c d e f g h i j k l m n o p q s.
Proof.
  unfold body.
  repeat match goal with
         | |- context [bind ?m _] => destruct m; simpl; try discriminate
         | x : (value * value)%type |- _ => destruct x
         end;
    intros H; try discriminate H;
    injection H as <-; do 18 eexists; reflexivity.
Qed.

End Lidera.

(** X9.  [extract_lidera_data] gives up, returning its error
    dictionary, exactly when the text has the heading [Impuesto
    Electricidad] or [TOTAL IMPORTE FACTURA] followed, after a blank
    line, by digits, points and commas that are not a number once
    normalized (these two conversions are the only ones outside a
    [try]); for every other text it returns a record. *)
Theorem lidera_gives_up_exactly :
  forall (rt : Runtime) (text : str),
    (extract_lidera_data text = Ret (error_dict error_message)
     <-> malformed "Impuesto Electricidad\n\n([\d.,]+)" normalize_comma text
         \/ malformed "TOTAL IMPORTE FACTURA\n\n([\d.,]+)" normalize_total
                      text)
    /\ (extract_lidera_data text = Ret (error_dict error_message)
        \/ exists r, body text = Ret r /\ extract_lidera_data text = Ret r).
Proof.
  intros rt text.
  rewrite <- impuestos_failed, <- total_failed, <- orb_true_iff,
    <- body_failed.
  unfold extract_lidera_data.
  destruct (body text) as [r|e] eqn:Eb; simpl.
  - split; [|right; eauto]. split; [|discriminate].
    intros H. injection H as ->. exfalso.
    destruct (body_record text _ Eb)
      as (a & b & c & d & e & f & g & h & i & j & k & l & m & n & o & p
          & q & s & H).
    symmetry in H. now apply record_is_not_error in H.
  - split; [|now left]. split; reflexivity.
Qed.

(** An invoice whose tax amount has a thousands separator. *)
Definition lidera_sample : str := utf8 "LIDERA COMERCIALIZADORA ENERGIA
Impuesto Electricidad

1.234,56
".

Lemma lidera_gives_up_exactly_witness :
  @extract_lidera_data Latin1.runtime lidera_sample
  = Ret (error_dict error_message).
Proof.
  apply (proj1 (lidera_gives_up_exactly Latin1.runtime lidera_sample)).
  left. eexists _, _. split; [vm_compute; reflexivity|].
  split; vm_compute; reflexivity.
Defined.

End LideraFacts.

(** *** Fields whose conversion cannot fail *)

Module FieldShapes.
Import Re ReGroups ReLang NumShape FieldFacts.

(** [\d+] *)
Definition digits_re : re := RRep true 1 None RDigit.

(** Group [n] of a successful search took part in the match. *)
Ltac nth_group E n Hn :=
  match type of E with
  | re_search ?fl ?p ?t = Some ?m =>
      pose proof (search_binds fl n (pattern p) t m eq_refl E) as Hn
  end.

Ltac solve_group_is :=
  vm_compute; repeat split; intros; try reflexivity; try discriminate.

Section Shapes.
Context {rt : Runtime}.

(** The first group of a match of [p] matched [shape]. *)
Definition first_group_is (fl : flags) (shape : re) (p : string) : Prop :=
  binds 1 (pattern p) = true /\ group_is 1 shape (pattern p).

Lemma first_group_lang (fl : flags) (shape : re) (p : string) (text : str)
      (m : match_obj) :
  first_group_is fl shape p ->
  re_search fl p text = Some m ->
  exists g, group m 1 = Some g /\ lang fl shape g.
Proof.
  intros [Hb Hg] H.
  destruct (search_group fl p text m 1 Hb H) as [g E].
  exists g. split; [exact E|].
  eapply (search_captures fl 1 shape); eauto.
Qed.

(** The captured day count is longer than [int()] accepts. *)
Definition too_long (fl : flags) (p : string) (text : str) : Prop :=
  exists m g,
    re_search fl p text = Some m /\ group m 1 = Some g
    /\ 0 < int_max_str_digits < List.length g.

Lemma int_field_failed (fl : flags) (p : string) (text : str) :
  first_group_is fl digits_re p ->
  failed (match re_search fl p text with
          | Some m =>
              bind (group_arg m 1)
                   (fun g => bind (PyNum.py_int g) (fun n => Ret (VInt n)))
          | None => Ret VNone
          end) = true
  <-> too_long fl p text.
Proof.
  intros Hs. unfold too_long.
  destruct (re_search fl p text) as [m|] eqn:E.
  - destruct (first_group_lang fl _ p text m Hs E) as (g & Hg & HL).
    apply lang_digits in HL as [Hd Hl].
    unfold group_arg. rewrite Hg. simpl.
    rewrite (py_int_digits g Hd)
      by (destruct g; [simpl in Hl; lia|discriminate]).
    destruct (Nat.ltb 0 int_max_str_digits) eqn:E0;
      destruct (Nat.ltb int_max_str_digits (List.length g)) eqn:E1; simpl.
    + apply Nat.ltb_lt in E0, E1. split; [|reflexivity].
      intros _. exists m, g. auto.
    + apply Nat.ltb_ge in E1. split; [discriminate|].
      intros (m' & g' & Hm & Hg' & H0 & H1).
      injection Hm as <-. rewrite Hg in Hg'. injection Hg' as <-. lia.
    + apply Nat.ltb_ge in E0. split; [discriminate|].
      intros (m' & g' & Hm & Hg' & H0 & H1). lia.
    + apply Nat.ltb_ge in E0. split; [discriminate|].
      intros (m' & g' & Hm & Hg' & H0 & H1). lia.
  - simpl. split; [discriminate|]. intros (m' & g' & Hm & _). discriminate.
Qed.

(** An amount in the Spanish convention: the conversion succeeds. *)
Lemma amount_field_returns (shape : re) (p : string) (text : str) :
  first_group_is no_flags shape p ->
  (forall g, lang no_flags shape g -> returns (float_es g)) ->
  returns (match re_search no_flags p text with
           | Some m =>
               bind (group_recv m 1)
                    (fun g => bind (float_es g) (fun f => Ret (VFloat f)))
           | None => Ret VNone
           end).
Proof.
  intros Hs Hf. destruct (re_search no_flags p text) as [m|] eqn:E;
    [|eexists; reflexivity].
  destruct (first_group_lang _ _ p text m Hs E) as (g & Hg & HL).
  unfold group_recv. rewrite Hg. simpl.
  destruct (Hf g HL) as [f ->]. simpl. eexists. reflexivity.
Qed.

(** A conversion kept under [except ValueError]. *)
Lemma guarded_float_returns {A} (m : match_obj) (k : PyNum.float -> A)
      (d : A) :
  group m 1 <> None ->
  returns (try_ValueError
             (bind (group_recv m 1)
                   (fun raw => bind (float_comma raw) (fun f => Ret (k f))))
             (Ret d)).
Proof.
  intros Hg. unfold group_recv.
  destruct (group m 1) as [g|]; [|congruence]. simpl.
  unfold float_comma.
  destruct (PyNum.py_float (normalize_comma g)) as [f|e] eqn:Ef; simpl;
    [eexists; reflexivity|].
  rewrite (py_float_error _ _ Ef). eexists. reflexivity.
Qed.

(** A statement kept under [except Exception] with a default. *)
Lemma guarded_returns {A} (m : exc A) (d : A) :
  returns (try_Exception m (fun _ => Ret d)).
Proof. destruct m; eexists; reflexivity. Qed.

End Shapes.

(** The first group of a successful search, and its shape. *)
Ltac shaped_group E shape g Hg HL :=
  match type of E with
  | re_search ?fl ?p ?t = Some ?m =>
      let Hs := fresh "Hs" in
      assert (Hs : first_group_is fl shape p)
        by (split; [reflexivity | solve_group_is]);
      destruct (first_group_lang fl shape p t m Hs E) as (g & Hg & HL);
      clear Hs
  end.

End FieldShapes.

(** *** Iberdrola *)

Module IberdrolaFacts.
Import Re ReGroups ReLang NumShape FieldFacts FieldShapes Iberdrola.

Definition dias_pattern : string := "FECHA DE EMISIÓN:.*?\n\n.*?\n\n(\d+)".

Section Iberdrola.
Context {rt : Runtime}.
Hypothesis plain : plain_punctuation rt.

Lemma iberdrola_nombre_cliente_returns (text : str) :
  returns (nombre_cliente text).
Proof. apply text_field_returns. reflexivity. Qed.

Lemma iberdrola_numero_referencia_returns (text : str) :
  returns (numero_referencia text).
Proof. apply text_field_returns. reflexivity. Qed.

Lemma iberdrola_forma_pago_returns (text : str) : returns (forma_pago text).
Proof. apply text_field_returns. reflexivity. Qed.

Lemma iberdrola_mandato_returns (text : str) : returns (mandato text).
Proof. apply text_field_returns. reflexivity. Qed.

Lemma iberdrola_fecha_cargo_returns (text : str) : returns (fecha_cargo text).
Proof. apply date_field_returns. reflexivity. Qed.

Lemma iberdrola_fecha_emision_returns (text : str) :
  returns (fecha_emision text).
Proof.
  unfold fecha_emision.
  destruct (re_search DOTALL _ text) as [m|] eqn:E; [|eexists; reflexivity].
  nth_group E 1 H1.
  nth_group E 2 H2.
  nth_group E 3 H3.
  unfold groups3.
  destruct (group m 1), (group m 2), (group m 3); try congruence. simpl.
  destruct (meses_get _); eexists; reflexivity.
Qed.

Lemma iberdrola_periodo_returns (text : str) : returns (periodo text).
Proof.
  unfold periodo.
  destruct (re_search DOTALL _ text) as [m|] eqn:E; [|eexists; reflexivity].
  nth_group E 1 H1.
  nth_group E 2 H2.
  unfold group_arg.
  destruct (group m 1) as [g1|], (group m 2) as [g2|]; try congruence.
  simpl.
  destruct (reformat_dmy g1) as [d1|e1] eqn:E1; simpl.
  - destruct (reformat_dmy g2) as [d2|e2] eqn:E2; simpl;
      [eexists; reflexivity|].
    rewrite (reformat_dmy_error _ _ E2). eexists. reflexivity.
  - rewrite (reformat_dmy_error _ _ E1). eexists. reflexivity.
Qed.

Lemma iberdrola_partial_charge_returns (p : string) (text : str) :
  binds 1 (pattern p) = true -> returns (partial_charge p text).
Proof.
  intros Hb. unfold partial_charge.
  destruct (re_search no_flags p text) as [m|] eqn:E;
    [|eexists; reflexivity].
  apply (guarded_float_returns m (fun f => PyNum.fdiv f hundred) zero).
  eapply search_binds; eauto.
Qed.

Lemma iberdrola_amount_returns (p : string) (text : str) :
  binds 1 (pattern p) = true -> returns (amount p text).
Proof.
  intros Hb. unfold amount.
  destruct (re_search no_flags p text) as [m|] eqn:E;
    [|eexists; reflexivity].
  pose proof (search_binds no_flags 1 _ _ _ Hb E) as Hg.
  unfold group_recv. destruct (group m 1) as [g|]; [|congruence]. simpl.
  unfold float_comma.
  destruct (PyNum.py_float (normalize_comma g)) as [f|e] eqn:Ef; simpl;
    [eexists; reflexivity|].
  rewrite (py_float_error _ _ Ef). eexists. reflexivity.
Qed.

Lemma iberdrola_costo_potencia_returns (text : str) :
  returns (costo_potencia text).
Proof.
  unfold costo_potencia, costo_punta, costo_valle.
  destruct (iberdrola_partial_charge_returns
              "([\d,\.]+)\s*€\s*\n\n\s*Valle" text eq_refl) as [a ->].
  destruct (iberdrola_partial_charge_returns
              "([\d,\.]+)\s*€\s*\n\n\s*Total importe potencia" text eq_refl)
    as [b ->].
  simpl. eexists. reflexivity.
Qed.

Lemma iberdrola_costo_energia_returns (text : str) :
  returns (costo_energia text).
Proof.
  unfold costo_energia.
  destruct (iberdrola_amount_returns
              "([\d,\.]+)\s*€\s*\n\n\s*Energia consumida"
              text eq_refl) as [a ->].
  simpl. eexists. reflexivity.
Qed.

Lemma iberdrola_impuestos_returns (text : str) : returns (impuestos text).
Proof.
  unfold impuestos.
  destruct (iberdrola_amount_returns
              "([\d,\.]+)\s*€\s*\n\n\s*TOTAL ENERGÍA"
              text eq_refl) as [a ->].
  destruct (iberdrola_amount_returns
              "([\d,\.]+)\s*€\s*\n\n\s*TOTAL IMPORTE FACTURA"
              text eq_refl) as [b ->].
  simpl. eexists. reflexivity.
Qed.

Lemma iberdrola_total_a_pagar_returns (text : str) :
  returns (total_a_pagar text).
Proof.
  unfold total_a_pagar.
  destruct (iberdrola_amount_returns
              "TOTAL IMPORTE FACTURA\s*\n\n\s*([\d,\.]+)\s*€"
              text eq_refl) as [a ->].
  simpl. eexists. reflexivity.
Qed.

Lemma iberdrola_descuentos_returns (text : str) : returns (descuentos text).
Proof.
  unfold descuentos.
  destruct (re_search no_flags _ text) as [m|] eqn:E; [|eexists; reflexivity].
  shaped_group E (signed short_amount_re) g Hg HL.
  unfold group_recv. rewrite Hg. simpl.
  destruct (float_comma_signed_short_amount g plain HL) as [f ->].
  simpl. eexists. reflexivity.
Qed.

Lemma iberdrola_consumo_total_returns (text : str) :
  returns (consumo_total text).
Proof.
  unfold consumo_total.
  destruct (re_search no_flags _ text) as [m|] eqn:E; [|eexists; reflexivity].
  shaped_group E short_amount_re g Hg HL.
  unfold group_recv. rewrite Hg. simpl.
  destruct (float_comma_short_amount g plain HL) as [f ->].
  simpl. eexists. reflexivity.
Qed.

Lemma iberdrola_precio_returns (text : str) :
  returns (precio_efectivo_energia text).
Proof.
  unfold precio_efectivo_energia.
  destruct (re_search no_flags _ text) as [m|] eqn:E; [|eexists; reflexivity].
  nth_group E 1 Hg.
  unfold group_recv. destruct (group m 1) as [g|]; [|congruence]. simpl.
  unfold float_comma.
  destruct (PyNum.py_float (normalize_comma g)) as [f|e] eqn:Ef; simpl;
    [eexists; reflexivity|].
  rewrite (py_float_error _ _ Ef). eexists. reflexivity.
Qed.

Lemma iberdrola_body_failed (text : str) :
  failed (body text) = failed (dias text).
Proof.
  unfold body.
  destruct (iberdrola_nombre_cliente_returns text) as [v1 ->]. simpl.
  destruct (iberdrola_numero_referencia_returns text) as [v2 ->]. simpl.
  destruct (iberdrola_fecha_emision_returns text) as [v3 ->]. simpl.
  destruct (iberdrola_periodo_returns text) as [[v4 v5] ->]. simpl.
  destruct (dias text) as [v6|e6]; simpl; [|reflexivity].
  destruct (iberdrola_forma_pago_returns text) as [v7 ->]. simpl.
  destruct (iberdrola_fecha_cargo_returns text) as [v8 ->]. simpl.
  destruct (iberdrola_mandato_returns text) as [v9 ->]. simpl.
  destruct (iberdrola_costo_potencia_returns text) as [v10 ->]. simpl.
  destruct (iberdrola_costo_energia_returns text) as [v11 ->]. simpl.
  destruct (iberdrola_descuentos_returns text) as [v12 ->]. simpl.
  destruct (iberdrola_impuestos_returns text) as [v13 ->]. simpl.
  destruct (iberdrola_total_a_pagar_returns text) as [v14 ->]. simpl.
  unfold consumo_punta at 1.
  match goal with
  | |- context [try_Exception ?m (fun _ => Ret ?d)] =>
      destruct (guarded_returns m d) as [v15 ->]
  end. simpl.
  unfold consumo_valle at 1.
  match goal with
  | |- context [try_Exception ?m (fun _ => Ret ?d)] =>
      destruct (guarded_returns m d) as [v16 ->]
  end. simpl.
  destruct (iberdrola_consumo_total_returns text) as [v17 ->]. simpl.
  destruct (iberdrola_precio_returns text) as [v18 ->]. reflexivity.
Qed.

Lemma iberdrola_dias_failed (text : str) :
  failed (dias text) = true <-> too_long DOTALL dias_pattern text.
Proof.
  apply int_field_failed. split; [reflexivity | solve_group_is].
Qed.

Lemma iberdrola_body_record (text : str) (r : value) :
  body text = Ret r ->
  exists a b c d e f g h i j k l m n o p q s,
    r = invoice_record a b c d e f g h i j k l m n o p q s.
Proof.
  unfold body.
  repeat match goal with
         | |- context [bind ?m _] => destruct m; simpl; try discriminate
         | x : (value * value)%type |- _ => destruct x
         end;
    intros H; try discriminate H;
    injection H as <-; do 18 eexists; reflexivity.
Qed.

End Iberdrola.

(** X10.  [extract_iberdrola_data] gives up, returning its error
    dictionary, only for a day count longer than the interpreter lets
    [int()] read: exactly when the digits found after [FECHA DE
    EMISIÓN:] and two blank-line breaks are more than
    [sys.get_int_max_str_digits()].  With the limit disabled, and for
    every other text, it returns a record: no other rule, matching or
    not, can abort it. *)
Theorem iberdrola_gives_up_exactly :
  forall (rt : Runtime) (text : str),
    plain_punctuation rt ->
    (extract_iberdrola_data text = Ret (error_dict error_message)
     <-> too_long DOTALL dias_pattern text)
    /\ (int_max_str_digits = 0 ->
        exists r, body text = Ret r /\ extract_iberdrola_data text = Ret r).
Proof.
  intros rt text Hp.
  assert (Hiff : extract_iberdrola_data text = Ret (error_dict error_message)
                 <-> too_long DOTALL dias_pattern text).
  { rewrite <- iberdrola_dias_failed, <- (iberdrola_body_failed Hp).
    unfold extract_iberdrola_data.
    destruct (body text) as [r|e] eqn:Eb; simpl.
    - split; [|discriminate]. intros H. injection H as ->. exfalso.
      destruct (iberdrola_body_record text _ Eb)
        as (a & b & c & d & e & f & g & h & i & j & k & l & m & n & o & p
            & q & s & H).
      symmetry in H. now apply record_is_not_error in H.
    - split; reflexivity. }
  split; [exact Hiff|].
  intros H0. unfold extract_iberdrola_data in *.
  destruct (body text) as [r|e] eqn:Eb; simpl in *; [eauto|].
  exfalso. destruct (proj1 Hiff eq_refl) as (m & g & _ & _ & Hl). lia.
Qed.

(** CPython with the limit on integer strings switched off
    ([sys.set_int_max_str_digits(0)]). *)
Definition unlimited : Runtime :=
  {| str_lower := @str_lower Latin1.runtime;
     is_decimal := @is_decimal Latin1.runtime;
     decimal_value := @decimal_value Latin1.runtime;
     is_space := @is_space Latin1.runtime;
     is_word := @is_word Latin1.runtime;
     fold_eq := @fold_eq Latin1.runtime;
     int_max_str_digits := 0;
     year_width := @year_width Latin1.runtime |}.

Lemma iberdrola_gives_up_exactly_witness :
  exists r,
    @body unlimited (utf8 "IBERDROLA CLIENTES") = Ret r
    /\ @extract_iberdrola_data unlimited (utf8 "IBERDROLA CLIENTES") = Ret r.
Proof.
  refine (proj2 (iberdrola_gives_up_exactly
                   unlimited (utf8 "IBERDROLA CLIENTES") _) _);
    [repeat split | reflexivity].
Defined.

End IberdrolaFacts.

(** *** Endesa *)

Module EndesaFacts.
Import Re ReGroups ReLang ReAgree NumShape FieldFacts FieldShapes Compat
       Endesa.

Definition dias_pattern : string := "\((\d+)\s*días\)".
Definition precio_pattern : string := "ha salido a\s*([\d,\.]+) €/kWh".

(** The value [1112.537]. *)
Definition consumo_total_value : PyNum.float :=
  PyNum.of_decimal false 1112537 3.

Lemma endesa_re_ok_plain (rt1 rt2 : Runtime) (fl : flags) (good : N -> Prop)
      (r : re) :
  ignorecase fl = false -> re_ok rt1 rt2 fl good r.
Proof.
  intros Hf. induction r; simpl; auto.
  - intros ch _. unfold char_eq. now rewrite Hf.
  - induction items as [|i items IH]; constructor; auto.
    destruct i; simpl; auto.
    + intros ch _. unfold char_eq. now rewrite Hf.
    + intros ch _. unfold in_range. now rewrite Hf.
Qed.

Lemma endesa_small_forallb (s : str) :
  forallb (fun c => N.ltb c 256) s = true -> Forall small s.
Proof.
  rewrite forallb_forall, Forall_forall. intros H c Hc.
  apply N.ltb_lt. auto.
Qed.

Section Endesa.
Context {rt : Runtime}.
Hypothesis compat : latin1_compatible rt.

Lemma endesa_search_latin1 (p : string) (s : str) :
  Forall small s ->
  re_search no_flags p s
  = @re_search Latin1.runtime no_flags p s.
Proof.
  intros Hs. unfold re_search.
  apply (search_agree rt Latin1.runtime no_flags small);
    [apply (compat_decimal compat) | apply (compat_space compat)
     | apply (compat_word compat) | now apply endesa_re_ok_plain | exact Hs].
Qed.

(** [consumo_total] of the literal is the float [1112.537]. *)
Lemma endesa_consumo_total_of_literal :
  consumo_total consumo_total_text = Ret (VFloat consumo_total_value).
Proof.
  unfold consumo_total.
  rewrite endesa_search_latin1
    by (apply endesa_small_forallb; vm_compute; reflexivity).
  match goal with
  | |- context [@re_search Latin1.runtime ?f ?p ?t] =>
      let m := eval vm_compute in (@re_search Latin1.runtime f p t) in
      change (@re_search Latin1.runtime f p t) with m
  end.
  cbn -[PyNum.py_float PyNum.of_decimal].
  unfold PyNum.py_float. cbn -[PyNum.of_decimal is_decimal decimal_value].
  rewrite !(compat_decimal compat) by reflexivity.
  cbn -[PyNum.of_decimal is_decimal decimal_value].
  rewrite !(compat_decimal compat) by reflexivity.
  cbn -[PyNum.of_decimal decimal_value].
  unfold PyNum.digits_value. cbn -[PyNum.of_decimal decimal_value Z.add Z.mul].
  rewrite !(compat_value compat) by reflexivity.
  reflexivity.
Qed.


Lemma endesa_plain : plain_punctuation rt.
Proof. now apply compatible_plain. Qed.

Lemma endesa_nombre_cliente_value (text : str) :
  returns (nombre_cliente text).
Proof. apply text_field_returns. reflexivity. Qed.

Lemma endesa_numero_referencia_value (text : str) :
  returns (numero_referencia text).
Proof. apply text_field_returns. reflexivity. Qed.

Lemma endesa_mandato_value (text : str) : returns (mandato text).
Proof. apply text_field_returns. reflexivity. Qed.

Lemma endesa_forma_pago_value (text : str) : returns (forma_pago text).
Proof. apply text_field_returns. reflexivity. Qed.

Lemma endesa_format_date_value (g : str) :
  returns (format_date_to_yyyy_mm_dd g).
Proof.
  unfold format_date_to_yyyy_mm_dd.
  destruct (reformat_dmy g) as [d|e] eqn:Ed; simpl; [eexists; reflexivity|].
  rewrite (reformat_dmy_error g e Ed). eexists. reflexivity.
Qed.

Lemma endesa_dated_field_value (fl : flags) (p : string) (text : str) :
  binds 1 (pattern p) = true ->
  returns (match re_search fl p text with
           | Some m => bind (group_arg m 1) format_date_to_yyyy_mm_dd
           | None => Ret VNone
           end).
Proof.
  intros Hb. destruct (re_search fl p text) as [m|] eqn:E;
    [|eexists; reflexivity].
  destruct (search_group fl p text m 1 Hb E) as [g Hg].
  unfold group_arg. rewrite Hg. simpl. apply endesa_format_date_value.
Qed.

Lemma endesa_fecha_emision_value (text : str) : returns (fecha_emision text).
Proof. apply endesa_dated_field_value. reflexivity. Qed.

Lemma endesa_periodo_inicio_value (text : str) :
  returns (periodo_inicio text).
Proof. apply endesa_dated_field_value. reflexivity. Qed.

Lemma endesa_periodo_fin_value (text : str) : returns (periodo_fin text).
Proof. apply endesa_dated_field_value. reflexivity. Qed.

Lemma endesa_fecha_cargo_value (text : str) : returns (fecha_cargo text).
Proof.
  unfold fecha_cargo.
  destruct (re_search no_flags _ text) as [m|] eqn:E; [|eexists; reflexivity].
  nth_group E 1 H1.
  nth_group E 2 H2.
  nth_group E 3 H3.
  unfold format_date_with_month_name, groups3.
  destruct (group m 1), (group m 2), (group m 3); try congruence. simpl.
  destruct (meses_get _); eexists; reflexivity.
Qed.

Lemma endesa_amount_value (p : string) (text : str) :
  first_group_is no_flags amount_re p -> returns (amount p text).
Proof.
  intros Hs. apply (amount_field_returns amount_re p text Hs).
  intros g Hg. now apply float_es_amount; [apply endesa_plain|].
Qed.

Lemma endesa_costo_potencia_value (text : str) :
  returns (costo_potencia text).
Proof. apply endesa_amount_value. split; [reflexivity | solve_group_is]. Qed.

Lemma endesa_costo_energia_value (text : str) : returns (costo_energia text).
Proof. apply endesa_amount_value. split; [reflexivity | solve_group_is]. Qed.

Lemma endesa_impuestos_value (text : str) : returns (impuestos text).
Proof. apply endesa_amount_value. split; [reflexivity | solve_group_is]. Qed.

Lemma endesa_total_a_pagar_value (text : str) : returns (total_a_pagar text).
Proof. apply endesa_amount_value. split; [reflexivity | solve_group_is]. Qed.

Lemma endesa_descuentos_value (text : str) : returns (descuentos text).
Proof.
  apply (amount_field_returns (signed amount_re)).
  - split; [reflexivity | solve_group_is].
  - intros g Hg. now apply float_es_signed_amount; [apply endesa_plain|].
Qed.

Lemma endesa_consumo_punta_value (text : str) : returns (consumo_punta text).
Proof. apply guarded_returns. Qed.

Lemma endesa_consumo_valle_value (text : str) : returns (consumo_valle text).
Proof. apply guarded_returns. Qed.

Lemma endesa_dias_failed (text : str) :
  failed (dias text) = true <-> too_long no_flags dias_pattern text.
Proof.
  apply int_field_failed. split; [reflexivity | solve_group_is].
Qed.

(** The captured price is not a number once its commas are points. *)
Definition refused (p : string) (text : str) : Prop :=
  exists m g,
    re_search no_flags p text = Some m /\ group m 1 = Some g
    /\ float_comma g = Raise ValueError.

Lemma endesa_precio_failed (text : str) :
  failed (precio_efectivo_energia text) = true
  <-> refused precio_pattern text.
Proof.
  unfold precio_efectivo_energia, refused, precio_pattern.
  destruct (re_search no_flags _ text) as [m|] eqn:E.
  - first_group E g Hg.
    unfold group_recv, float_comma. rewrite Hg. simpl.
    destruct (PyNum.py_float (normalize_comma g)) as [f|e] eqn:Ef; simpl.
    + split; [discriminate|]. intros (m' & g' & Hm & Hg' & Hf).
      injection Hm as <-. rewrite Hg in Hg'. injection Hg' as <-.
      congruence.
    + split; [|reflexivity]. intros _. exists m, g.
      rewrite (py_float_error _ _ Ef) in Ef. auto.
  - simpl. split; [discriminate|]. intros (m' & g' & Hm & _). discriminate.
Qed.

(** What the method computes up to its [consumo_total] statement
    does not involve the text [ocr_text] is rebound to; the statement
    itself reads nothing else. *)
Lemma endesa_body_with_split (rebound text : str) :
  failed (body_with rebound text)
  = failed (dias (normalize_text text))
    || failed (consumo_total rebound)
    || failed (precio_efectivo_energia (normalize_text text)).
Proof.
  unfold body_with. cbv zeta. set (nt := normalize_text text).
  destruct (endesa_nombre_cliente_value text) as [v1 ->]. simpl.
  destruct (endesa_numero_referencia_value nt) as [v2 ->]. simpl.
  destruct (endesa_fecha_emision_value nt) as [v3 ->]. simpl.
  destruct (endesa_periodo_inicio_value nt) as [v4 ->]. simpl.
  destruct (endesa_periodo_fin_value nt) as [v5 ->]. simpl.
  destruct (dias nt) as [v6|e6]; simpl; [|reflexivity].
  destruct (endesa_fecha_cargo_value nt) as [v7 ->]. simpl.
  destruct (endesa_mandato_value nt) as [v8 ->]. simpl.
  destruct (endesa_costo_potencia_value nt) as [v9 ->]. simpl.
  destruct (endesa_costo_energia_value nt) as [v10 ->]. simpl.
  destruct (endesa_descuentos_value nt) as [v11 ->]. simpl.
  destruct (endesa_impuestos_value nt) as [v12 ->]. simpl.
  destruct (endesa_total_a_pagar_value nt) as [v13 ->]. simpl.
  destruct (endesa_consumo_punta_value nt) as [v14 ->]. simpl.
  destruct (endesa_consumo_valle_value nt) as [v15 ->]. simpl.
  destruct (consumo_total rebound) as [v16|e16]; simpl; [|reflexivity].
  destruct (precio_efectivo_energia nt) as [v17|e17];
    simpl; [|reflexivity].
  destruct (endesa_forma_pago_value nt) as [v18 ->].
  reflexivity.
Qed.

Lemma endesa_body_failed (text : str) :
  failed (body_with consumo_total_text text)
  = failed (dias (normalize_text text))
    || failed (precio_efectivo_energia (normalize_text text)).
Proof.
  rewrite endesa_body_with_split, endesa_consumo_total_of_literal. simpl.
  now rewrite orb_false_r.
Qed.

End Endesa.

Section Records.
Context {rt : Runtime}.

Lemma endesa_body_record (rebound text : str) (r : value) :
  body_with rebound text = Ret r ->
  exists a b c d e f g h i j k l m n o p q s,
    consumo_total rebound = Ret q
    /\ r = invoice_record a b c d e f g h i j k l m n o p q s.
Proof.
  unfold body_with. cbv zeta.
  repeat match goal with
         | |- bind (consumo_total rebound) _ = _ -> _ => fail 1
         | |- bind ?m _ = _ -> _ =>
             destruct m; simpl; [|intros H; discriminate H]
         end.
  destruct (consumo_total rebound) as [q|]; simpl;
    [|intros H; discriminate H].
  repeat match goal with
         | |- bind ?m _ = _ -> _ =>
             destruct m; simpl; [|intros H; discriminate H]
         end.
  intros H. injection H as <-. do 18 eexists. split; reflexivity.
Qed.

End Records.

(** X11.  On an interpreter whose Unicode tables agree with Latin-1,
    [extract_endesa_data] gives up, returning its error dictionary,
    in exactly two cases, both read from the text with its white
    space collapsed: the day count in [(N días)] has more digits than
    [int()] accepts, or the price captured between [ha salido a] and
    [€/kWh] is not a number once its commas are points.  Every other
    rule either sits under a [try] of its own or captures only what
    its conversion accepts. *)
Theorem endesa_gives_up_exactly :
  forall (rt : Runtime) (text : str),
    latin1_compatible rt ->
    extract_endesa_data text = Ret (error_dict error_message)
    <-> too_long no_flags dias_pattern (normalize_text text)
        \/ refused precio_pattern (normalize_text text).
Proof.
  intros rt text Hc.
  rewrite <- (endesa_dias_failed (normalize_text text)),
    <- endesa_precio_failed, <- orb_true_iff, <- (endesa_body_failed Hc).
  unfold extract_endesa_data.
  destruct (body_with consumo_total_text text) as [r|e] eqn:Eb; simpl.
  - split; [|discriminate]. intros H. injection H as ->. exfalso.
    destruct (endesa_body_record _ text _ Eb)
      as (a & b & c & d & e & f & g & h & i & j & k & l & m & n & o & p
          & q & s & _ & H).
    symmetry in H. now apply record_is_not_error in H.
  - split; reflexivity.
Qed.

(** An invoice whose price has two decimal commas. *)
Definition endesa_sample : str :=
  utf8 "ENDESA ENERGIA El kWh ha salido a 0,1,5 €/kWh este mes".

Lemma endesa_gives_up_exactly_witness :
  @extract_endesa_data Latin1.runtime endesa_sample
  = Ret (error_dict error_message).
Proof.
  apply (proj2 (endesa_gives_up_exactly Latin1.runtime endesa_sample
                  latin1_is_compatible)).
  right. eexists _, _. split; [vm_compute; reflexivity|].
  split; vm_compute; reflexivity.
Defined.

(** X12.  [extract_endesa_data] never raises, and whenever it returns
    a record the record's [detalles_consumo.consumo_total] is the
    float [1112.537], whatever the text of the invoice: the method
    rebinds [ocr_text] to a literal just before the statement that
    reads the total consumption. *)
Theorem endesa_consumo_total_is_fixed :
  forall (rt : Runtime) (text : str),
    latin1_compatible rt ->
    exists r,
      extract_endesa_data text = Ret r
      /\ (r = error_dict error_message
          \/ get2 "detalles_consumo" "consumo_total" r
             = Some (VFloat consumo_total_value)).
Proof.
  intros rt text Hc. unfold extract_endesa_data.
  destruct (body_with consumo_total_text text) as [r|e] eqn:Eb; simpl.
  - exists r. split; [reflexivity|]. right.
    destruct (endesa_body_record _ text _ Eb)
      as (a & b & c & d & e & f & g & h & i & j & k & l & m & n & o & p
          & q & s & Hq & ->).
    rewrite (endesa_consumo_total_of_literal Hc) in Hq. injection Hq as <-.
    reflexivity.
  - eexists. split; [reflexivity|]. now left.
Qed.

Lemma endesa_consumo_total_is_fixed_witness :
  exists r,
    @extract_endesa_data Latin1.runtime (utf8 "Consumo Total

 2,500 kWh") = Ret r
    /\ (r = error_dict error_message
        \/ get2 "detalles_consumo" "consumo_total" r
           = Some (VFloat consumo_total_value)).
Proof.
  apply (endesa_consumo_total_is_fixed Latin1.runtime _ latin1_is_compatible).
Defined.

End EndesaFacts.

(** *** What [convert_ocr_to_json] hands to the view *)

Module ConvertFacts.
Import Re FieldFacts Convert Classification.

(** A dictionary with the keys of an extracted record. *)
Definition is_record (v : value) : Prop :=
  exists a b c d e f g h i j k l m n o p q s,
    v = invoice_record a b c d e f g h i j k l m n o p q s.

(** A dictionary [{"error": msg}]. *)
Definition is_error (v : value) : Prop :=
  exists msg, v = error_dict msg.

(** What [post] reads from the dictionary before it saves it. *)
Definition readable (v : value) : Prop :=
  has_key "error" v = false
  /\ exists inicio fin dias,
       Json.get "periodo_facturacion" v
       = Some (VDict [(utf8 "inicio", inicio); (utf8 "fin", fin);
                      (utf8 "dias", dias)])
       /\ get2 "periodo_facturacion" "inicio" v = Some inicio
       /\ get2 "periodo_facturacion" "fin" v = Some fin.

Lemma record_readable (v : value) : is_record v -> readable v.
Proof.
  intros (a & b & c & d & e & f & g & h & i & j & k & l & m & n & o & p
          & q & s & ->).
  split; [reflexivity|]. exists d, e, f. repeat split.
Qed.

Lemma error_has_key (v : value) : is_error v -> has_key "error" v = true.
Proof. intros [msg ->]. reflexivity. Qed.

Section Shape.
Context {rt : Runtime}.

Lemma guarded_shape (body : exc value) (msg : string) :
  (forall r, body = Ret r -> is_record r) ->
  exists v,
    try_Exception body (fun _ => Ret (error_dict msg)) = Ret v
    /\ (is_error v \/ is_record v).
Proof.
  intros H. destruct body as [r|e]; simpl.
  - exists r. split; [reflexivity|]. right. now apply H.
  - eexists. split; [reflexivity|]. left. now exists msg.
Qed.

Lemma extractor_shape (v : vendor) (text : str) :
  exists d, extractor v text = Ret d /\ (is_error d \/ is_record d).
Proof.
  destruct v; simpl.
  - apply guarded_shape. intros r H.
    destruct (EndesaFacts.endesa_body_record _ _ _ H)
      as (a & b & c & d & e & f & g & h & i & j & k & l & m & n & o & p
          & q & s & _ & ->).
    do 18 eexists. reflexivity.
  - apply guarded_shape. intros r H.
    apply IberdrolaFacts.iberdrola_body_record in H. exact H.
  - apply guarded_shape. intros r H.
    apply LideraFacts.body_record in H. exact H.
  - eexists. split; [reflexivity|]. right. do 18 eexists. reflexivity.
  - eexists. split; [reflexivity|]. right. do 18 eexists. reflexivity.
Qed.

End Shape.

(** X13.  [convert_ocr_to_json] never raises, and the dictionary it
    returns is of one of two kinds: an error dictionary, which has the
    key [error], or a record with the eighteen keys of an invoice,
    which has no key [error] and whose [periodo_facturacion] is a
    dictionary with [inicio] and [fin].  So the test ["error" not in
    parsed_data] of [post] tells the two apart, and the lookups it
    then makes cannot fail. *)
Theorem convert_returns_error_or_record :
  forall (rt : Runtime) (text : str),
  exists v,
    convert_ocr_to_json text = Ret v
    /\ ((is_error v /\ has_key "error" v = true)
        \/ (is_record v /\ readable v)).
Proof.
  intros rt text. unfold convert_ocr_to_json.
  rewrite convert_with_classify.
  destruct (classify text) as [v|].
  - destruct (extractor_shape v text) as (d & -> & [He|Hr]); simpl;
      exists d; (split; [reflexivity|]).
    + left. split; [exact He | now apply error_has_key].
    + right. split; [exact Hr | now apply record_readable].
  - exists unrecognized. split; [reflexivity|]. left.
    split; [eexists; reflexivity | reflexivity].
Qed.

End ConvertFacts.

(** *** The text the Endesa rules are matched against *)

Module NormalizeFacts.
Import Re ReFacts Endesa.

(** [\s+] *)
Definition spaces_re : re := RRep true 1 None RSpace.

Section Collapse.
Context {rt : Runtime}.

Definition blank (c : N) : Prop := is_space c = true.
Definition solid (c : N) : Prop := is_space c = false.

(** The text does not begin with white space. *)
Definition starts_solid (s : str) : Prop :=
  match s with c :: _ => solid c | [] => True end.

(** Every run of white space becomes one space: a white-space
    character is dropped unless it is the last of its run, where a
    space is written. *)
Fixpoint collapse (s : str) : str :=
  match s with
  | [] => []
  | c :: t =>
      if is_space c then
        match t with
        | c' :: _ => if is_space c' then collapse t else 32%N :: collapse t
        | [] => [32%N]
        end
      else c :: collapse t
  end.

Lemma collapse_solid (s : str) : Forall solid s -> collapse s = s.
Proof.
  induction 1 as [|c s Hc _ IH]; [reflexivity|].
  simpl. unfold solid in Hc. now rewrite Hc, IH.
Qed.

Lemma collapse_blank (sp tl : str) :
  Forall blank sp -> sp <> [] -> starts_solid tl ->
  collapse (sp ++ tl) = 32%N :: collapse tl.
Proof.
  intros Hsp. induction Hsp as [|c sp Hc Hsp IH]; [congruence|].
  intros _ Htl. cbn [app collapse]. unfold blank in Hc. rewrite Hc.
  destruct sp as [|c' sp].
  - simpl. destruct tl as [|x tl]; [reflexivity|].
    simpl in Htl. unfold solid in Htl. now rewrite Htl.
  - cbn [app]. inversion Hsp as [|? ? Hc' _]; subst.
    unfold blank in Hc'. rewrite Hc'.
    apply IH; [discriminate | exact Htl].
Qed.

Lemma collapse_run (pre sp tl : str) :
  Forall solid pre -> Forall blank sp -> sp <> [] -> starts_solid tl ->
  collapse (pre ++ sp ++ tl) = pre ++ 32%N :: collapse tl.
Proof.
  intros Hpre Hsp Hne Htl.
  induction Hpre as [|c pre Hc _ IH].
  - simpl. now apply collapse_blank.
  - cbn [app collapse]. unfold solid in Hc. now rewrite Hc, IH.
Qed.

Lemma split_run (s : str) :
  Forall solid s
  \/ exists pre sp tl,
       s = pre ++ sp ++ tl /\ Forall solid pre /\ Forall blank sp
       /\ sp <> [] /\ starts_solid tl.
Proof.
  induction s as [|c s IH]; [left; constructor|].
  destruct (is_space c) eqn:Ec.
  - right. exists [].
    destruct IH as [Hs|(pre & sp & tl & -> & Hpre & Hsp & Hne & Htl)].
    + exists [c], s. repeat split; auto; try discriminate.
      destruct Hs; simpl; auto.
    + destruct pre as [|x pre].
      * exists (c :: sp), tl. repeat split; auto; try discriminate.
      * exists [c], ((x :: pre) ++ sp ++ tl).
        repeat split; auto; try discriminate.
        simpl. now inversion Hpre.
  - destruct IH as [Hs|(pre & sp & tl & -> & Hpre & Hsp & Hne & Htl)].
    + left. now constructor.
    + right. exists (c :: pre), sp, tl. repeat split; auto.
Qed.

(** The matcher on [\s+]. *)

Definition found (start : nat) (cur : cursor) (cs : captures)
  : option match_obj :=
  Some {| m_start := start; m_end := pos cur; m_groups := cs |}.

Lemma step_space_solid (p : nat) (s : str) :
  starts_solid s ->
  step no_flags RSpace {| pos := p; rest := s |} = None.
Proof.
  unfold step, advance. simpl. destruct s as [|c s]; [reflexivity|].
  simpl. unfold solid. now intros ->.
Qed.

Lemma loop_spaces (start : nat) (sp tl : str) :
  Forall blank sp -> starts_solid tl ->
  forall fuel n p cs,
    List.length sp < fuel -> 1 <= n + List.length sp ->
    rep_loop (run no_flags RSpace) true 1 None (found start) fuel n
             {| pos := p; rest := sp ++ tl |} cs
    = found start {| pos := p + List.length sp; rest := tl |} cs.
Proof.
  intros Hsp Htl. induction Hsp as [|c sp Hc _ IH];
    intros fuel n p cs Hf Hn; (destruct fuel as [|fuel]; [simpl in Hf; lia|]);
    rewrite rep_loop_step; cbv zeta; cbn [below app].
  - cbn [run]. rewrite (step_space_solid p tl Htl).
    simpl in Hn. destruct n as [|n]; [lia|]. simpl.
    now rewrite Nat.add_0_r.
  - cbn [run]. unfold step, advance. cbn [rest pos accepts].
    unfold blank in Hc. rewrite Hc.
    rewrite IH by (simpl in *; lia).
    unfold found. cbn [pos List.length].
    rewrite (proj2 (Nat.eqb_neq (S p) p)) by lia.
    cbn [andb]. now rewrite Nat.add_succ_r.
Qed.

Lemma match_at_spaces (p : nat) (sp tl : str) :
  Forall blank sp -> sp <> [] -> starts_solid tl ->
  match_at no_flags spaces_re {| pos := p; rest := sp ++ tl |}
  = Some {| m_start := p; m_end := p + List.length sp; m_groups := [] |}.
Proof.
  intros Hsp Hne Htl. unfold match_at, spaces_re. cbn [run pos rest].
  change (fun (cur' : cursor) (cs : captures) =>
            Some {| m_start := p; m_end := pos cur'; m_groups := cs |})
    with (found p).
  rewrite (loop_spaces p sp tl Hsp Htl).
  - reflexivity.
  - rewrite length_app. lia.
  - destruct sp; [congruence | simpl; lia].
Qed.

Lemma match_at_solid (p : nat) (s : str) :
  starts_solid s ->
  match_at no_flags spaces_re {| pos := p; rest := s |} = None.
Proof.
  intros Hs. unfold match_at, spaces_re. cbn [run pos rest].
  rewrite Nat.add_comm. cbn [Nat.add]. rewrite rep_loop_step. cbv zeta.
  cbn [below run]. now rewrite (step_space_solid p s Hs).
Qed.

Lemma scan_step (r : re) (fuel : nat) (cur : cursor) :
  scan no_flags r fuel cur
  = match match_at no_flags r cur with
    | Some m => Some m
    | None =>
        match fuel, advance cur with
        | S fuel', Some (_, cur') => scan no_flags r fuel' cur'
        | _, _ => None
        end
    end.
Proof. destruct fuel; reflexivity. Qed.

Lemma scan_solid (s : str) :
  Forall solid s ->
  forall fuel p,
    scan no_flags spaces_re fuel {| pos := p; rest := s |} = None.
Proof.
  induction 1 as [|c s Hc Hs IH]; intros fuel p; rewrite scan_step.
  - rewrite (match_at_solid p []) by exact I. now destruct fuel.
  - rewrite (match_at_solid p (c :: s)) by exact Hc.
    destruct fuel; [reflexivity|]. unfold advance. cbn [rest pos].
    apply IH.
Qed.

Lemma scan_run (pre sp tl : str) :
  Forall solid pre -> Forall blank sp -> sp <> [] -> starts_solid tl ->
  forall fuel p,
    List.length pre <= fuel ->
    scan no_flags spaces_re fuel {| pos := p; rest := pre ++ sp ++ tl |}
    = Some {| m_start := p + List.length pre;
              m_end := p + List.length pre + List.length sp;
              m_groups := [] |}.
Proof.
  intros Hpre Hsp Hne Htl.
  induction Hpre as [|c pre Hc _ IH]; intros fuel p Hf; rewrite scan_step.
  - cbn [app List.length]. rewrite Nat.add_0_r.
    now rewrite match_at_spaces.
  - destruct fuel as [|fuel]; [simpl in Hf; lia|].
    cbn [app].
    rewrite (match_at_solid p (c :: pre ++ sp ++ tl)) by exact Hc.
    unfold advance. cbn [rest pos]. rewrite IH by (simpl in Hf; lia).
    cbn [List.length]. now rewrite !Nat.add_succ_r.
Qed.

Lemma sub_from_collapse (fuel : nat) :
  forall (s : str) (p : nat),
    List.length s < fuel ->
    sub_from (finditer_from no_flags spaces_re fuel {| pos := p; rest := s |})
             [32%N] p s
    = collapse s.
Proof.
  induction fuel as [|fuel IH]; intros s p Hf; [lia|].
  cbn [finditer_from rest pos].
  destruct (split_run s) as [Hs|(pre & sp & tl & -> & Hpre & Hsp & Hne & Htl)].
  - rewrite (scan_solid s Hs). simpl. now rewrite collapse_solid.
  - rewrite (scan_run pre sp tl Hpre Hsp Hne Htl)
      by (rewrite length_app; lia).
    cbn [m_start m_end].
    replace (Nat.eqb (p + List.length pre + List.length sp)
                     (p + List.length pre)) with false
      by (symmetry; apply Nat.eqb_neq; destruct sp; [congruence|simpl; lia]).
    replace (p + List.length pre + List.length sp - p)
      with (List.length pre + List.length sp) by lia.
    assert (Hd : drop (List.length pre + List.length sp) (pre ++ sp ++ tl)
                 = tl).
    { unfold drop. rewrite app_assoc, <- length_app.
      now rewrite skipn_app, skipn_all, Nat.sub_diag. }
    rewrite Hd. cbn [sub_from m_start m_end].
    replace (p + List.length pre - p) with (List.length pre) by lia.
    replace (p + List.length pre + List.length sp - p)
      with (List.length pre + List.length sp) by lia.
    rewrite Hd. unfold take.
    rewrite firstn_app, firstn_all, Nat.sub_diag, firstn_O, app_nil_r.
    assert (Hl : 1 <= List.length sp)
      by (destruct sp; [congruence | simpl; lia]).
    rewrite IH by (rewrite !length_app in Hf; lia).
    now rewrite collapse_run.
Qed.

Lemma normalize_text_collapse (s : str) : normalize_text s = collapse s.
Proof.
  unfold normalize_text, sub, finditer, start_of.
  change (pattern "\s+") with spaces_re.
  change (utf8 " ") with [32%N].
  apply sub_from_collapse. lia.
Qed.

End Collapse.

(** X14.  [normalize_text], the substitution [re.sub(r"\s+", " ", s)]
    whose result every Endesa rule but the customer name is matched
    against, turns each maximal run of white space into one space and
    changes nothing else: a text without white space is returned as
    it is, and a text that begins with characters that are not white
    space, then a run of white space that ends at the end of the text
    or before another character, is that beginning, one space, and
    the rest of the text normalized. *)
Theorem normalize_text_collapses_runs :
  forall (rt : Runtime),
    (forall s, normalize_text s = collapse s)
    /\ (forall s, Forall solid s -> normalize_text s = s)
    /\ (forall pre sp tl,
           Forall solid pre -> Forall blank sp -> sp <> [] ->
           starts_solid tl ->
           normalize_text (pre ++ sp ++ tl)
           = pre ++ [32%N] ++ normalize_text tl).
Proof.
  intros rt. split; [apply normalize_text_collapse|]. split.
  - intros s Hs. rewrite normalize_text_collapse. now apply collapse_solid.
  - intros pre sp tl Hpre Hsp Hne Htl.
    rewrite !normalize_text_collapse. now apply collapse_run.
Qed.

Lemma normalize_text_collapses_runs_witness :
  @normalize_text Latin1.runtime
    (utf8 "Total" ++ [32%N; 10%N; 9%N] ++ utf8 "12,50 €")
  = utf8 "Total" ++ [32%N] ++ @normalize_text Latin1.runtime (utf8 "12,50 €").
Proof.
  apply (proj2 (proj2 (normalize_text_collapses_runs Latin1.runtime))).
  - repeat constructor.
  - repeat constructor.
  - discriminate.
  - reflexivity.
Defined.

End NormalizeFacts.

(** *** What a Lidera record holds *)

Module LideraRecord.
Import Re ReGroups NumShape FieldFacts Lidera.

Section Charges.
Context {rt : Runtime}.






End Charges.




End LideraRecord.

(** *** The total of a Lidera invoice *)

Module LideraTotal.
Import Lidera.

Lemma contains_char (c : N) (s : str) :
  contains [c] s = true <-> In c s.
Proof.
  rewrite StrFacts.contains_iff. split.
  - intros (a & b & ->). apply in_or_app. right. now left.
  - intros H. apply in_split in H as (a & b & ->). now exists a, b.
Qed.

Lemma replace_without (old : N) (new s : str) :
  ~ In old s -> replace old new s = s.
Proof.
  unfold replace. induction s as [|c s IH]; intros H; [reflexivity|].
  simpl. destruct (cp_eqb c old) eqn:E.
  - apply StrFacts.cp_eqb_eq in E. subst. exfalso. apply H. now left.
  - simpl. f_equal. apply IH. intros Hin. apply H. now right.
Qed.

Lemma replace_removes (old : N) (new s : str) :
  ~ In old new -> ~ In old (replace old new s).
Proof.
  unfold replace. intros Hn H. apply in_flat_map in H as (c & _ & H).
  destruct (cp_eqb c old) eqn:E; [auto|].
  destruct H as [<-|[]].
  assert (cp_eqb c c = true) by now apply StrFacts.cp_eqb_eq.
  congruence.
Qed.

(** X17.  How [extract_lidera_data] prepares the captured total for
    [float()]: a capture with a comma loses its points and has its
    commas turned into points, and a capture without a comma is
    passed on as it is: the [replace(",", "")] of that branch never
    finds a comma, so the points of such a capture are kept, and are
    read as decimal points.  What is passed on never has a comma. *)
Theorem normalize_total_reading :
  forall (raw : str),
    (~ In 44%N raw -> normalize_total raw = raw)
    /\ (In 44%N raw ->
        normalize_total raw = replace 44 [46%N] (replace 46 [] raw))
    /\ ~ In 44%N (normalize_total raw).
Proof.
  intros raw. unfold normalize_total, normalize_es.
  destruct (contains [44%N] raw) eqn:E.
  - apply contains_char in E. repeat split.
    + intros H. contradiction.
    + apply replace_removes. intros [H|[]]. discriminate H.
  - assert (Hn : ~ In 44%N raw).
    { intros H. apply contains_char in H. congruence. }
    repeat split.
    + intros _. now apply replace_without.
    + intros H. contradiction.
    + rewrite replace_without by exact Hn. exact Hn.
Qed.

Lemma normalize_total_reading_witness :
  normalize_total (utf8 "1.234") = utf8 "1.234"
  /\ normalize_total (utf8 "1.234,50") = utf8 "1234.50".
Proof.
  split.
  - apply (proj1 (normalize_total_reading (utf8 "1.234"))).
    vm_compute. intuition discriminate.
  - rewrite (proj1 (proj2 (normalize_total_reading (utf8 "1.234,50")))).
    + reflexivity.
    + vm_compute. auto 10.
Defined.

End LideraTotal.

(** *** Dates *)

Module DateFacts.
Import Re ReFacts ReAgree Compat PyDate.

(** [dd], [dd/mm/yyyy] and [yyyy-mm-dd]. *)
Definition two (z : Z) : str := zfill 2 (str_of_Z z).

Definition dmy (d m y : Z) : str :=
  two d ++ [47%N] ++ two m ++ [47%N] ++ str_of_Z y.

Definition iso (d m y : Z) : str :=
  str_of_Z y ++ [45%N] ++ two m ++ [45%N] ++ two d.

(** Every character of the pattern is below U+0100. *)
Definition small_item (i : set_item) : bool :=
  match i with
  | SChar p => N.ltb p 256
  | SRange lo hi => N.ltb lo 256 && N.ltb hi 256
  | _ => true
  end.

Fixpoint small_re (r : re) : bool :=
  match r with
  | RChar p => N.ltb p 256
  | RSet _ items => forallb small_item items
  | RCat r1 r2 => small_re r1 && small_re r2
  | RAlt r1 r2 => small_re r1 && small_re r2
  | RRep _ _ _ r1 => small_re r1
  | RGroup _ r1 => small_re r1
  | _ => true
  end.

Section Agreement.
Context {rt : Runtime}.
Hypothesis compat : latin1_compatible rt.

Lemma char_ok_small (fl : flags) (p : N) :
  N.ltb p 256 = true -> char_ok rt Latin1.runtime fl small p.
Proof.
  intros Hp c Hc. unfold char_eq. destruct (ignorecase fl); [|reflexivity].
  apply (compat_fold compat); [now apply N.ltb_lt | exact Hc].
Qed.

Lemma range_ok_small (fl : flags) (lo hi : N) :
  N.ltb lo 256 && N.ltb hi 256 = true ->
  range_ok rt Latin1.runtime fl small lo hi.
Proof.
  intros H c Hc. apply andb_true_iff in H as [Hl Hh].
  apply N.ltb_lt in Hl, Hh. unfold in_range. f_equal. f_equal.
  set (n := S (N.to_nat hi - N.to_nat lo)).
  assert (Hn : forall k, In k (seq 0 n) -> small (lo + N.of_nat k)).
  { intros k Hk. apply in_seq in Hk. unfold small, n in *. lia. }
  induction (seq 0 n) as [|k l IH]; [reflexivity|].
  simpl. rewrite IH by (intros; apply Hn; now right).
  f_equal. apply (compat_fold compat); [|exact Hc]. apply Hn. now left.
Qed.

Lemma re_ok_small (fl : flags) (r : re) :
  small_re r = true -> re_ok rt Latin1.runtime fl small r.
Proof.
  induction r; simpl; intros H; auto.
  - now apply char_ok_small.
  - rewrite forallb_forall in H. apply Forall_forall. intros i Hi.
    specialize (H i Hi). destruct i; simpl in *; auto.
    + now apply char_ok_small.
    + now apply range_ok_small.
  - apply andb_true_iff in H as [H1 H2]. auto.
  - apply andb_true_iff in H as [H1 H2]. auto.
Qed.

(** Matching a pattern of small characters against a small text goes
    as on the Latin-1 tables. *)
Lemma match_latin1 (fl : flags) (r : re) (s : str) :
  small_re r = true -> Forall small s ->
  @match_ rt fl r s = @match_ Latin1.runtime fl r s.
Proof.
  intros Hr Hs.
  apply (match_agree rt Latin1.runtime fl small);
    [apply (compat_decimal compat) | apply (compat_space compat)
     | apply (compat_word compat) | now apply re_ok_small | exact Hs].
Qed.

Lemma digits_value_latin1 (s : str) :
  Forall small s -> Forall (fun c => Latin1.decimal c = true) s ->
  @PyNum.digits_value rt s = @PyNum.digits_value Latin1.runtime s.
Proof.
  unfold PyNum.digits_value. generalize 0%Z.
  induction s as [|c s IH]; intros acc Hs Hd; [reflexivity|].
  inversion Hs; inversion Hd; subst. simpl.
  rewrite (compat_value compat) by assumption. now apply IH.
Qed.

Lemma lstrip_latin1 (s : str) :
  Forall small s ->
  lstrip_by (@is_space rt) s = lstrip_by (@is_space Latin1.runtime) s.
Proof.
  induction 1 as [|c s Hc Hs IH]; [reflexivity|].
  simpl. rewrite (compat_space compat) by exact Hc.
  now rewrite IH.
Qed.

Lemma lstrip_small (sp : N -> bool) (s : str) :
  Forall small s -> Forall small (lstrip_by sp s).
Proof.
  induction 1 as [|c s Hc Hs IH]; simpl; [constructor|].
  destruct (sp c); [exact IH | now constructor].
Qed.

Lemma strip_latin1 (s : str) :
  Forall small s -> @PyNum.strip rt s = @PyNum.strip Latin1.runtime s.
Proof.
  intros Hs. unfold PyNum.strip, strip_by.
  rewrite (lstrip_latin1 s Hs).
  rewrite lstrip_latin1; [reflexivity|].
  apply Forall_rev. now apply lstrip_small.
Qed.

End Agreement.

(** The three parts of [dmy_format]. *)
Definition day_re : re :=
  RGroup 1
    (RAlt (RCat (RChar 51) (RSet false [SRange 48 49]))
       (RAlt (RCat (RSet false [SRange 49 50]) RDigit)
          (RAlt (RCat (RChar 48) (RSet false [SRange 49 57]))
             (RAlt (RSet false [SRange 49 57])
                (RCat (RChar 32) (RSet false [SRange 49 57])))))).

Definition month_re : re :=
  RGroup 2
    (RAlt (RCat (RChar 49) (RSet false [SRange 48 50]))
       (RAlt (RCat (RChar 48) (RSet false [SRange 49 57]))
          (RSet false [SRange 49 57]))).

Definition year_re : re :=
  RGroup 3 (RCat RDigit (RCat RDigit (RCat RDigit RDigit))).

Lemma dmy_format_parts :
  dmy_format
  = RCat day_re (RCat (RChar 47) (RCat month_re (RCat (RChar 47) year_re))).
Proof. reflexivity. Qed.

Definition days : list Z := map Z.of_nat (seq 1 31).
Definition months : list Z := map Z.of_nat (seq 1 12).

Lemma day_matches (d : Z) (tl : str) (A : Type)
      (k : cursor -> captures -> option A) (a : A) :
  In d days ->
  k {| pos := 2; rest := tl |} [(1, two d)] = Some a ->
  @run Latin1.runtime IGNORECASE A day_re
       {| pos := 0; rest := two d ++ tl |} [] k
  = Some a.
Proof.
  intros Hd Hk. unfold days in Hd. simpl in Hd.
  repeat (destruct Hd as [<-|Hd];
          [vm_compute; vm_compute in Hk; rewrite Hk; reflexivity|]).
  destruct Hd.
Qed.

Lemma month_matches (m : Z) (tl : str) (cs : captures) (A : Type)
      (k : cursor -> captures -> option A) (a : A) :
  In m months ->
  k {| pos := 5; rest := tl |} ((2, two m) :: cs) = Some a ->
  @run Latin1.runtime IGNORECASE A month_re
       {| pos := 3; rest := two m ++ tl |} cs k
  = Some a.
Proof.
  intros Hm Hk. unfold months in Hm. simpl in Hm.
  repeat (destruct Hm as [<-|Hm];
          [vm_compute; vm_compute in Hk; rewrite Hk; reflexivity|]).
  destruct Hm.
Qed.

Lemma slash_step (p : nat) (tl : str) :
  @step Latin1.runtime IGNORECASE (RChar 47) {| pos := p; rest := 47%N :: tl |}
  = Some {| pos := S p; rest := tl |}.
Proof. reflexivity. Qed.

Lemma year_matches (a b c e : N) (cs : captures) (A : Type)
      (k : cursor -> captures -> option A) :
  Latin1.decimal a = true -> Latin1.decimal b = true ->
  Latin1.decimal c = true -> Latin1.decimal e = true ->
  @run Latin1.runtime IGNORECASE A year_re
       {| pos := 6; rest := [a; b; c; e] |} cs k
  = k {| pos := 10; rest := [] |} ((3, [a; b; c; e]) :: cs).
Proof.
  intros Ha Hb Hc He. unfold year_re. cbn [run].
  unfold step, advance. cbn [rest pos accepts].
  change (@is_decimal Latin1.runtime) with Latin1.decimal.
  rewrite Ha. cbn [rest pos]. rewrite Hb. cbn [rest pos].
  rewrite Hc. cbn [rest pos]. rewrite He. reflexivity.
Qed.

Lemma dmy_matches (d m : Z) (a b c e : N) :
  In d days -> In m months ->
  Latin1.decimal a = true -> Latin1.decimal b = true ->
  Latin1.decimal c = true -> Latin1.decimal e = true ->
  @match_ Latin1.runtime IGNORECASE dmy_format
    (two d ++ [47%N] ++ two m ++ [47%N] ++ [a; b; c; e])
  = Some {| m_start := 0; m_end := 10;
            m_groups := [(3, [a; b; c; e]); (2, two m); (1, two d)] |}.
Proof.
  intros Hd Hm Ha Hb Hc He.
  unfold match_, match_at, start_of. rewrite dmy_format_parts.
  cbn [run pos rest app].
  apply day_matches; [exact Hd|]. rewrite slash_step.
  apply month_matches; [exact Hm|]. rewrite slash_step.
  now rewrite year_matches.
Qed.

(** The renderings of the days, the months and the years of four
    digits, checked one by one. *)
Definition digits_ok (s : str) (z : Z) : bool :=
  forallb Latin1.decimal s
  && str_eqb (@PyNum.strip Latin1.runtime s) s
  && Z.eqb (@PyNum.digits_value Latin1.runtime s) z.

Definition two_ok (z : Z) : bool :=
  Nat.eqb (List.length (two z)) 2 && digits_ok (two z) z.

Definition year_ok (y : Z) : bool :=
  Nat.eqb (List.length (str_of_Z y)) 4 && digits_ok (str_of_Z y) y.

Definition years : list Z := map Z.of_nat (seq 1000 (9 * 1000)).

Lemma days_ok : forallb two_ok days = true.
Proof. vm_compute. reflexivity. Qed.

Lemma months_ok : forallb two_ok months = true.
Proof. vm_compute. reflexivity. Qed.

Lemma years_ok : forallb year_ok years = true.
Proof. vm_compute. reflexivity. Qed.

Lemma in_interval (lo n : nat) (z : Z) :
  (Z.of_nat lo <= z < Z.of_nat (lo + n))%Z ->
  In z (map Z.of_nat (seq lo n)).
Proof.
  intros H. apply in_map_iff. exists (Z.to_nat z).
  split; [lia|]. apply in_seq. lia.
Qed.

Lemma decimal_small (c : N) : Latin1.decimal c = true -> small c.
Proof.
  unfold Latin1.decimal, Latin1.between, small.
  rewrite andb_true_iff, !N.leb_le. lia.
Qed.

Lemma digits_ok_spec (s : str) (z : Z) :
  digits_ok s z = true ->
  Forall (fun c => Latin1.decimal c = true) s
  /\ Forall small s
  /\ @PyNum.strip Latin1.runtime s = s
  /\ @PyNum.digits_value Latin1.runtime s = z.
Proof.
  unfold digits_ok. rewrite !andb_true_iff, forallb_forall, Z.eqb_eq.
  intros [[Hd Hs] Hz].
  assert (Hf : Forall (fun c => Latin1.decimal c = true) s)
    by now apply Forall_forall.
  repeat split; auto.
  - eapply Forall_impl; [|exact Hf]. apply decimal_small.
  - now apply SerializerFacts.str_eqb_eq.
Qed.

Section RoundTrip.
Context {rt : Runtime}.
Hypothesis compat : latin1_compatible rt.

Variables d m y : Z.
Hypothesis year_range : (1000 <= y <= 9999)%Z.
Hypothesis month_range : (1 <= m <= 12)%Z.
Hypothesis day_range : (1 <= d <= 31)%Z.

Lemma in_days : In d days.
Proof. apply (in_interval 1 31). lia. Qed.

Lemma in_months : In m months.
Proof. apply (in_interval 1 12). lia. Qed.

Lemma in_years : In y years.
Proof. apply (in_interval 1000 (9 * 1000)). lia. Qed.

Lemma day_facts : two_ok d = true.
Proof. exact (proj1 (forallb_forall _ _) days_ok d in_days). Qed.

Lemma month_facts : two_ok m = true.
Proof. exact (proj1 (forallb_forall _ _) months_ok m in_months). Qed.

Lemma year_facts : year_ok y = true.
Proof. exact (proj1 (forallb_forall _ _) years_ok y in_years). Qed.

(** [strptime] on a text [dd/mm/yyyy] checks that the day exists. *)
Lemma strptime_dmy_value :
  strptime_dmy (dmy d m y)
  = if (d <=? days_in_month y m)%Z
    then Ret {| year := y; month := m; day := d |}
    else Raise ValueError.
Proof.
  pose proof day_facts as Hd. pose proof month_facts as Hm.
  pose proof year_facts as Hy.
  unfold two_ok in Hd, Hm. unfold year_ok in Hy.
  apply andb_true_iff in Hd as [Hdl Hd], Hm as [Hml Hm], Hy as [Hyl Hy].
  apply Nat.eqb_eq in Hdl, Hml, Hyl.
  apply digits_ok_spec in Hd as (Hdd & Hds & Hdt & Hdv).
  apply digits_ok_spec in Hm as (Hmd & Hms & Hmt & Hmv).
  apply digits_ok_spec in Hy as (Hyd & Hys & Hyt & Hyv).
  unfold strptime_dmy, dmy.
  assert (Hslash : Forall small [47%N]) by (repeat constructor).
  rewrite (match_latin1 compat IGNORECASE dmy_format)
    by (try reflexivity;
        do 4 (apply Forall_app; split; [assumption|]); assumption).
  destruct (str_of_Z y) as [|a [|b [|c [|e [|x Y]]]]]; try discriminate Hyl.
  pose proof (Forall_inv Hyd) as Ha.
  pose proof (Forall_inv (Forall_inv_tail Hyd)) as Hb.
  pose proof (Forall_inv (Forall_inv_tail (Forall_inv_tail Hyd))) as Hc.
  pose proof (Forall_inv (Forall_inv_tail (Forall_inv_tail
                                             (Forall_inv_tail Hyd)))) as He.
  cbv beta in Ha, Hb, Hc, He.
  rewrite (dmy_matches d m a b c e in_days in_months Ha Hb Hc He).
  cbn [m_end m_groups group lookup_group Nat.eqb].
  rewrite !length_app, Hdl, Hml. cbn [List.length Nat.add Nat.eqb negb].
  rewrite (strip_latin1 compat (two d) Hds), Hdt.
  rewrite !(digits_value_latin1 compat) by assumption.
  rewrite Hdv, Hmv, Hyv.
  replace (1 <=? y)%Z with true by (symmetry; apply Z.leb_le; lia).
  replace (1 <=? d)%Z with true by (symmetry; apply Z.leb_le; lia).
  reflexivity.
Qed.

Lemma strftime_ymd_value :
  strftime_ymd {| year := y; month := m; day := d |} = iso d m y.
Proof.
  pose proof year_facts as Hy. unfold year_ok in Hy.
  apply andb_true_iff in Hy as [Hyl _]. apply Nat.eqb_eq in Hyl.
  unfold strftime_ymd, iso, two. cbn [year month day].
  f_equal. unfold zfill. rewrite Hyl.
  pose proof (compat_year compat) as Hw.
  replace (year_width - 4) with 0 by lia. reflexivity.
Qed.

End RoundTrip.

(** X16.  The date conversion the extractors share,
    [strptime(s, "%d/%m/%Y").strftime("%Y-%m-%d")], on a text
    [dd/mm/yyyy] with a year of four digits, a month from 01 to 12 and
    a day from 01 to 31, on an interpreter whose tables agree with
    Latin-1: when the day exists in that month of that year the result
    is [yyyy-mm-dd] with the same digits, and when it does not (the
    30th of February, the 29th outside a leap year, the 31st of a
    month of 30 days) the conversion raises [ValueError], which the
    helpers of Endesa and Lidera turn into null. *)
Theorem well_formed_date_conversion :
  forall (rt : Runtime) (d m y : Z),
    latin1_compatible rt ->
    (1000 <= y <= 9999)%Z -> (1 <= m <= 12)%Z -> (1 <= d <= 31)%Z ->
    ((d <= days_in_month y m)%Z ->
     reformat_dmy (dmy d m y) = Ret (iso d m y)
     /\ Endesa.format_date_to_yyyy_mm_dd (dmy d m y)
        = Ret (VStr (iso d m y))
     /\ Lidera.convertir_fecha (dmy d m y) = Ret (VStr (iso d m y)))
    /\ ((days_in_month y m < d)%Z ->
        reformat_dmy (dmy d m y) = Raise ValueError
        /\ Endesa.format_date_to_yyyy_mm_dd (dmy d m y) = Ret VNone
        /\ Lidera.convertir_fecha (dmy d m y) = Ret VNone).
Proof.
  intros rt d m y Hc Hy Hm Hd.
  unfold Endesa.format_date_to_yyyy_mm_dd, Lidera.convertir_fecha,
    reformat_dmy.
  rewrite (strptime_dmy_value Hc d m y Hy Hm Hd).
  split; intros H.
  - replace (d <=? days_in_month y m)%Z with true
      by (symmetry; apply Z.leb_le; lia).
    simpl. rewrite (strftime_ymd_value Hc d m y Hy). auto.
  - replace (d <=? days_in_month y m)%Z with false
      by (symmetry; apply Z.leb_gt; lia).
    simpl. auto.
Qed.

Lemma well_formed_date_conversion_witness :
  @reformat_dmy Latin1.runtime (utf8 "29/02/2024") = Ret (utf8 "2024-02-29")
  /\ @Endesa.format_date_to_yyyy_mm_dd Latin1.runtime (utf8 "29/02/2023")
     = Ret VNone.
Proof.
  split.
  - apply (proj1 (well_formed_date_conversion Latin1.runtime 29 2 2024
                    latin1_is_compatible ltac:(lia) ltac:(lia) ltac:(lia))).
    vm_compute. discriminate.
  - apply (proj2 (well_formed_date_conversion Latin1.runtime 29 2 2023
                    latin1_is_compatible ltac:(lia) ltac:(lia) ltac:(lia))).
    vm_compute. reflexivity.
Defined.

End DateFacts.

(** *** The billing period of an Iberdrola invoice *)

Module IberdrolaPeriod.
Import Re FieldFacts Iberdrola.

(** Both dates are null, or both are texts. *)
Definition paired (inicio fin : value) : Prop :=
  (inicio = VNone /\ fin = VNone)
  \/ exists a b, inicio = VStr a /\ fin = VStr b.

Section Period.
Context {rt : Runtime}.

Lemma periodo_paired (text : str) (inicio fin : value) :
  periodo text = Ret (inicio, fin) -> paired inicio fin.
Proof.
  unfold periodo, paired.
  destruct (re_search DOTALL _ text) as [m|];
    [|intros H; injection H as <- <-; left; split; reflexivity].
  destruct (group_arg m 1) as [g1|e1]; cbn [bind try_ValueError].
  - destruct (reformat_dmy g1) as [d1|e1] eqn:E1; cbn [bind try_ValueError].
    + destruct (group_arg m 2) as [g2|e2]; cbn [bind try_ValueError].
      * destruct (reformat_dmy g2) as [d2|e2] eqn:E2;
          cbn [bind try_ValueError].
        -- intros H. injection H as <- <-. right. exists d1, d2.
           split; reflexivity.
        -- rewrite (reformat_dmy_error g2 e2 E2). clear E1 E2.
           intros H. injection H as <- <-. left. split; reflexivity.
      * clear E1. destruct e2; intros H; try discriminate H.
        injection H as <- <-. left. split; reflexivity.
    + rewrite (reformat_dmy_error g1 e1 E1). clear E1.
      intros H. injection H as <- <-. left. split; reflexivity.
  - destruct e1; intros H; try discriminate H.
    injection H as <- <-. left. split; reflexivity.
Qed.

(** The second date of the period is not a day of the calendar. *)
Definition second_date_invalid (text : str) : Prop :=
  exists m g1 g2,
    re_search DOTALL
      "PERIODO DE FACTURACIÓN.*?\n\n(\d{1,2}/\d{1,2}/\d{4})\s+(\d{1,2}/\d{1,2}/\d{4})"
      text = Some m
    /\ group m 1 = Some g1 /\ group m 2 = Some g2
    /\ reformat_dmy g2 = Raise ValueError.

Lemma periodo_second_invalid (text : str) :
  second_date_invalid text -> periodo text = Ret (VNone, VNone).
Proof.
  intros (m & g1 & g2 & Hm & H1 & H2 & Hd). unfold periodo.
  rewrite Hm. unfold group_arg. rewrite H1, H2. cbn [bind].
  destruct (reformat_dmy g1) as [d1|e1] eqn:E1; cbn [bind].
  - rewrite Hd. reflexivity.
  - rewrite (reformat_dmy_error g1 e1 E1). reflexivity.
Qed.

Lemma body_period (text : str) (r : value) :
  body text = Ret r ->
  exists a b c d e f g h i j k l m n o p q s,
    periodo text = Ret (d, e)
    /\ r = invoice_record a b c d e f g h i j k l m n o p q s.
Proof.
  unfold body.
  repeat match goal with
         | |- bind (periodo text) _ = _ -> _ => fail 1
         | |- bind ?m _ = _ -> _ =>
             destruct m; simpl; [|intros H; discriminate H]
         end.
  destruct (periodo text) as [[d e]|]; simpl; [|intros H; discriminate H].
  repeat match goal with
         | |- bind ?m _ = _ -> _ =>
             destruct m; simpl; [|intros H; discriminate H]
         end.
  intros H. injection H as <-. do 18 eexists. split; reflexivity.
Qed.

End Period.

(** X18.  In every record [extract_iberdrola_data] returns, the two
    dates of the billing period are both texts or both null: the
    method converts them under one [try], so when the pattern
    matches and the second date is not a day of the calendar the
    first, though valid, is null as well. *)
Theorem iberdrola_period_all_or_nothing :
  forall (rt : Runtime) (text : str) (r : value),
    extract_iberdrola_data text = Ret r ->
    has_key "error" r = false ->
    exists inicio fin,
      get2 "periodo_facturacion" "inicio" r = Some inicio
      /\ get2 "periodo_facturacion" "fin" r = Some fin
      /\ paired inicio fin
      /\ (second_date_invalid text -> inicio = VNone /\ fin = VNone).
Proof.
  intros rt text r Hr Hk. unfold extract_iberdrola_data in Hr.
  destruct (body text) as [r'|e] eqn:Eb; simpl in Hr;
    injection Hr as <-; [|discriminate Hk].
  destruct (body_period text r' Eb)
    as (a & b & c & d & e & f & g & h & i & j & k & l & m & n & o & p
        & q & s & Hp & ->).
  exists d, e. split; [reflexivity|]. split; [reflexivity|].
  split; [now apply (periodo_paired text)|].
  intros H. rewrite (periodo_second_invalid text H) in Hp.
  injection Hp as <- <-. auto.
Qed.

(** A period that ends on the 31st of June. *)
Definition iberdrola_sample : str := utf8 "IBERDROLA CLIENTES
PERIODO DE FACTURACIÓN

01/06/2024 31/06/2024
".

Lemma iberdrola_period_all_or_nothing_witness :
  exists r,
    @extract_iberdrola_data Latin1.runtime iberdrola_sample = Ret r
    /\ get2 "periodo_facturacion" "inicio" r = Some VNone
    /\ get2 "periodo_facturacion" "fin" r = Some VNone.
Proof.
  destruct (@extract_iberdrola_data Latin1.runtime iberdrola_sample)
    as [r|e] eqn:Hr; [|vm_compute in Hr; discriminate Hr].
  exists r. split; [reflexivity|].
  assert (Hk : has_key "error" r = false).
  { pose proof Hr as Hv. vm_compute in Hv. injection Hv as <-.
    vm_compute. reflexivity. }
  destruct (iberdrola_period_all_or_nothing Latin1.runtime iberdrola_sample
              r Hr Hk) as (inicio & fin & -> & -> & _ & H).
  destruct H as [-> ->]; [|split; reflexivity].
  eexists _, _, _. split; [vm_compute; reflexivity|].
  split; [vm_compute; reflexivity|]. split; vm_compute; reflexivity.
Defined.

End IberdrolaPeriod.

(** *** The end of a run of [post] *)

Module PostFacts.
Import Pipeline Convert.

(** X19.  Once the text of the document is converted, [post] ends in
    one of these ways.  A dictionary with the key [error] is not
    saved, and is answered 201 with the text, as a success.  A record
    is saved first; the temporary file is removed afterwards, and
    when that removal raises the answer is the 500 of the outer
    handler, [Error durante el procesamiento.], although the invoice
    is already in the database. *)
Theorem post_saves_before_cleanup :
  forall (rt : Runtime) (C : Collaborators) (f : pdf)
         (images : list image) (photo : option url) (t : str) (d : value),
    store_temp f = Ret tt ->
    pdf_to_images f = Ret images ->
    upload_first_page images = Ret (inl photo) ->
    combined_text images = Ret t ->
    convert_ocr_to_json t = Ret d ->
    (has_key "error" d = true ->
     (remove_temp f = Ret tt -> post (Some f) = Created t d)
     /\ (forall e, remove_temp f = Raise e ->
                   post (Some f)
                   = ServerError "Error durante el procesamiento." e))
    /\ (has_key "error" d = false ->
        invoice_create (get2 "periodo_facturacion" "inicio" d)
                       (get2 "periodo_facturacion" "fin" d) d photo
        = Ret tt ->
        (remove_temp f = Ret tt -> post (Some f) = Created t d)
        /\ (forall e, remove_temp f = Raise e ->
                      post (Some f)
                      = ServerError "Error durante el procesamiento." e)).
Proof.
  intros rt C f images photo t d Hs Hi Hu Ht Hd.
  unfold post. rewrite Hs. cbn [bind]. rewrite Hi. cbn [bind].
  rewrite Hu. cbn [bind]. rewrite Ht. cbn [bind]. rewrite Hd. cbn [bind].
  unfold save_invoice.
  split.
  - intros Hk. rewrite Hk. cbn [negb bind].
    split; [intros Hr | intros e Hr]; rewrite Hr; reflexivity.
  - intros Hk Hc. rewrite Hk, Hc. cbn [negb bind].
    split; [intros Hr | intros e Hr]; rewrite Hr; reflexivity.
Qed.

(** A world in which everything works but the removal of the
    temporary file. *)
Definition stuck_file : Collaborators := {|
  pdf := unit;
  page := str;
  image := str;
  gray := str;
  upload := str;
  url := str;
  store_temp := fun _ => Ret tt;
  fitz_open := fun _ => Ret [utf8 "NATURGY IBERIA"];
  render := fun p => Ret p;
  fitz_close := fun _ => Ret tt;
  cv2_enhance := fun i => Ret i;
  tesseract := fun g => Ret g;
  to_png_upload := fun i => Ret i;
  process_and_upload_image := fun u => Ret u;
  invoice_create := fun _ _ _ _ => Ret tt;
  remove_temp := fun _ => Raise (OtherError (utf8 "file is in use"))
|}.

Lemma post_saves_before_cleanup_witness :
  @post Latin1.runtime stuck_file (Some tt)
  = ServerError "Error durante el procesamiento."
                (OtherError (utf8 "file is in use")).
Proof.
  refine (proj2 (proj2 (post_saves_before_cleanup
                          Latin1.runtime stuck_file tt
                          [utf8 "NATURGY IBERIA"]
                          (Some (utf8 "NATURGY IBERIA"))
                          (utf8 "NATURGY IBERIA" ++ [LF])
                          Stubs.naturgy_record
                          _ _ _ _ _) _ _) _ _);
    vm_compute; reflexivity.
Defined.

End PostFacts.
